(** * DNSProxyCommand: a shallow embedding of the tunnel protocol

    The development follows the Go sources of the repository:
    - [internal/client/client.go]   (client pumps, payload window, coders),
    - [internal/server/server.go]   (packet dispatcher and answer cache),
    - [internal/server/newconn.go]  (handshake handler),
    - [internal/server/forward.go]  (client-to-upstream handler),
    - [internal/server/reverse.go]  (upstream-to-client handler),
    - [internal/server/conn.go]     (session table and idle pruner).

    Go strings are modelled as [string], byte slices as [list byte],
    [uint64]/[int64] values as [Z] with the wrap-around written out, the
    session table as a [gmap string conn].  Everything the handlers obtain
    from the outside world (clock readings, the outcome of a dial, write or
    read on the upstream socket) is an explicit argument. *)

From stdpp Require Import gmap strings list.
From Stdlib Require Import Strings.Ascii Strings.String Strings.Byte.
From Stdlib Require Import NArith ZArith Lia.

Local Open Scope Z_scope.

(* ===================================================================== *)
(** * Go library functions used by the program *)
(* ===================================================================== *)

Module GoStrings.

(** [strings.ToLower] / [strings.ToUpper] on one byte.  The model is the
    ASCII case mapping, which is what Go does on ASCII strings; a string
    with bytes above 127 Go maps rune by rune through the Unicode tables,
    the model leaves those bytes alone. *)
Definition lower_ascii (c : ascii) : ascii :=
  let n := N_of_ascii c in
  if ((65 <=? n) && (n <=? 90))%N then ascii_of_N (n + 32) else c.

Definition upper_ascii (c : ascii) : ascii :=
  let n := N_of_ascii c in
  if ((97 <=? n) && (n <=? 122))%N then ascii_of_N (n - 32) else c.

Fixpoint ToLower (s : string) : string :=
  match s with
  | EmptyString => EmptyString
  | String c r => String (lower_ascii c) (ToLower r)
  end.

Fixpoint ToUpper (s : string) : string :=
  match s with
  | EmptyString => EmptyString
  | String c r => String (upper_ascii c) (ToUpper r)
  end.

(** [strings.HasSuffix s suffix]:
    [len(s) >= len(suffix) && s[len(s)-len(suffix):] == suffix]. *)
Definition HasSuffix (s suffix : string) : bool :=
  (String.length suffix <=? String.length s)%nat &&
  String.eqb
    (substring (String.length s - String.length suffix)
               (String.length suffix) s)
    suffix.

(** [strings.TrimSuffix]. *)
Definition TrimSuffix (s suffix : string) : string :=
  if HasSuffix s suffix
  then substring 0 (String.length s - String.length suffix) s
  else s.

(** [strings.Split s "."]: the fields between the dots; always at least
    one field. *)
Fixpoint SplitDot (s : string) : list string :=
  match s with
  | EmptyString => [EmptyString]
  | String c r =>
      if Ascii.eqb c "."%char then EmptyString :: SplitDot r
      else match SplitDot r with
           | [] => [String c EmptyString]
           | l :: ls => String c l :: ls
           end
  end.

(** [strings.Trim s "."]: drop leading and trailing dots. *)
Fixpoint TrimLeftDot (s : string) : string :=
  match s with
  | String c r => if Ascii.eqb c "."%char then TrimLeftDot r else s
  | EmptyString => EmptyString
  end.

Fixpoint TrimRightDot (s : string) : string :=
  match s with
  | EmptyString => EmptyString
  | String c r =>
      match TrimRightDot r with
      | EmptyString =>
          if Ascii.eqb c "."%char then EmptyString
          else String c EmptyString
      | r' => String c r'
      end
  end.

Definition TrimDot (s : string) : string := TrimRightDot (TrimLeftDot s).

End GoStrings.

Module Strconv.

(** Value of a digit as [strconv.ParseUint] reads it: ['0'..'9'],
    ['a'..'z'] and ['A'..'Z']; anything else is a syntax error. *)
Definition digit_val (c : ascii) : option Z :=
  let n := Z.of_N (N_of_ascii c) in
  if (48 <=? n) && (n <=? 57) then Some (n - 48)
  else if (97 <=? n) && (n <=? 122) then Some (n - 97 + 10)
  else if (65 <=? n) && (n <=? 90) then Some (n - 65 + 10)
  else None.

Definition maxUint64 : Z := 2 ^ 64 - 1.

(** The digit loop of [ParseUint]: fails on a bad digit, on a digit not
    below the base and as soon as the value leaves 64 bits. *)
Fixpoint parse_digits (base : Z) (s : string) (acc : Z) : option Z :=
  match s with
  | EmptyString => Some acc
  | String c r =>
      match digit_val c with
      | None => None
      | Some d =>
          if base <=? d then None
          else
            let acc' := acc * base + d in
            if maxUint64 <? acc' then None else parse_digits base r acc'
      end
  end.

(** [strconv.ParseUint(s, base, 64)] for an explicit base (no prefix, no
    underscores, no sign). *)
Definition ParseUint (s : string) (base : Z) : option Z :=
  match s with
  | EmptyString => None
  | _ => parse_digits base s 0
  end.

(** [strconv.ParseInt(s, 10, 64)]: optional sign, then [ParseUint], then
    the signed range check. *)
Definition ParseInt10 (s : string) : option Z :=
  match s with
  | EmptyString => None
  | String c r =>
      let '(neg, body) :=
        if Ascii.eqb c "+"%char then (false, r)
        else if Ascii.eqb c "-"%char then (true, r)
        else (false, s) in
      match ParseUint body 10 with
      | None => None
      | Some un =>
          if neg then (if 2 ^ 63 <? un then None else Some (- un))
          else (if 2 ^ 63 <=? un then None else Some un)
      end
  end.

Definition digit_char (d : Z) : ascii :=
  if d <? 10 then ascii_of_N (Z.to_N (48 + d))
  else ascii_of_N (Z.to_N (97 + d - 10)).

(** The digit loop of [FormatUint]: least significant digit first, pushed
    in front of what is already there.  Thirteen base-36 digits hold any
    64-bit value. *)
Fixpoint format_digits (fuel : nat) (n : Z) (acc : string) : string :=
  let acc' := String (digit_char (n mod 36)) acc in
  match fuel with
  | O => acc'
  | S f => if n / 36 =? 0 then acc' else format_digits f (n / 36) acc'
  end.

(** [strconv.FormatUint(n, 36)]. *)
Definition FormatUint36 (n : Z) : string := format_digits 12 n EmptyString.

(** The digit loop of [FormatInt] in base 10, on the absolute value. *)
Fixpoint format_decimal (fuel : nat) (n : Z) (acc : string) : string :=
  let acc' := String (digit_char (n mod 10)) acc in
  match fuel with
  | O => acc'
  | S f => if n / 10 =? 0 then acc' else format_decimal f (n / 10) acc'
  end.

(** [fmt.Sprintf("%d", n)] for an [int64]: a minus sign for a negative
    number, then up to nineteen decimal digits. *)
Definition FormatInt10 (n : Z) : string :=
  if n <? 0 then String "-"%char (format_decimal 18 (- n) EmptyString)
  else format_decimal 18 n EmptyString.

End Strconv.

(* ===================================================================== *)
(** * The payload carriers: [encoding/base32] and [encoding/base64] *)
(* ===================================================================== *)

Module Codec.

(** Bit [k] of a byte, bit 7 being the most significant one. *)
Definition bit (b : byte) (k : N) : bool := N.testbit (Byte.to_N b) k.

(** The byte with the given bits, most significant first. *)
Definition mkbyte (x7 x6 x5 x4 x3 x2 x1 x0 : bool) : byte :=
  Byte.of_bits (x0, (x1, (x2, (x3, (x4, (x5, (x6, x7))))))).

Definition b2n (x : bool) : N := if x then 1%N else 0%N.

(** A 5-bit and a 6-bit group as a number, most significant bit first. *)
Definition idx5 (a b c d e : bool) : N :=
  (16 * b2n a + 8 * b2n b + 4 * b2n c + 2 * b2n d + b2n e)%N.

Definition idx6 (a b c d e f : bool) : N :=
  (32 * b2n a + idx5 b c d e f)%N.

(** [enc.encode[i]]: the character of a group in an alphabet. *)
Definition enc_char (alphabet : string) (i : N) : ascii :=
  match String.get (N.to_nat i) alphabet with
  | Some c => c
  | None => "000"%char
  end.

(** [enc.decodeMap[c]]: the group of a character, nothing for a
    character outside the alphabet (0xFF in the Go table). *)
Fixpoint find_char (alphabet : string) (c : ascii) (i : N) : option N :=
  match alphabet with
  | EmptyString => None
  | String a r => if Ascii.eqb a c then Some i else find_char r c (N.succ i)
  end.

Definition dec_char (alphabet : string) (c : ascii) : option N :=
  find_char alphabet c 0%N.

Fixpoint dec_chars (alphabet : string) (s : string) : option (list N) :=
  match s with
  | EmptyString => Some []
  | String c r =>
      match dec_char alphabet c, dec_chars alphabet r with
      | Some i, Some l => Some (i :: l)
      | _, _ => None
      end
  end.

(** Both decoders drop carriage returns and line feeds first. *)
Definition is_newline (c : ascii) : bool :=
  Ascii.eqb c "010"%char || Ascii.eqb c "013"%char.

Fixpoint stripNewlines (s : string) : string :=
  match s with
  | EmptyString => EmptyString
  | String c r =>
      if is_newline c then stripNewlines r else String c (stripNewlines r)
  end.

Definition x00 : byte := Byte.x00.

(** ** base32, standard alphabet, no padding *)

Definition encodeStd32 : string := "ABCDEFGHIJKLMNOPQRSTUVWXYZ234567".

(** One 40-bit quantum as eight 5-bit groups. *)
Definition b32_block (b0 b1 b2 b3 b4 : byte) : list N :=
  [ idx5 (bit b0 7) (bit b0 6) (bit b0 5) (bit b0 4) (bit b0 3);
    idx5 (bit b0 2) (bit b0 1) (bit b0 0) (bit b1 7) (bit b1 6);
    idx5 (bit b1 5) (bit b1 4) (bit b1 3) (bit b1 2) (bit b1 1);
    idx5 (bit b1 0) (bit b2 7) (bit b2 6) (bit b2 5) (bit b2 4);
    idx5 (bit b2 3) (bit b2 2) (bit b2 1) (bit b2 0) (bit b3 7);
    idx5 (bit b3 6) (bit b3 5) (bit b3 4) (bit b3 3) (bit b3 2);
    idx5 (bit b3 1) (bit b3 0) (bit b4 7) (bit b4 6) (bit b4 5);
    idx5 (bit b4 4) (bit b4 3) (bit b4 2) (bit b4 1) (bit b4 0) ].

(** [Encoding.Encode] without padding: full quanta give eight groups, a
    last quantum of 1, 2, 3 or 4 bytes gives 2, 4, 5 or 7. *)
Fixpoint b32_groups (src : list byte) : list N :=
  match src with
  | [] => []
  | [b0] => take 2 (b32_block b0 x00 x00 x00 x00)
  | [b0; b1] => take 4 (b32_block b0 b1 x00 x00 x00)
  | [b0; b1; b2] => take 5 (b32_block b0 b1 b2 x00 x00)
  | [b0; b1; b2; b3] => take 7 (b32_block b0 b1 b2 b3 x00)
  | b0 :: b1 :: b2 :: b3 :: b4 :: rest =>
      b32_block b0 b1 b2 b3 b4 ++ b32_groups rest
  end.

Definition chars_of (alphabet : string) (l : list N) : string :=
  string_of_list_ascii (map (enc_char alphabet) l).

(** [base32.StdEncoding.WithPadding(base32.NoPadding).EncodeToString]. *)
Definition b32_encode (src : list byte) : string :=
  chars_of encodeStd32 (b32_groups src).

(** [EncodedLen] of the unpadded encoding. *)
Definition b32_EncodedLen (n : Z) : Z := (n * 8 + 4) / 5.

(** Eight groups packed back into five bytes. *)
Definition b32_unblock (i0 i1 i2 i3 i4 i5 i6 i7 : N) : list byte :=
  let t := N.testbit in
  [ mkbyte (t i0 4) (t i0 3) (t i0 2) (t i0 1) (t i0 0)
           (t i1 4) (t i1 3) (t i1 2);
    mkbyte (t i1 1) (t i1 0) (t i2 4) (t i2 3) (t i2 2)
           (t i2 1) (t i2 0) (t i3 4);
    mkbyte (t i3 3) (t i3 2) (t i3 1) (t i3 0) (t i4 4)
           (t i4 3) (t i4 2) (t i4 1);
    mkbyte (t i4 0) (t i5 4) (t i5 3) (t i5 2) (t i5 1)
           (t i5 0) (t i6 4) (t i6 3);
    mkbyte (t i6 2) (t i6 1) (t i6 0) (t i7 4) (t i7 3)
           (t i7 2) (t i7 1) (t i7 0) ]%N.

(** The packing switch of [Encoding.decode]: a last quantum of 2, 4, 5 or
    7 groups gives 1, 2, 3 or 4 bytes; one of 1, 3 or 6 groups matches no
    case and gives none. *)
Fixpoint b32_ungroups (l : list N) : list byte :=
  match l with
  | i0 :: i1 :: i2 :: i3 :: i4 :: i5 :: i6 :: i7 :: rest =>
      b32_unblock i0 i1 i2 i3 i4 i5 i6 i7 ++ b32_ungroups rest
  | [i0; i1; i2; i3; i4; i5; i6] =>
      take 4 (b32_unblock i0 i1 i2 i3 i4 i5 i6 0)
  | [i0; i1; i2; i3; i4] => take 3 (b32_unblock i0 i1 i2 i3 i4 0 0 0)
  | [i0; i1; i2; i3] => take 2 (b32_unblock i0 i1 i2 i3 0 0 0 0)
  | [i0; i1] => take 1 (b32_unblock i0 i1 0 0 0 0 0 0)
  | _ => []
  end.

(** [base32.StdEncoding.WithPadding(base32.NoPadding).DecodeString]:
    newlines are dropped, a character outside the alphabet is an error.
    (Go compares input bytes with the padding character truncated to a
    byte, 0xFF for [NoPadding]; the model treats 0xFF as any other
    character outside the alphabet.) *)
Definition b32_decode (s : string) : option (list byte) :=
  match dec_chars encodeStd32 (stripNewlines s) with
  | Some l => Some (b32_ungroups l)
  | None => None
  end.

(** ** base64, standard alphabet, no padding *)

Definition encodeStd64 : string :=
  "ABCDEFGHIJKLMNOPQRSTUVWXYZabcdefghijklmnopqrstuvwxyz0123456789+/".

(** One 24-bit quantum as four 6-bit groups. *)
Definition b64_block (b0 b1 b2 : byte) : list N :=
  [ idx6 (bit b0 7) (bit b0 6) (bit b0 5) (bit b0 4) (bit b0 3) (bit b0 2);
    idx6 (bit b0 1) (bit b0 0) (bit b1 7) (bit b1 6) (bit b1 5) (bit b1 4);
    idx6 (bit b1 3) (bit b1 2) (bit b1 1) (bit b1 0) (bit b2 7) (bit b2 6);
    idx6 (bit b2 5) (bit b2 4) (bit b2 3) (bit b2 2) (bit b2 1) (bit b2 0) ].

Fixpoint b64_groups (src : list byte) : list N :=
  match src with
  | [] => []
  | [b0] => take 2 (b64_block b0 x00 x00)
  | [b0; b1] => take 3 (b64_block b0 b1 x00)
  | b0 :: b1 :: b2 :: rest => b64_block b0 b1 b2 ++ b64_groups rest
  end.

(** [EncodedLen] of the unpadded base64 encoding. *)
Definition b64_EncodedLen (n : Z) : Z := (n * 8 + 5) / 6.

(** [base64.RawStdEncoding.EncodeToString]. *)
Definition b64_encode (src : list byte) : string :=
  chars_of encodeStd64 (b64_groups src).

Definition b64_unblock (i0 i1 i2 i3 : N) : list byte :=
  let t := N.testbit in
  [ mkbyte (t i0 5) (t i0 4) (t i0 3) (t i0 2) (t i0 1) (t i0 0)
           (t i1 5) (t i1 4);
    mkbyte (t i1 3) (t i1 2) (t i1 1) (t i1 0) (t i2 5) (t i2 4)
           (t i2 3) (t i2 2);
    mkbyte (t i2 1) (t i2 0) (t i3 5) (t i3 4) (t i3 3) (t i3 2)
           (t i3 1) (t i3 0) ]%N.

(** [decodeQuantum]: a last quantum of 3 or 2 groups gives 2 or 1 bytes,
    a single trailing group is corrupt input. *)
Fixpoint b64_ungroups (l : list N) : option (list byte) :=
  match l with
  | [] => Some []
  | [_] => None
  | [i0; i1] => Some (take 1 (b64_unblock i0 i1 0 0))
  | [i0; i1; i2] => Some (take 2 (b64_unblock i0 i1 i2 0))
  | i0 :: i1 :: i2 :: i3 :: rest =>
      match b64_ungroups rest with
      | Some r => Some (b64_unblock i0 i1 i2 i3 ++ r)
      | None => None
      end
  end.

(** [base64.RawStdEncoding.DecodeString]. *)
Definition b64_decode (s : string) : option (list byte) :=
  match dec_chars encodeStd64 (stripNewlines s) with
  | Some l => b64_ungroups l
  | None => None
  end.

End Codec.

Definition bytes_of (s : string) : list byte := list_byte_of_string s.


(* ===================================================================== *)
(** * The two-queue cache ([hashicorp/golang-lru], [New2Q]) *)
(* ===================================================================== *)

Module Lru.
Section WithValue.

Context {V : Type}.

(** [simplelru.LRU]: the entries, most recently used first. *)
Definition entries : Type := list (string * V).

Definition has_key (k : string) (e : string * V) : bool :=
String.eqb (fst e) k.

Definition lru_Contains (k : string) (l : entries) : bool :=
existsb (has_key k) l.

Fixpoint lru_Peek (k : string) (l : entries) : option V :=
match l with
| [] => None
| e :: r => if has_key k e then Some (snd e) else lru_Peek k r
end.

Definition lru_Remove (k : string) (l : entries) : entries :=
List.filter (fun e => negb (has_key k e)) l.

Definition lru_RemoveOldest (l : entries) : entries := removelast l.

Definition lru_oldest (l : entries) : option string :=
match List.rev l with
| [] => None
| e :: _ => Some (fst e)
end.

(** [LRU.Add]: a known key moves to the front with the new value; a new
  key is pushed in front and the oldest entry leaves when the list is
  over its size. *)
Definition lru_Add (size : Z) (k : string) (v : V) (l : entries) : entries :=
if lru_Contains k l then (k, v) :: lru_Remove k l
else
  let l' := (k, v) :: l in
  if size <? Z.of_nat (List.length l') then lru_RemoveOldest l' else l'.

(** [LRU.Get]: a hit moves the entry to the front. *)
Definition lru_Get (k : string) (l : entries) : option V * entries :=
match lru_Peek k l with
| Some v => (Some v, (k, v) :: lru_Remove k l)
| None => (None, l)
end.

End WithValue.

Arguments entries : clear implicits.

Section TwoQueue.

Context {V : Type}.

Record TwoQueueCache : Type := {
size : Z;
recentSize : Z;
evictSize : Z;
recent : entries V;
frequent : entries V;
recentEvict : entries unit
}.

(** [New2Q(size)]: a quarter for recent entries, half as many ghost
  entries as the cache holds. *)
Definition New2Q (n : Z) : TwoQueueCache :=
{| size := n; recentSize := n / 4; evictSize := n / 2;
   recent := []; frequent := []; recentEvict := [] |}.

Definition with_queues (c : TwoQueueCache)
  (r f : entries V) (g : entries unit) : TwoQueueCache :=
{| size := size c; recentSize := recentSize c; evictSize := evictSize c;
   recent := r; frequent := f; recentEvict := g |}.

(** [ensureSpace]. *)
Definition ensureSpace (isGhost : bool) (c : TwoQueueCache) : TwoQueueCache :=
let recentLen := Z.of_nat (List.length (recent c)) in
let freqLen := Z.of_nat (List.length (frequent c)) in
if recentLen + freqLen <? size c then c
else if (0 <? recentLen) &&
        ((recentSize c <? recentLen) ||
         ((recentLen =? recentSize c) && negb isGhost))
then
  match lru_oldest (recent c) with
  | Some k =>
      with_queues c (lru_RemoveOldest (recent c)) (frequent c)
                  (lru_Add (evictSize c) k tt (recentEvict c))
  | None => c
  end
else with_queues c (recent c) (lru_RemoveOldest (frequent c))
                 (recentEvict c).

(** [TwoQueueCache.Add]. *)
Definition Add (k : string) (v : V) (c : TwoQueueCache) : TwoQueueCache :=
if lru_Contains k (frequent c) then
  with_queues c (recent c) (lru_Add (size c) k v (frequent c))
              (recentEvict c)
else if lru_Contains k (recent c) then
  with_queues c (lru_Remove k (recent c))
              (lru_Add (size c) k v (frequent c)) (recentEvict c)
else if lru_Contains k (recentEvict c) then
  let c1 := ensureSpace true c in
  with_queues c1 (recent c1) (lru_Add (size c1) k v (frequent c1))
              (lru_Remove k (recentEvict c1))
else
  let c1 := ensureSpace false c in
  with_queues c1 (lru_Add (size c1) k v (recent c1)) (frequent c1)
              (recentEvict c1).

(** [TwoQueueCache.Contains]: no change of recency. *)
Definition Contains (k : string) (c : TwoQueueCache) : bool :=
lru_Contains k (frequent c) || lru_Contains k (recent c).

(** [TwoQueueCache.Get]: a frequent entry is refreshed, a recent one is
  promoted; a miss changes nothing. *)
Definition Get (k : string) (c : TwoQueueCache) : option V * TwoQueueCache :=
match lru_Get k (frequent c) with
| (Some v, f') => (Some v, with_queues c (recent c) f' (recentEvict c))
| (None, _) =>
    match lru_Peek k (recent c) with
    | Some v =>
        (Some v,
         with_queues c (lru_Remove k (recent c))
                     (lru_Add (size c) k v (frequent c)) (recentEvict c))
    | None => (None, c)
    end
end.

End TwoQueue.

Arguments TwoQueueCache : clear implicits.

End Lru.

(* ===================================================================== *)
(** * The server: session table, handlers, dispatcher *)
(* ===================================================================== *)

(** [uint64] and [int64] arithmetic. *)
Definition wrap64 (z : Z) : Z := z mod 2 ^ 64.

Definition wrap_int64 (z : Z) : Z := (z + 2 ^ 63) mod 2 ^ 64 - 2 ^ 63.

(** Instants are nanoseconds since the Unix epoch; the zero [time.Time] is
    January 1 of year 1. *)
Definition zeroTime : Z := -62135596800 * 10 ^ 9.

Definition time_Hour : Z := 3600 * 10 ^ 9.
Definition time_Millisecond : Z := 10 ^ 6.
Definition minDuration : Z := - 2 ^ 63.
Definition maxDuration : Z := 2 ^ 63 - 1.

(** [t.Sub(u)]: the difference as a [Duration], saturated. *)
Definition time_Sub (t u : Z) : Z :=
  let d := t - u in
  if d <? minDuration then minDuration
  else if maxDuration <? d then maxDuration
  else d.

(** How an upstream read or write ended. *)
Inductive ioerr : Type :=
| ErrNone
| ErrTimeout      (* an error whose [Timeout()] is true *)
| ErrOther.       (* any other error, [io.EOF] included *)

(** What one request gets from the outside world. *)
Record env : Type := {
  now0 : Z;                 (* successive readings of [time.Now()] *)
  now1 : Z;
  now2 : Z;
  dial : option nat;        (* [net.Dial]: the new socket, or an error *)
  write_ok : bool;          (* [c.c.Write] returned no error *)
  deadline_ok : bool;       (* [c.c.SetReadDeadline] returned no error *)
  read_data : list byte;    (* what the upstream has to offer to [Read] *)
  read_err : ioerr          (* the error [Read] returns with it *)
}.

(** The observable actions of the server, in program order. *)
Inductive event : Type :=
| EvDial (r : option nat)
| EvUpdateLast (sock : nat) (t : Z)
| EvWrite (sock : nat) (b : list byte) (ok : bool)
| EvSetReadDeadline (sock : nat) (t : Z) (ok : bool)
| EvRead (sock : nat) (n : nat) (err : ioerr)
| EvClose (sock : nat)
| EvLog (msg : string)
| EvPanic (msg : string).

(** What a handler returns: [(b, nil)] with [b] not nil, [(nil, nil)], or
    [(nil, err)]. *)
Inductive result : Type :=
| Reply (b : list byte)
| NoReply
| Err (msg : string).

Module Server.

(** [reverse.go] *)
Definition maxTXTLen : nat := 189.
Definition readWait : Z := 10 * time_Millisecond.

(** [newconn.go] *)
Definition tsCacheSize : Z := 1024 * 1024.
Definition maxTSOff : Z := 24 * time_Hour.

(** [server.go] *)
Definition ansCacheSize : Z := 1024 * 1024.

(** [forward.go]: [dec] decodes base32'd data. *)
Definition dec : string -> option (list byte) := Codec.b32_decode.

(** [type conn struct] of [conn.go], without its mutexes. *)
Record conn : Type := {
  start : Z;
  last : Z;
  nextFwd : Z;
  nextRev : Z;
  c : nat;
  closed : bool
}.

Definition set_last (t : Z) (x : conn) : conn :=
  {| start := start x; last := t; nextFwd := nextFwd x;
     nextRev := nextRev x; c := c x; closed := closed x |}.

Definition incr_nextFwd (x : conn) : conn :=
  {| start := start x; last := last x; nextFwd := wrap64 (nextFwd x + 1);
     nextRev := nextRev x; c := c x; closed := closed x |}.

Definition incr_nextRev (x : conn) : conn :=
  {| start := start x; last := last x; nextFwd := nextFwd x;
     nextRev := wrap64 (nextRev x + 1); c := c x; closed := closed x |}.

(** The package-level variables of [server.go], [newconn.go] and
    [conn.go], and the actions performed so far. *)
Record state : Type := {
  domainName : string;
  conns : gmap string conn;
  connNextID : Z;
  seenTSCache : Lru.TwoQueueCache unit;
  ansCache : Lru.TwoQueueCache string;
  trace : list event
}.

Definition set_conns (m : gmap string conn) (s : state) : state :=
  {| domainName := domainName s; conns := m; connNextID := connNextID s;
     seenTSCache := seenTSCache s; ansCache := ansCache s;
     trace := trace s |}.

Definition set_connNextID (n : Z) (s : state) : state :=
  {| domainName := domainName s; conns := conns s; connNextID := n;
     seenTSCache := seenTSCache s; ansCache := ansCache s;
     trace := trace s |}.

Definition set_seenTSCache (q : Lru.TwoQueueCache unit) (s : state) : state :=
  {| domainName := domainName s; conns := conns s;
     connNextID := connNextID s; seenTSCache := q; ansCache := ansCache s;
     trace := trace s |}.

Definition set_ansCache (q : Lru.TwoQueueCache string) (s : state) : state :=
  {| domainName := domainName s; conns := conns s;
     connNextID := connNextID s; seenTSCache := seenTSCache s;
     ansCache := q; trace := trace s |}.

Definition emit (ev : event) (s : state) : state :=
  {| domainName := domainName s; conns := conns s;
     connNextID := connNextID s; seenTSCache := seenTSCache s;
     ansCache := ansCache s; trace := trace s ++ [ev] |}.

(** The state [Server] starts from: [domainName] is the parent domain
    between dots, [connNextID] the clock reading at start-up. *)
Definition init (domain : string) (startNano : Z) : state :=
  {| domainName := String.append "." (String.append (GoStrings.TrimDot domain) ".");
     conns := ∅;
     connNextID := wrap64 startNano;
     seenTSCache := Lru.New2Q tsCacheSize;
     ansCache := Lru.New2Q ansCacheSize;
     trace := [] |}.

(** ** [conn.go] *)

(** [(c *conn).updateLast()], on the conn the table holds under [id]. *)
Definition updateLast (id : string) (t : Z) (s : state) : state :=
  match conns s !! id with
  | Some x => emit (EvUpdateLast (c x) t) (set_conns (<[id := set_last t x]> (conns s)) s)
  | None => s
  end.

(** [newConn]: dial, stamp [start], take the next ID, store.  [last]
    keeps its zero value. *)
Definition newConn (e : env) (s : state) : option string * state :=
  match dial e with
  | None => (None, emit (EvDial None) s)
  | Some sock =>
      let x := {| start := now1 e; last := zeroTime; nextFwd := 0;
                  nextRev := 0; c := sock; closed := false |} in
      let id := Strconv.FormatUint36 (connNextID s) in
      let s1 := emit (EvDial (Some sock)) s in
      let s2 := set_connNextID (wrap64 (connNextID s1 + 1)) s1 in
      let s3 := set_conns (<[id := x]> (conns s2)) s2 in
      (Some id, emit (EvLog "New connection") s3)
  end.

(** [getConn]. *)
Definition getConn (id : string) (s : state) : option conn :=
  conns s !! id.

(** [deleteConn]: a no-op for an unknown id; otherwise the conn leaves
    the table and its socket is closed. *)
Definition deleteConn (id : string) (s : state) : state :=
  match conns s !! id with
  | Some x => emit (EvClose (c x)) (set_conns (delete id (conns s)) s)
  | None => s
  end.

(** One iteration of the loop of [pruneConnsSince]. *)
Definition prune_one (marker : Z) (s : state) (kv : string * conn) : state :=
  if last (snd kv) <? marker then
    emit (EvClose (c (snd kv)))
      (set_conns (delete (fst kv) (conns s)) (emit (EvLog "DNS timeout") s))
  else s.

(** [pruneConnsSince]: one sweep over the table. *)
Definition pruneConnsSince (marker : Z) (s : state) : state :=
  fold_left (prune_one marker) (map_to_list (conns s)) s.

(** ** [newconn.go] *)

Definition handleNewConn (e : env) (l : string) (s : state) : result * state :=
  match Strconv.ParseInt10 l with
  | None => (Err "parsing timestamp", s)
  | Some n =>
      let diff := time_Sub n (now0 e) in
      let diff := if diff <? 0 then wrap_int64 (diff * -1) else diff in
      if maxTSOff <? diff then (Err "timestamp difference is too big", s)
      else if Lru.Contains l (seenTSCache s) then (NoReply, s)
      else
        let s1 := set_seenTSCache (Lru.Add l tt (seenTSCache s)) s in
        match newConn e s1 with
        | (None, s2) => (Err "connecting upstream", s2)
        | (Some id, s2) => (Reply (bytes_of id), s2)
        end
  end.

(** ** [forward.go] *)

Definition handleForward (e : env) (ctr payload id : string) (s : state)
  : result * state :=
  match Strconv.ParseUint ctr 36 with
  | None => (Err "unable to parse counter", s)
  | Some cn =>
      match dec (GoStrings.ToUpper payload) with
      | None => (Err "decoding payload", s)
      | Some b =>
          match getConn id s with
          | None => (Err "unknown ID", s)
          | Some x =>
              if negb (cn =? nextFwd x) then (NoReply, s)
              else
                let s1 := set_conns (<[id := incr_nextFwd x]> (conns s)) s in
                let s2 := updateLast id (now0 e) s1 in
                let s3 := emit (EvWrite (c x) b (write_ok e)) s2 in
                if negb (write_ok e)
                then (Err "sending to network", deleteConn id s3)
                else (Reply [], updateLast id (now1 e) s3)
          end
      end
  end.

(** ** [reverse.go] *)

Definition handleReverse (e : env) (ctr id : string) (s : state)
  : result * state :=
  match Strconv.ParseUint ctr 36 with
  | None => (Err "unable to parse counter", s)
  | Some cn =>
      match getConn id s with
      | None => (Err "unknown ID", s)
      | Some x =>
          if negb (cn =? nextRev x) then (NoReply, s)
          else
            let s1 := set_conns (<[id := incr_nextRev x]> (conns s)) s in
            let s2 :=
              emit (EvSetReadDeadline (c x) (now0 e + readWait)
                                      (deadline_ok e)) s1 in
            if negb (deadline_ok e)
            then (Err "setting network read deadline", deleteConn id s2)
            else
              let s3 := updateLast id (now1 e) s2 in
              let buf := take maxTXTLen (read_data e) in
              let n := List.length buf in
              let s4 := emit (EvRead (c x) n (read_err e)) s3 in
              let s5 := updateLast id (now2 e) s4 in
              if negb (n =? 0)%nat then (Reply buf, s5)
              else
                match read_err e with
                | ErrTimeout => (Reply [], s5)
                | ErrOther => (Err "reading from network", s5)
                | ErrNone => (Reply [], s5)
                end
      end
  end.

(** ** [server.go] *)

Definition TypeTXT : Z := 16.
Definition RCodeSuccess : Z := 0.
Definition RCodeNameError : Z := 3.

(** The parts of [dnsmessage.Message] the dispatcher reads and writes.
    [Name] is the text [Name.String()] gives. *)
Record Question : Type := { Name : string; Type_ : Z; Class : Z }.

Record Resource : Type := {
  rName : string; rType : Z; rClass : Z; TXT : list string
}.

Record Message : Type := {
  ID : Z;
  Response : bool;
  Authoritative : bool;
  RCode : Z;
  Questions : list Question;
  Answers : list Resource
}.

(** The deferred function of [handlePacket]: the message sent back. *)
Definition respond (msg : Message) (q : Question) (reply : option string)
  : Message :=
  match reply with
  | Some r =>
      {| ID := ID msg; Response := true; Authoritative := true;
         RCode := RCodeSuccess; Questions := Questions msg;
         Answers := Answers msg ++
           [{| rName := Name q; rType := Type_ q; rClass := Class q;
               TXT := [r] |}] |}
  | None =>
      {| ID := ID msg; Response := true; Authoritative := true;
         RCode := RCodeNameError; Questions := Questions msg;
         Answers := Answers msg |}
  end.

(** The handler a label count selects.  [handlePacket] only gets here
    with one, two or three labels. *)
Definition dispatch (e : env) (labels : list string) (s : state)
  : result * state :=
  match labels with
  | [l0] => handleNewConn e l0 s
  | [l0; l1] => handleReverse e l0 l1 s
  | [l0; l1; l2] => handleForward e l0 l1 l2 s
  | _ => (NoReply, s)
  end.

(** The second half of [handlePacket], after the label count was found
    to be 1, 2 or 3: answer cache, handler, reply.  The first component is
    the response the deferred function rolls; packing and sending it is
    [deliver], below. *)
Definition answer (e : env) (msg : Message) (q : Question) (qn : string)
    (labels : list string) (s : state) : option Message * state :=
  let is2 := (List.length labels =? 2)%nat in
  let '(hit, s0) :=
    if is2 then
      let '(ca, q') := Lru.Get qn (ansCache s) in (ca, set_ansCache q' s)
    else (None, s) in
  match hit with
  | Some ca => (Some (respond msg q (Some ca)), s0)
  | None =>
      match dispatch e labels s0 with
      | (Err _, s1) =>
          (Some (respond msg q None), emit (EvLog "Error") s1)
      | (NoReply, s1) => (Some (respond msg q None), s1)
      | (Reply rb, s1) =>
          let r := Codec.b64_encode rb in
          let s2 :=
            if is2 then set_ansCache (Lru.Add qn r (ansCache s1)) s1
            else s1 in
          (Some (respond msg q (Some r)), s2)
      end
  end.

(** [handlePacket], from the unpacked message on ([None] when [Unpack]
    failed), up to the response the deferred function rolls: the first
    component is that response, nothing when the function returned before
    the [defer].  The deferred function then packs and sends it: see
    [deliver] and [serve]. *)
Definition handlePacket (e : env) (m : option Message) (s : state)
  : option Message * state :=
  match m with
  | None => (None, emit (EvLog "Unpacking packet") s)
  | Some msg =>
      match Questions msg with
      | [q] =>
          if negb (Type_ q =? TypeTXT) then (None, s)
          else if Response msg then (None, emit (EvLog "Response") s)
          else if negb (GoStrings.HasSuffix (Name q) (domainName s))
          then (None, s)
          else
            let qn :=
              GoStrings.ToLower
                (GoStrings.TrimSuffix (Name q) (domainName s)) in
            let labels := GoStrings.SplitDot qn in
            match labels with
            | [_] | [_; _] | [_; _; _] => answer e msg q qn labels s
            | [] =>
                (* logged, not returned from: the second switch panics
                   and the deferred function still answers *)
                (Some (respond msg q None),
                 emit (EvPanic "unpossible number of labels")
                      (emit (EvLog "No labels") s))
            | _ => (None, emit (EvLog "Too many labels") s)
            end
      | _ => (None, emit (EvLog "Multiple questions") s)
      end
  end.

(** The end of the deferred function of [handlePacket]: [msg.Pack()] and
    [pc.WriteTo].  [pack_ok] and [send_ok] tell whether the two work.
    When [Pack] fails the function logs and returns, when [WriteTo] fails
    it logs: either way no message reaches the client. *)
Definition deliver (pack_ok send_ok : bool) (r : option Message * state)
  : option Message * state :=
  match r with
  | (Some m, s) =>
      if negb pack_ok then (None, emit (EvLog "Packing response") s)
      else if negb send_ok then (None, emit (EvLog "Sending response") s)
      else (Some m, s)
  | (None, s) => (None, s)
  end.

(** [handlePacket] as a whole: the message that reaches the client, if
    any, and the state afterwards. *)
Definition serve (pack_ok send_ok : bool) (e : env) (m : option Message)
    (s : state) : option Message * state :=
  deliver pack_ok send_ok (handlePacket e m s).

End Server.

(* ===================================================================== *)
(** * The client pumps *)
(* ===================================================================== *)

Module Client.

(** [client.go] constants.  [pollIncFactor] is 1.5, [pollMin] is
    [time.Nanosecond]. *)
Definition rBufLen : nat := 39.
Definition maxLabelLen : nat := 63.
Definition pollMin : Z := 1.

(** Coders. *)
Definition enc : list byte -> string := Codec.b32_encode.
Definition dec : string -> option (list byte) := Codec.b64_decode.

Record client : Type := {
  fwd : Z;
  rev : Z;
  domain : string;
  pollMax : Z;
  pollCur : Z
}.

(** The client [Client] rolls: only [domain] and [pollMax] are set. *)
Definition new_client (dom : string) (poll : Z) : client :=
  {| fwd := 0; rev := 0; domain := String.append "." (GoStrings.TrimDot dom);
     pollMax := poll; pollCur := 0 |}.

(** [os.Stdin.Read(buf)] with [len(buf) = buflen]: it stores at most
    [buflen] of the bytes standard input has. *)
Definition stdin_Read (buflen : nat) (avail : list byte) : list byte :=
  take buflen avail.

(** One turn of the loop of [proxyForward]: the chunk read and, when it is
    not empty, the name queried (before the domain is appended). *)
Definition proxyForward_query (qn : Z) (avail : list byte)
  : list byte * option string :=
  let chunk := stdin_Read rBufLen avail in
  if (List.length chunk =? 0)%nat then (chunk, None)
  else (chunk, Some (String.append (Strconv.FormatUint36 qn)
                         (String.append "." (enc chunk)))).

(** [time.Duration(float64(d) * pollIncFactor)]: the product with 1.5,
    truncated toward zero.  The [float64] arithmetic is exact for durations
    up to 2^51 nanoseconds; the pump only ever scales 0 and 1. *)
Definition scale_poll (d : Z) : Z := Z.quot (d * 3) 2.

(** [rand.Int63n(n)]: panics unless [0 < n]; otherwise a value below [n],
    drawn here from the random number [r]. *)
Definition Int63n (n r : Z) : option Z :=
  if n <=? 0 then None else Some (r mod n).

(** How one turn of the loop of [proxyBack] ends once the reply is in. *)
Inductive back : Type :=
| BackContinue (c : client)            (* data: poll again at once *)
| BackSleep (c : client) (st : Z)      (* no data: sleep [st] *)
| BackDone                             (* write error: pump ends *)
| BackPanic.                           (* run-time panic *)

Definition set_poll (cur : Z) (c : client) : client :=
  {| fwd := fwd c; rev := rev c; domain := domain c;
     pollMax := pollMax c; pollCur := cur |}.

Definition add_fwd (n : Z) (c : client) : client :=
  {| fwd := wrap64 (fwd c + n); rev := rev c; domain := domain c;
     pollMax := pollMax c; pollCur := pollCur c |}.

Definition add_rev (n : Z) (c : client) : client :=
  {| fwd := fwd c; rev := wrap64 (rev c + n); domain := domain c;
     pollMax := pollMax c; pollCur := pollCur c |}.

(** The loop body of [proxyBack] after a successful [poll] returned [b];
    [stdout_ok] tells whether writing to standard output works and [r]
    is the randomness [rand.Int63n] consumes. *)
Definition proxyBack_turn (c : client) (b : list byte) (stdout_ok : bool)
    (r : Z) : back :=
  if negb (List.length b =? 0)%nat then
    if negb stdout_ok then BackDone
    else BackContinue (set_poll pollMin (add_rev (Z.of_nat (List.length b)) c))
  else
    let cur := scale_poll (pollCur c) in
    let cur := if pollMax c <? cur then pollMax c else cur in
    match Int63n cur r with
    | None => BackPanic
    | Some st => BackSleep (set_poll cur c) st
    end.

(** [net.LookupTXT]: for a name, an error (NXDOMAIN is one) or the TXT
    strings of the answer. *)
Definition resolver : Type := string -> option (list string).

(** [(c *client).query]. *)
Definition query (lookup : resolver) (c : client) (sd : string) : result :=
  match lookup (String.append sd (domain c)) with
  | None => Err "querying"
  | Some [] => NoReply
  | Some [txt] =>
      if (String.length txt =? 0)%nat then Reply []
      else match dec txt with
           | Some b => Reply b
           | None => Err "decoding"
           end
  | Some _ => Err "got several TXT records"
  end.

(** [(c *client).poll]. *)
Definition poll (lookup : resolver) (c : client) (qn : Z) : result :=
  match query lookup c (Strconv.FormatUint36 qn) with
  | Err _ => Err "recv"
  | r => r
  end.

Definition set_domain (d : string) (c : client) : client :=
  {| fwd := fwd c; rev := rev c; domain := d;
     pollMax := pollMax c; pollCur := pollCur c |}.

(** [(c *client).handshake], with the clock reading [now]: the error, if
    any, and the client afterwards. *)
Definition handshake (lookup : resolver) (now : Z) (c : client)
  : option string * client :=
  match query lookup c (Strconv.FormatInt10 now) with
  | Err msg => (Some msg, c)
  | NoReply => (Some "empty ID from server", c)
  | Reply id =>
      if (List.length id =? 0)%nat then (Some "empty ID from server", c)
      else (None,
            set_domain
              (String.append "."
                 (String.append (string_of_list_byte id) (domain c))) c)
  end.

(** The spec's pure function, on durations in nanoseconds. *)
Definition next_interval (cur max : Z) : Z := Z.min (scale_poll cur) max.

End Client.

(* ===================================================================== *)
(** * Auxiliary definitions for the statements *)
(* ===================================================================== *)

Module CodecCheck.
Import Codec.

(** A group survives the trip through an alphabet and its character is not
    a newline. *)
Definition char_ok (alphabet : string) (i : N) : bool :=
  match dec_char alphabet (enc_char alphabet i) with
  | Some j => (j =? i)%N
  | None => false
  end
  && negb (is_newline (enc_char alphabet i)).

(** The base32 alphabet has no lower-case letters, and lower-casing then
    upper-casing one of its characters gives it back. *)
Definition case_ok (i : N) : bool :=
  let ch := enc_char encodeStd32 i in
  Ascii.eqb (GoStrings.upper_ascii ch) ch &&
  Ascii.eqb (GoStrings.upper_ascii (GoStrings.lower_ascii ch)) ch.

End CodecCheck.

Module Run.
Import Server.

(** The events a step added to the trace. *)
Definition emitted (s s' : state) : list event :=
drop (List.length (trace s)) (trace s').

Definition is_write (ev : event) : bool :=
match ev with EvWrite _ _ _ => true | _ => false end.

Definition is_read (ev : event) : bool :=
match ev with EvRead _ _ _ => true | _ => false end.

Definition is_close (ev : event) : bool :=
match ev with EvClose _ => true | _ => false end.

Definition is_panic (ev : event) : bool :=
match ev with EvPanic _ => true | _ => false end.

Definition is_update (sock : nat) (ev : event) : bool :=
match ev with EvUpdateLast k _ => (k =? sock)%nat | _ => false end.

Definition io_sock (ev : event) : option nat :=
match ev with
| EvWrite k _ _ => Some k
| EvRead k _ _ => Some k
| _ => None
end.

(** Every upstream read or write in a run of events has an update of
    [last] of the same socket right before it and right after it. *)
Fixpoint around_io (prev : option event) (evs : list event) : bool :=
match evs with
| [] => true
| ev :: rest =>
    match io_sock ev with
    | Some k =>
        match prev, rest with
        | Some p, n :: _ => is_update k p && is_update k n
        | _, _ => false
        end
    | None => true
    end && around_io (Some ev) rest
end.

(** The state a forward request leaves once it went as far as the write:
    the counter advanced, [last] updated around a successful write, the
    session deleted after a failed one. *)
Definition after_forward (e : env) (id : string) (x : conn) (b : list byte)
    (s : state) : state :=
{| domainName := domainName s;
   conns :=
     if write_ok e
     then <[id := set_last (now1 e) (set_last (now0 e) (incr_nextFwd x))]>
            (conns s)
     else delete id (conns s);
   connNextID := connNextID s;
   seenTSCache := seenTSCache s;
   ansCache := ansCache s;
   trace := trace s ++
     [EvUpdateLast (c x) (now0 e);
      EvWrite (c x) b (write_ok e);
      if write_ok e then EvUpdateLast (c x) (now1 e) else EvClose (c x)] |}.

(** The state a reverse request leaves once it went as far as the read. *)
Definition after_reverse (e : env) (id : string) (x : conn) (s : state)
  : state :=
{| domainName := domainName s;
   conns :=
     <[id := set_last (now2 e) (set_last (now1 e) (incr_nextRev x))]>
       (conns s);
   connNextID := connNextID s;
   seenTSCache := seenTSCache s;
   ansCache := ansCache s;
   trace := trace s ++
     [EvSetReadDeadline (c x) (now0 e + readWait) true;
      EvUpdateLast (c x) (now1 e);
      EvRead (c x) (List.length (take maxTXTLen (read_data e))) (read_err e);
      EvUpdateLast (c x) (now2 e)] |}.

(** The state a reverse request leaves when the deadline cannot be set. *)
Definition after_deadline_error (e : env) (id : string) (x : conn)
    (s : state) : state :=
{| domainName := domainName s;
   conns := delete id (conns s);
   connNextID := connNextID s;
   seenTSCache := seenTSCache s;
   ansCache := ansCache s;
   trace := trace s ++
     [EvSetReadDeadline (c x) (now0 e + readWait) false; EvClose (c x)] |}.

(** What the reverse handler returns after the read. *)
Definition reverse_result (e : env) : result :=
let buf := take maxTXTLen (read_data e) in
if negb (List.length buf =? 0)%nat then Reply buf
else match read_err e with
     | ErrOther => Err "reading from network"
     | _ => Reply []
     end.

(** The conn [newConn] stores. *)
Definition fresh_conn (e : env) (sock : nat) : conn :=
{| start := now1 e; last := zeroTime; nextFwd := 0; nextRev := 0;
   c := sock; closed := false |}.

(** The state a handshake leaves when the timestamp is new and the dial
    worked. *)
Definition after_newconn (e : env) (l : string) (sock : nat) (s : state)
  : state :=
{| domainName := domainName s;
   conns := <[Strconv.FormatUint36 (connNextID s) := fresh_conn e sock]>
              (conns s);
   connNextID := wrap64 (connNextID s + 1);
   seenTSCache := Lru.Add l tt (seenTSCache s);
   ansCache := ansCache s;
   trace := trace s ++ [EvDial (Some sock); EvLog "New connection"] |}.

(** The state a handshake leaves when the timestamp is new and the dial
    failed: the timestamp is remembered all the same. *)
Definition after_dial_error (e : env) (l : string) (s : state) : state :=
{| domainName := domainName s;
   conns := conns s;
   connNextID := connNextID s;
   seenTSCache := Lru.Add l tt (seenTSCache s);
   ansCache := ansCache s;
   trace := trace s ++ [EvDial None] |}.

(** What the server does, one step at a time: the three kinds of requests
    and the sweeps of the pruner. *)
Inductive op : Type :=
| OpNewConn (e : env) (l : string)
| OpForward (e : env) (ctr payload id : string)
| OpReverse (e : env) (ctr id : string)
| OpPrune (marker : Z).

Definition step (o : op) (s : state) : state :=
match o with
| OpNewConn e l => snd (handleNewConn e l s)
| OpForward e ctr payload id => snd (handleForward e ctr payload id s)
| OpReverse e ctr id => snd (handleReverse e ctr id s)
| OpPrune marker => pruneConnsSince marker s
end.

Definition run (ops : list op) (s : state) : state := fold_left (fun s o => step o s) ops s.

Definition counter_of (ctr : string) : list Z :=
match Strconv.ParseUint ctr 36 with
| Some cn => [cn]
| None => []
end.

(** The counter of a forward request for session [id] that wrote to the
    upstream, as a list of at most one element. *)
Definition fwd_written (id : string) (o : op) (s : state) : list Z :=
match o with
| OpForward e ctr payload id' =>
    if String.eqb id' id && existsb is_write (emitted s (step o s))
    then counter_of ctr else []
| _ => []
end.

(** The counter of a reverse request for session [id] that read from the
    upstream. *)
Definition rev_read (id : string) (o : op) (s : state) : list Z :=
match o with
| OpReverse e ctr id' =>
    if String.eqb id' id && existsb is_read (emitted s (step o s))
    then counter_of ctr else []
| _ => []
end.

(** The counters of the requests of a run that caused I/O, in order. *)
Fixpoint fwd_counters (id : string) (ops : list op) (s : state) : list Z :=
match ops with
| [] => []
| o :: r => fwd_written id o s ++ fwd_counters id r (step o s)
end.

Fixpoint rev_counters (id : string) (ops : list op) (s : state) : list Z :=
match ops with
| [] => []
| o :: r => rev_read id o s ++ rev_counters id r (step o s)
end.

(** The list [0, 1, ..., k - 1] of [uint64] counters. *)
Definition counting (k : nat) : list Z :=
List.map (fun i => wrap64 (Z.of_nat i)) (seq 0 k).

(** A handshake that would hand out [id] once more.  The id counter has
    64 bits, so this takes 2^64 handshakes. *)
Definition reissues (id : string) (o : op) (s : state) : bool :=
match o with
| OpNewConn _ _ => String.eqb (Strconv.FormatUint36 (connNextID s)) id
| _ => false
end.

Fixpoint never_reissued (id : string) (ops : list op) (s : state) : bool :=
match ops with
| [] => true
| o :: r => negb (reissues id o s) && never_reissued id r (step o s)
end.

(** A step that does not address session [id]: a request for another
    session, or a handshake that hands out another id. *)
Definition elsewhere (id : string) (o : op) (s : state) : bool :=
match o with
| OpNewConn _ _ => negb (String.eqb (Strconv.FormatUint36 (connNextID s)) id)
| OpForward _ _ _ id' => negb (String.eqb id' id)
| OpReverse _ _ id' => negb (String.eqb id' id)
| OpPrune _ => false
end.

Fixpoint all_elsewhere (id : string) (ops : list op) (s : state) : bool :=
match ops with
| [] => true
| o :: r => elsewhere id o s && all_elsewhere id r (step o s)
end.

(** The next counters of session [id], when it is in the table. *)
Definition fwd_of (id : string) (s : state) : option Z :=
match conns s !! id with
| Some x => Some (nextFwd x)
| None => None
end.

Definition rev_of (id : string) (s : state) : option Z :=
match conns s !! id with
| Some x => Some (nextRev x)
| None => None
end.

(** What one turn of the loop of [pruneConnsSince] does to the trace. *)
Definition prune_events (marker : Z) (kv : string * conn) : list event :=
if last (snd kv) <? marker
then [EvLog "DNS timeout"; EvClose (c (snd kv))]
else [].

(** A sweep meets the entry of [id] and finds it idle. *)
Definition idle_at (marker : Z) (id : string) (kv : string * conn) : bool :=
String.eqb (fst kv) id && (last (snd kv) <? marker).

(** The labels the dispatcher works with for a question. *)
Definition labels_of (s : state) (q : Question) : list string :=
GoStrings.SplitDot
  (GoStrings.ToLower (GoStrings.TrimSuffix (Name q) (domainName s))).

Definition qname_of (s : state) (q : Question) : string :=
GoStrings.ToLower (GoStrings.TrimSuffix (Name q) (domainName s)).

(** The timestamp [n] is within [maxTSOff] of the clock reading [now]. *)
Definition in_window (n now : Z) : Prop := Z.abs (n - now) <= maxTSOff.

End Run.

Module ClientRun.
Import Client.

(** The clients the reverse pump can get to from [c0], one reply at a
    time. *)
Inductive reaches (c0 : client) : client -> Prop :=
| reaches_start : reaches c0 c0
| reaches_data (c1 c2 : client) (b : list byte) (r : Z) :
    reaches c0 c1 -> proxyBack_turn c1 b true r = BackContinue c2 ->
    reaches c0 c2
| reaches_idle (c1 c2 : client) (b : list byte) (ok : bool) (r st : Z) :
    reaches c0 c1 -> proxyBack_turn c1 b ok r = BackSleep c2 st ->
    reaches c0 c2.

(** The default of the [-poll-max] flag: five seconds. *)
Definition default_pollMax : Z := 5 * 10 ^ 9.

(** The loop of [proxyBack] over the replies of successive polls, each
    with the randomness of its turn, standard output working: the client
    when the replies are used up, nothing when a turn panics. *)
Fixpoint proxyBack_run (c : client) (turns : list (list byte * Z))
  : option client :=
match turns with
| [] => Some c
| (b, r) :: rest =>
    match proxyBack_turn c b true r with
    | BackContinue c' => proxyBack_run c' rest
    | BackSleep c' _ => proxyBack_run c' rest
    | BackDone => Some c
    | BackPanic => None
    end
end.

(** The bytes the replies carry. *)
Definition payload_of (turns : list (list byte * Z)) : list byte :=
List.concat (List.map fst turns).

End ClientRun.

(** The two ends, joined by the resolver. *)
Module Wire.
Import Server.

(** What [net.LookupTXT] makes of the response [m] ([None]: none came):
    an error without a response or with a response code other than
    success, else the strings of each TXT record joined into one. *)
Definition txts_of (m : option Message) : option (list string) :=
match m with
| None => None
| Some r =>
    if RCode r =? RCodeSuccess
    then Some (List.map (fun a => String.concat "" (TXT a)) (Answers r))
    else None
end.

(** The query a resolver sends for [name]: one TXT question for the name
    made absolute. *)
Definition ask (name : string) : Message :=
{| ID := 0; Response := false; Authoritative := false; RCode := 0;
   Questions := [{| Name := String.append name "."; Type_ := TypeTXT;
                    Class := 1 |}];
   Answers := [] |}.

(** The bytes the events say were written to socket [sock] without an
    error, in order. *)
Definition written (sock : nat) (evs : list event) : list byte :=
flat_map (fun ev => match ev with
                    | EvWrite k b true => if (k =? sock)%nat then b else []
                    | _ => []
                    end) evs.

(** The loop of [proxyForward] with each query taken straight to the
    server.  A turn has the upstream of the moment and the number of
    bytes standard input has ready; the result is the client, its
    counter, the input not yet read and the server when the turns are
    used up or a query failed. *)
Fixpoint proxyForward_run (turns : list (env * nat)) (c : Client.client)
    (qn : Z) (input : list byte) (s : state)
  : Client.client * Z * list byte * state :=
match turns with
| [] => (c, qn, input, s)
| (e, ready) :: rest =>
    match Client.proxyForward_query qn (take ready input) with
    | (_, None) => proxyForward_run rest c qn input s
    | (chunk, Some sd) =>
        let '(m, s') :=
          handlePacket e
            (Some (ask (String.append sd (Client.domain c)))) s in
        match Client.query (fun _ => txts_of m) c sd with
        | Err _ => (c, qn, drop (List.length chunk) input, s')
        | _ =>
            proxyForward_run rest
              (Client.add_fwd (Z.of_nat (List.length chunk)) c)
              (wrap64 (qn + 1)) (drop (List.length chunk) input) s'
        end
    end
end.

End Wire.

(** Concrete inputs for the examples. *)
Module Sample.
Import Server.

Definition ts : string := "1700000000000000000".

Definition env_ok : env :=
{| now0 := 1700000000000000000; now1 := 1700000000000000001;
   now2 := 1700000000000000002; dial := Some 7%nat; write_ok := true;
   deadline_ok := true; read_data := bytes_of "world";
   read_err := ErrNone |}.

(** The upstream fails: writes return an error, reads return no bytes and
    [io.EOF]. *)
Definition env_broken : env :=
{| now0 := 1700000000000000010; now1 := 1700000000000000011;
   now2 := 1700000000000000012; dial := None; write_ok := false;
   deadline_ok := true; read_data := []; read_err := ErrOther |}.

(** The upstream delivers its last bytes together with [io.EOF]. *)
Definition env_last : env :=
{| now0 := 1700000000000000020; now1 := 1700000000000000021;
   now2 := 1700000000000000022; dial := Some 9%nat; write_ok := true;
   deadline_ok := true; read_data := bytes_of "bye";
   read_err := ErrOther |}.

(** The same requests, twenty-five hours later. *)
Definition env_late : env :=
{| now0 := 1700000000000000000 + 25 * time_Hour;
   now1 := 1700000000000000001 + 25 * time_Hour;
   now2 := 1700000000000000002 + 25 * time_Hour;
   dial := Some 8%nat; write_ok := true; deadline_ok := true;
   read_data := []; read_err := ErrTimeout |}.

(** A server for [example.com] and the same server after one handshake. *)
Definition s0 : state := init "example.com" 1648240942101289254.

Definition id1 : string := Strconv.FormatUint36 (connNextID s0).

Definition x1 : conn := Run.fresh_conn env_ok 7.

Definition s1 : state := Run.after_newconn env_ok ts 7 s0.

Definition query (name : string) : Message :=
{| ID := 4242; Response := false; Authoritative := false; RCode := 0;
   Questions := [{| Name := name; Type_ := TypeTXT; Class := 1 |}];
   Answers := [] |}.

Definition question (name : string) : Question :=
{| Name := name; Type_ := TypeTXT; Class := 1 |}.

(** A run on the sample session: a request out of order, the two requests
    in order, a duplicate, polls in between and the handshake of another
    client. *)
Definition ops1 : list Run.op :=
[ Run.OpForward env_ok "5" "aa" id1;
  Run.OpForward env_ok "0" "nbswy3dp" id1;
  Run.OpReverse env_ok "0" id1;
  Run.OpNewConn env_late "1700090000000000000";
  Run.OpForward env_ok "0" "nbswy3dp" id1;
  Run.OpReverse env_ok "0" id1;
  Run.OpForward env_ok "1" "aa" id1;
  Run.OpReverse env_ok "1" id1 ].

(** A poll and a data query for the sample session, and the server after
    it answered the poll. *)
Definition poll_name : string := "0.cit8nfnj3h9i.example.com.".

Definition data_name : string := "0.nbswy3dp.cit8nfnj3h9i.example.com.".

Definition s2 : state :=
snd (handlePacket env_ok (Some (query poll_name)) s1).

(** A resolver that takes every name straight to the server in state [s]
    and environment [e]. *)
Definition resolver_at (e : env) (s : state) : Client.resolver :=
fun name =>
  Wire.txts_of (fst (handlePacket e (Some (query (String.append name "."))) s)).

(** The client for [example.com], before and after its handshake, and
    once the pump has seen data. *)
Definition c0 : Client.client := Client.new_client "example.com" 5000000000.

Definition c1 : Client.client :=
Client.set_domain ".cit8nfnj3h9i.example.com" c0.

Definition c2 : Client.client := Client.set_poll Client.pollMin c1.

End Sample.

(** Predicates on the characters of a label. *)
Module LabelCheck.

(** A character that is neither a dot nor changed by lower-casing. *)
Definition plain_char (ch : ascii) : bool :=
negb (Ascii.eqb ch "."%char) && Ascii.eqb (GoStrings.lower_ascii ch) ch.

Fixpoint plain (s : string) : bool :=
match s with
| EmptyString => true
| String ch r => plain_char ch && plain r
end.

(** A character that is not a dot. *)
Fixpoint dotless (s : string) : bool :=
match s with
| EmptyString => true
| String ch r => negb (Ascii.eqb ch "."%char) && dotless r
end.

(** All bytes are below 128. *)
Fixpoint is_ascii (s : string) : bool :=
match s with
| EmptyString => true
| String ch r => (N_of_ascii ch <? 128)%N && is_ascii r
end.

(** A digit round trip, and the digit is a plain character. *)
Definition digit_ok (d : Z) : bool :=
match Strconv.digit_val (Strconv.digit_char d) with
| Some d' => d' =? d
| None => false
end && plain_char (Strconv.digit_char d).

(** A character of the base32 alphabet, lower-cased, is not a dot. *)
Definition payload_char_ok (i : N) : bool :=
negb (Ascii.eqb (GoStrings.lower_ascii (Codec.enc_char Codec.encodeStd32 i))
                "."%char).

(** A digit is not a sign. *)
Definition digit_unsigned (d : Z) : bool :=
negb (Ascii.eqb (Strconv.digit_char d) "+"%char) &&
negb (Ascii.eqb (Strconv.digit_char d) "-"%char).

End LabelCheck.

(* ===================================================================== *)
(** * Facts about the coders *)
(* ===================================================================== *)

Section ListInduction.

Context {A : Type} (P : list A -> Prop).

(** Induction five elements at a time, as the base32 encoder walks. *)
Lemma list_ind_by5 :
  P [] -> (forall a, P [a]) -> (forall a b, P [a; b]) ->
  (forall a b c, P [a; b; c]) -> (forall a b c d, P [a; b; c; d]) ->
  (forall a b c d e r, P r -> P (a :: b :: c :: d :: e :: r)) ->
  forall l, P l.
Proof.
  intros H0 H1 H2 H3 H4 H5. fix IH 1.
  intros [|a [|b [|c [|d [|e r]]]]];
    [apply H0|apply H1|apply H2|apply H3|apply H4|apply H5, IH].
Qed.

(** Induction three elements at a time, as the base64 encoder walks. *)
Lemma list_ind_by3 :
  P [] -> (forall a, P [a]) -> (forall a b, P [a; b]) ->
  (forall a b c r, P r -> P (a :: b :: c :: r)) ->
  forall l, P l.
Proof.
  intros H0 H1 H2 H3. fix IH 1.
  intros [|a [|b [|c r]]]; [apply H0|apply H1|apply H2|apply H3, IH].
Qed.

End ListInduction.

Module CodecFacts.
Import Codec CodecCheck.

Lemma mkbyte_bit (b : byte) :
  mkbyte (bit b 7) (bit b 6) (bit b 5) (bit b 4)
         (bit b 3) (bit b 2) (bit b 1) (bit b 0) = b.
Proof. destruct b; reflexivity. Qed.

Lemma bit_x00 (k : N) : bit x00 k = false.
Proof. reflexivity. Qed.

Lemma idx5_bits (a b c d e : bool) :
  N.testbit (idx5 a b c d e) 4 = a /\ N.testbit (idx5 a b c d e) 3 = b /\
  N.testbit (idx5 a b c d e) 2 = c /\ N.testbit (idx5 a b c d e) 1 = d /\
  N.testbit (idx5 a b c d e) 0 = e.
Proof. destruct a, b, c, d, e; repeat split. Qed.

Lemma idx6_bits (a b c d e f : bool) :
  N.testbit (idx6 a b c d e f) 5 = a /\ N.testbit (idx6 a b c d e f) 4 = b /\
  N.testbit (idx6 a b c d e f) 3 = c /\ N.testbit (idx6 a b c d e f) 2 = d /\
  N.testbit (idx6 a b c d e f) 1 = e /\ N.testbit (idx6 a b c d e f) 0 = f.
Proof. destruct a, b, c, d, e, f; repeat split. Qed.

Lemma idx5_lt (a b c d e : bool) : (idx5 a b c d e < 32)%N.
Proof. destruct a, b, c, d, e; reflexivity. Qed.

Lemma idx6_lt (a b c d e f : bool) : (idx6 a b c d e f < 64)%N.
Proof. destruct a, b, c, d, e, f; reflexivity. Qed.

(** Every number below a bound is one of the first numbers. *)
Lemma below_in (n : nat) (i : N) :
  (i < N.of_nat n)%N -> In i (List.map N.of_nat (seq 0 n)).
Proof.
  intros H. apply in_map_iff. exists (N.to_nat i). split; [lia|].
  apply in_seq. lia.
Qed.

(** A property of one group checked on the whole alphabet. *)
Lemma all_below (n : nat) (Q : N -> bool) :
  forallb Q (List.map N.of_nat (seq 0 n)) = true ->
  forall i, (i < N.of_nat n)%N -> Q i = true.
Proof.
  intros H i Hi. rewrite forallb_forall in H. apply H, below_in, Hi.
Qed.

Lemma char_ok32 (i : N) : (i < 32)%N -> char_ok encodeStd32 i = true.
Proof. apply (all_below 32). vm_compute. reflexivity. Qed.

Lemma char_ok64 (i : N) : (i < 64)%N -> char_ok encodeStd64 i = true.
Proof. apply (all_below 64). vm_compute. reflexivity. Qed.

Lemma case_ok32 (i : N) : (i < 32)%N -> case_ok i = true.
Proof. apply (all_below 32). vm_compute. reflexivity. Qed.

Section Alphabet.

Variable alphabet : string.
Variable bound : N.
Hypothesis Hok : forall i, (i < bound)%N -> char_ok alphabet i = true.

Lemma stripNewlines_chars (l : list N) :
  Forall (fun i => (i < bound)%N) l ->
  stripNewlines (chars_of alphabet l) = chars_of alphabet l.
Proof.
  induction 1 as [|i l Hi _ IH]; [reflexivity|].
  unfold chars_of in *. cbn [List.map string_of_list_ascii stripNewlines].
  apply Hok in Hi. unfold char_ok in Hi.
  apply andb_prop in Hi as [_ Hn]. apply negb_true_iff in Hn.
  rewrite Hn, IH. reflexivity.
Qed.

Lemma dec_chars_chars (l : list N) :
  Forall (fun i => (i < bound)%N) l ->
  dec_chars alphabet (chars_of alphabet l) = Some l.
Proof.
  induction 1 as [|i l Hi _ IH]; [reflexivity|].
  unfold chars_of in *. cbn [List.map string_of_list_ascii dec_chars].
  apply Hok in Hi. unfold char_ok in Hi.
  apply andb_prop in Hi as [Hd _].
  destruct (dec_char alphabet (enc_char alphabet i)) as [j|];
    [|discriminate].
  apply N.eqb_eq in Hd. subst j. rewrite IH. reflexivity.
Qed.

End Alphabet.

Lemma length_chars_of (alphabet : string) (l : list N) :
  String.length (chars_of alphabet l) = List.length l.
Proof.
  induction l as [|i l IH]; [reflexivity|].
  unfold chars_of in *. cbn. rewrite IH. reflexivity.
Qed.

Lemma ToUpper_chars32 (l : list N) :
  Forall (fun i => (i < 32)%N) l ->
  GoStrings.ToUpper (chars_of encodeStd32 l) = chars_of encodeStd32 l /\
  GoStrings.ToUpper (GoStrings.ToLower (chars_of encodeStd32 l))
  = chars_of encodeStd32 l.
Proof.
  induction 1 as [|i l Hi _ [IH1 IH2]]; [split; reflexivity|].
  unfold chars_of in *.
  cbn [List.map string_of_list_ascii GoStrings.ToUpper GoStrings.ToLower].
  apply case_ok32 in Hi. unfold case_ok in Hi.
  apply andb_prop in Hi as [H1 H2].
  apply Ascii.eqb_eq in H1, H2. rewrite H1, H2, IH1, IH2. split; reflexivity.
Qed.

(** ** base32 *)

Lemma b32_block_lt (b0 b1 b2 b3 b4 : byte) :
  Forall (fun i => (i < 32)%N) (b32_block b0 b1 b2 b3 b4).
Proof. unfold b32_block. repeat constructor; apply idx5_lt. Qed.

Lemma Forall_take_lt {A} (Q : A -> Prop) (n : nat) (l : list A) :
  Forall Q l -> Forall Q (take n l).
Proof. apply Forall_take. Qed.

Lemma b32_groups_lt (src : list byte) :
  Forall (fun i => (i < 32)%N) (b32_groups src).
Proof.
  induction src as [| | | | |b0 b1 b2 b3 b4 r IH] using list_ind_by5;
    try (cbn [b32_groups]; apply Forall_take_lt, b32_block_lt).
  - constructor.
  - cbn [b32_groups]. apply Forall_app. split; [apply b32_block_lt|exact IH].
Qed.

Ltac bits_back :=
  repeat match goal with
  | |- context [N.testbit (idx5 ?a ?b ?c ?d ?e) _] =>
      let H := fresh in
      pose proof (idx5_bits a b c d e) as H;
      destruct H as (-> & -> & -> & -> & ->)
  | |- context [N.testbit (idx6 ?a ?b ?c ?d ?e ?f) _] =>
      let H := fresh in
      pose proof (idx6_bits a b c d e f) as H;
      destruct H as (-> & -> & -> & -> & -> & ->)
  end;
  rewrite ?mkbyte_bit.

Lemma b32_unblock_block (b0 b1 b2 b3 b4 : byte) :
  match b32_block b0 b1 b2 b3 b4 with
  | [i0; i1; i2; i3; i4; i5; i6; i7] =>
      b32_unblock i0 i1 i2 i3 i4 i5 i6 i7
  | _ => []
  end = [b0; b1; b2; b3; b4].
Proof. unfold b32_block, b32_unblock. bits_back. reflexivity. Qed.

Lemma b32_ungroups_groups (src : list byte) :
  b32_ungroups (b32_groups src) = src.
Proof.
  induction src as [| b0 | b0 b1 | b0 b1 b2 | b0 b1 b2 b3
                    | b0 b1 b2 b3 b4 r IH] using list_ind_by5.
  - reflexivity.
  - unfold b32_groups, b32_block, take, b32_ungroups, b32_unblock.
    rewrite ?N.bits_0. bits_back. reflexivity.
  - unfold b32_groups, b32_block, take, b32_ungroups, b32_unblock.
    rewrite ?N.bits_0. bits_back. reflexivity.
  - unfold b32_groups, b32_block, take, b32_ungroups, b32_unblock.
    rewrite ?N.bits_0. bits_back. reflexivity.
  - unfold b32_groups, b32_block, take, b32_ungroups, b32_unblock.
    rewrite ?N.bits_0. bits_back. reflexivity.
  - pose proof (b32_unblock_block b0 b1 b2 b3 b4) as Hb.
    cbn [b32_groups]. unfold b32_block in *.
    cbn [app b32_ungroups]. fold b32_ungroups.
    rewrite Hb, IH. reflexivity.
Qed.

Lemma b32_groups_length (src : list byte) :
  Z.of_nat (List.length (b32_groups src))
  = b32_EncodedLen (Z.of_nat (List.length src)).
Proof.
  unfold b32_EncodedLen.
  induction src as [| | | | |b0 b1 b2 b3 b4 r IH] using list_ind_by5;
    try reflexivity.
  cbn [b32_groups]. rewrite length_app.
  change (List.length (b32_block b0 b1 b2 b3 b4)) with 8%nat.
  cbn [List.length].
  rewrite Nat2Z.inj_add, IH.
  rewrite !Nat2Z.inj_succ.
  generalize (Z.of_nat (List.length r)). intros n.
  Z.div_mod_to_equations. lia.
Qed.

Lemma b32_encode_length (src : list byte) :
  Z.of_nat (String.length (b32_encode src))
  = b32_EncodedLen (Z.of_nat (List.length src)).
Proof.
  unfold b32_encode. rewrite length_chars_of. apply b32_groups_length.
Qed.

(** Decoding what the encoder wrote, also after the label went through
    the dispatcher's [ToLower] and the handler's [ToUpper]. *)
Lemma b32_roundtrip (p : list byte) :
  b32_decode (GoStrings.ToUpper (b32_encode p)) = Some p /\
  b32_decode (GoStrings.ToUpper (GoStrings.ToLower (b32_encode p)))
  = Some p.
Proof.
  pose proof (b32_groups_lt p) as Hlt.
  destruct (ToUpper_chars32 _ Hlt) as [H1 H2].
  unfold b32_encode. rewrite H1, H2. unfold b32_decode.
  rewrite (stripNewlines_chars _ 32%N char_ok32 _ Hlt).
  rewrite (dec_chars_chars _ 32%N char_ok32 _ Hlt).
  rewrite b32_ungroups_groups. split; reflexivity.
Qed.

(** ** base64 *)

Lemma b64_block_lt (b0 b1 b2 : byte) :
  Forall (fun i => (i < 64)%N) (b64_block b0 b1 b2).
Proof. unfold b64_block. repeat constructor; apply idx6_lt. Qed.

Lemma b64_groups_lt (src : list byte) :
  Forall (fun i => (i < 64)%N) (b64_groups src).
Proof.
  induction src as [| | |b0 b1 b2 r IH] using list_ind_by3;
    try (cbn [b64_groups]; apply Forall_take_lt, b64_block_lt).
  - constructor.
  - cbn [b64_groups]. apply Forall_app. split; [apply b64_block_lt|exact IH].
Qed.

Lemma b64_ungroups_groups (src : list byte) :
  b64_ungroups (b64_groups src) = Some src.
Proof.
  induction src as [| b0 | b0 b1 | b0 b1 b2 r IH] using list_ind_by3.
  - reflexivity.
  - unfold b64_groups, b64_block, take, b64_ungroups, b64_unblock.
    rewrite ?N.bits_0. bits_back. reflexivity.
  - unfold b64_groups, b64_block, take, b64_ungroups, b64_unblock.
    rewrite ?N.bits_0. bits_back. reflexivity.
  - cbn [b64_groups]. unfold b64_block.
    cbn [app b64_ungroups]. fold b64_ungroups.
    rewrite IH. unfold b64_unblock. bits_back. reflexivity.
Qed.

Lemma b64_encode_length (src : list byte) :
  Z.of_nat (String.length (b64_encode src))
  = b64_EncodedLen (Z.of_nat (List.length src)).
Proof.
  unfold b64_encode, b64_EncodedLen. rewrite length_chars_of.
  induction src as [| | |b0 b1 b2 r IH] using list_ind_by3; try reflexivity.
  cbn [b64_groups]. rewrite length_app.
  change (List.length (b64_block b0 b1 b2)) with 4%nat.
  cbn [List.length].
  rewrite Nat2Z.inj_add, IH.
  rewrite !Nat2Z.inj_succ.
  generalize (Z.of_nat (List.length r)). intros n.
  Z.div_mod_to_equations. lia.
Qed.

Lemma b64_roundtrip (q : list byte) :
  b64_decode (b64_encode q) = Some q.
Proof.
  pose proof (b64_groups_lt q) as Hlt.
  unfold b64_encode, b64_decode.
  rewrite (stripNewlines_chars _ 64%N char_ok64 _ Hlt).
  rewrite (dec_chars_chars _ 64%N char_ok64 _ Hlt).
  apply b64_ungroups_groups.
Qed.

End CodecFacts.

(* ===================================================================== *)
(** * Facts about the string functions *)
(* ===================================================================== *)

Module StringFacts.
Import GoStrings.

Lemma append_cons (ch : ascii) (p s : string) :
  String.append (String ch p) s = String ch (String.append p s).
Proof. reflexivity. Qed.

Lemma length_app_string (p s : string) :
  String.length (String.append p s) = (String.length p + String.length s)%nat.
Proof.
  induction p as [|ch p IH]; [reflexivity|].
  rewrite append_cons. cbn [String.length Nat.add]. f_equal. exact IH.
Qed.

Lemma substring_all (s : string) : substring 0 (String.length s) s = s.
Proof.
  induction s as [|ch s IH]; [reflexivity|].
  cbn [String.length substring]. f_equal. exact IH.
Qed.

Lemma substring_skip (p s : string) :
  substring (String.length p) (String.length s) (String.append p s) = s.
Proof.
  induction p as [|ch p IH]; [apply substring_all|].
  rewrite append_cons. cbn [String.length substring]. exact IH.
Qed.

Lemma substring_split (s : string) :
  forall k, (k <= String.length s)%nat ->
            s = String.append (substring 0 k s)
                              (substring k (String.length s - k) s).
Proof.
  induction s as [|ch s IH]; intros k Hk.
  - cbn in Hk. assert (k = 0)%nat as -> by lia. reflexivity.
  - destruct k as [|k].
    + rewrite Nat.sub_0_r, substring_all. reflexivity.
    + cbn in Hk. cbn [substring String.length Nat.sub].
      rewrite append_cons, <- IH by lia. reflexivity.
Qed.

(** [HasSuffix] is the byte-for-byte "ends with". *)
Lemma HasSuffix_spec (s suffix : string) :
  HasSuffix s suffix = true <-> exists p, s = String.append p suffix.
Proof.
  unfold HasSuffix. split.
  - intros H. apply andb_prop in H as [Hlen Heq].
    apply Nat.leb_le in Hlen. apply String.eqb_eq in Heq.
    exists (substring 0 (String.length s - String.length suffix) s).
    pose proof (substring_split s (String.length s - String.length suffix))
      as Hsplit.
    replace (String.length s - (String.length s - String.length suffix))%nat
      with (String.length suffix) in Hsplit by lia.
    rewrite Heq in Hsplit. apply Hsplit. lia.
  - intros [p ->]. rewrite length_app_string.
    apply andb_true_intro. split; [apply Nat.leb_le; lia|].
    replace (String.length p + String.length suffix - String.length suffix)%nat
      with (String.length p) by lia.
    rewrite substring_skip. apply String.eqb_refl.
Qed.

(** Upper-casing does not see whether the text was lower-cased before. *)
Lemma upper_lower_ascii (ch : ascii) :
  upper_ascii (lower_ascii ch) = upper_ascii ch.
Proof. destruct ch as [[] [] [] [] [] [] [] []]; reflexivity. Qed.

Lemma ToUpper_ToLower (s : string) : ToUpper (ToLower s) = ToUpper s.
Proof.
  induction s as [|ch r IH]; [reflexivity|].
  cbn [ToLower ToUpper]. rewrite upper_lower_ascii, IH. reflexivity.
Qed.

Lemma append_assoc (a b c : string) :
  String.append (String.append a b) c = String.append a (String.append b c).
Proof.
  induction a as [|ch a IH]; [reflexivity|].
  rewrite !append_cons, IH. reflexivity.
Qed.

Lemma append_nil_r (a : string) : String.append a EmptyString = a.
Proof.
  induction a as [|ch a IH]; [reflexivity|]. rewrite append_cons, IH.
  reflexivity.
Qed.

Lemma substring_prefix (p s : string) :
  substring 0 (String.length p) (String.append p s) = p.
Proof.
  induction p as [|ch p IH].
  - cbn [String.length]. destruct (String.append EmptyString s); reflexivity.
  - rewrite append_cons. cbn [String.length substring]. rewrite IH.
    reflexivity.
Qed.

(** [TrimSuffix] takes off what [HasSuffix] found. *)
Lemma HasSuffix_app (p suffix : string) :
  HasSuffix (String.append p suffix) suffix = true.
Proof. apply HasSuffix_spec. exists p. reflexivity. Qed.

Lemma TrimSuffix_app (p suffix : string) :
  TrimSuffix (String.append p suffix) suffix = p.
Proof.
  unfold TrimSuffix. rewrite HasSuffix_app, length_app_string.
  replace (String.length p + String.length suffix - String.length suffix)%nat
    with (String.length p) by lia.
  apply substring_prefix.
Qed.

Lemma ToLower_app (a b : string) :
  ToLower (String.append a b) = String.append (ToLower a) (ToLower b).
Proof.
  induction a as [|ch a IH]; [reflexivity|].
  rewrite append_cons. cbn [ToLower]. rewrite append_cons, IH. reflexivity.
Qed.

(** Splitting at dots. *)
Lemma SplitDot_dotless (a : string) :
  LabelCheck.dotless a = true -> SplitDot a = [a].
Proof.
  induction a as [|ch a IH]; [reflexivity|].
  cbn [LabelCheck.dotless SplitDot]. intros H.
  apply andb_prop in H as [Hch Ha]. apply negb_true_iff in Hch.
  rewrite Hch, (IH Ha). reflexivity.
Qed.

Lemma SplitDot_app_dot (a r : string) :
  LabelCheck.dotless a = true ->
  SplitDot (String.append a (String "."%char r)) = a :: SplitDot r.
Proof.
  induction a as [|ch a IH]; intros H.
  - reflexivity.
  - cbn [LabelCheck.dotless] in H. apply andb_prop in H as [Hch Ha].
    apply negb_true_iff in Hch.
    rewrite append_cons. cbn [SplitDot]. rewrite Hch, (IH Ha). reflexivity.
Qed.

Lemma plain_dotless (s : string) :
  LabelCheck.plain s = true -> LabelCheck.dotless s = true.
Proof.
  induction s as [|ch s IH]; [reflexivity|].
  cbn [LabelCheck.plain LabelCheck.dotless]. unfold LabelCheck.plain_char.
  intros H. apply andb_prop in H as [Hch Hs].
  apply andb_prop in Hch as [Hdot _]. rewrite Hdot, (IH Hs). reflexivity.
Qed.

Lemma plain_ToLower (s : string) :
  LabelCheck.plain s = true -> ToLower s = s.
Proof.
  induction s as [|ch s IH]; [reflexivity|].
  cbn [LabelCheck.plain ToLower]. unfold LabelCheck.plain_char.
  intros H. apply andb_prop in H as [Hch Hs].
  apply andb_prop in Hch as [_ Hlow]. apply Ascii.eqb_eq in Hlow.
  rewrite Hlow, (IH Hs). reflexivity.
Qed.

Lemma lower_ascii_dot (ch : ascii) :
  Ascii.eqb (lower_ascii ch) "."%char = Ascii.eqb ch "."%char.
Proof. destruct ch as [[] [] [] [] [] [] [] []]; reflexivity. Qed.

Lemma dotless_ToLower (s : string) :
  LabelCheck.dotless (ToLower s) = LabelCheck.dotless s.
Proof.
  induction s as [|ch s IH]; [reflexivity|].
  cbn [ToLower LabelCheck.dotless]. rewrite lower_ascii_dot, IH. reflexivity.
Qed.

Lemma plain_app (a b : string) :
  LabelCheck.plain (String.append a b)
  = LabelCheck.plain a && LabelCheck.plain b.
Proof.
  induction a as [|ch a IH]; [reflexivity|].
  rewrite append_cons. cbn [LabelCheck.plain]. rewrite IH.
  rewrite andb_assoc. reflexivity.
Qed.

Lemma lower_ascii_idem (ch : ascii) :
  lower_ascii (lower_ascii ch) = lower_ascii ch.
Proof. destruct ch as [[] [] [] [] [] [] [] []]; reflexivity. Qed.

Lemma ToLower_idem (s : string) : ToLower (ToLower s) = ToLower s.
Proof.
  induction s as [|ch s IH]; [reflexivity|].
  cbn [ToLower]. rewrite lower_ascii_idem, IH. reflexivity.
Qed.

(** ** Trimming dots *)

Lemma TrimRightDot_dot (r : string) :
  TrimRightDot (String.append r ".") = TrimRightDot r.
Proof.
  induction r as [|ch r IH]; [reflexivity|].
  rewrite append_cons. cbn [TrimRightDot]. rewrite IH. reflexivity.
Qed.

Lemma TrimLeftDot_dot (d : string) :
  TrimLeftDot (String.append d ".") = String.append (TrimLeftDot d) "." \/
  (TrimLeftDot d = EmptyString /\
   TrimLeftDot (String.append d ".") = EmptyString).
Proof.
  induction d as [|ch d IH]; [right; split; reflexivity|].
  rewrite append_cons. cbn [TrimLeftDot].
  destruct (Ascii.eqb ch "."%char); [exact IH|].
  left. rewrite append_cons. reflexivity.
Qed.

Lemma TrimDot_dot_r (d : string) : TrimDot (String.append d ".") = TrimDot d.
Proof.
  unfold TrimDot. destruct (TrimLeftDot_dot d) as [H|[H1 H2]].
  - rewrite H. apply TrimRightDot_dot.
  - rewrite H1, H2. reflexivity.
Qed.

Lemma TrimDot_dot_l (d : string) : TrimDot (String "."%char d) = TrimDot d.
Proof. reflexivity. Qed.

Lemma TrimLeftDot_length (s : string) :
  (String.length (TrimLeftDot s) <= String.length s)%nat.
Proof.
  induction s as [|ch s IH]; [reflexivity|].
  cbn [TrimLeftDot]. destruct (Ascii.eqb ch "."%char);
    cbn [String.length]; lia.
Qed.

Lemma TrimLeftDot_idem (s : string) :
  TrimLeftDot (TrimLeftDot s) = TrimLeftDot s.
Proof.
  induction s as [|ch s IH]; [reflexivity|].
  cbn [TrimLeftDot]. destruct (Ascii.eqb ch "."%char) eqn:Hch; [exact IH|].
  cbn [TrimLeftDot]. rewrite Hch. reflexivity.
Qed.

Lemma TrimRightDot_idem (s : string) :
  TrimRightDot (TrimRightDot s) = TrimRightDot s.
Proof.
  induction s as [|ch s IH]; [reflexivity|].
  cbn [TrimRightDot].
  destruct (TrimRightDot s) as [|ch' r'] eqn:Hr.
  - destruct (Ascii.eqb ch "."%char) eqn:Hch; [reflexivity|].
    cbn [TrimRightDot]. rewrite Hch. reflexivity.
  - change (TrimRightDot (String ch (String ch' r')))
      with (match TrimRightDot (String ch' r') with
            | EmptyString =>
                if Ascii.eqb ch "."%char then EmptyString
                else String ch EmptyString
            | String a b => String ch (String a b)
            end).
    rewrite IH. reflexivity.
Qed.

Lemma TrimLeftDot_TrimRightDot (s : string) :
  TrimLeftDot s = s -> TrimLeftDot (TrimRightDot s) = TrimRightDot s.
Proof.
  destruct s as [|ch s]; [reflexivity|].
  cbn [TrimLeftDot]. destruct (Ascii.eqb ch "."%char) eqn:Hch.
  - intros H. pose proof (TrimLeftDot_length s) as Hl. rewrite H in Hl.
    cbn [String.length] in Hl. lia.
  - intros _. cbn [TrimRightDot].
    destruct (TrimRightDot s) as [|ch' r'].
    + rewrite Hch. cbn [TrimLeftDot]. rewrite Hch. reflexivity.
    + cbn [TrimLeftDot]. rewrite Hch. reflexivity.
Qed.

(** What [strings.Trim] returned has no dot left at either end. *)
Lemma TrimDot_trimmed (d : string) :
  TrimLeftDot (TrimDot d) = TrimDot d /\ TrimRightDot (TrimDot d) = TrimDot d.
Proof.
  unfold TrimDot. split.
  - apply TrimLeftDot_TrimRightDot, TrimLeftDot_idem.
  - apply TrimRightDot_idem.
Qed.

End StringFacts.

(* ===================================================================== *)
(** * Facts about counters on the wire *)
(* ===================================================================== *)

Module StrconvFacts.
Import Strconv LabelCheck.

Lemma digit_ok_all (d : Z) : 0 <= d < 36 -> digit_ok d = true.
Proof.
  intros Hd.
  assert (Hin : In d (List.map Z.of_nat (seq 0 36))).
  { apply in_map_iff. exists (Z.to_nat d). split; [lia|]. apply in_seq. lia. }
  clear Hd. revert d Hin. apply forallb_forall. vm_compute. reflexivity.
Qed.

Lemma digit_roundtrip (d : Z) :
  0 <= d < 36 -> digit_val (digit_char d) = Some d.
Proof.
  intros Hd. pose proof (digit_ok_all d Hd) as H. unfold digit_ok in H.
  apply andb_prop in H as [H _].
  destruct (digit_val (digit_char d)) as [d'|]; [|discriminate].
  apply Z.eqb_eq in H. congruence.
Qed.

Lemma digit_plain (d : Z) : 0 <= d < 36 -> plain_char (digit_char d) = true.
Proof.
  intros Hd. pose proof (digit_ok_all d Hd) as H. unfold digit_ok in H.
  apply andb_prop in H as [_ H]. exact H.
Qed.

(** Reading the digits [format_digits] wrote gives the number back, and
    goes on with what followed. *)
Lemma parse_format (fuel : nat) :
  forall (n : Z) (acc : string),
    0 <= n < 36 ^ Z.of_nat (S fuel) -> n <= maxUint64 ->
    parse_digits 36 (format_digits fuel n acc) 0 = parse_digits 36 acc n.
Proof.
  assert (Hstep : forall n acc a,
             0 <= n -> a * 36 + n mod 36 <= maxUint64 ->
             parse_digits 36 (String (digit_char (n mod 36)) acc) a
             = parse_digits 36 acc (a * 36 + n mod 36)).
  { intros n acc a Hn Hmax. cbn [parse_digits].
    rewrite digit_roundtrip by (apply Z.mod_pos_bound; lia).
    destruct (Z.leb_spec 36 (n mod 36)) as [Hge|_].
    { pose proof (Z.mod_pos_bound n 36). lia. }
    cbv zeta. destruct (Z.ltb_spec maxUint64 (a * 36 + n mod 36)); [lia|].
    reflexivity. }
  induction fuel as [|fuel IH]; intros n acc Hn Hmax.
  - cbn [format_digits]. rewrite Hstep by (rewrite ?Z.mod_small; lia).
    rewrite Z.mod_small by lia. reflexivity.
  - cbn [format_digits]. cbv zeta.
    destruct (Z.eqb_spec (n / 36) 0) as [Hz|Hnz].
    + assert (n mod 36 = n) as Hm.
      { pose proof (Z.div_mod n 36). lia. }
      rewrite Hstep by lia. rewrite Hm. reflexivity.
    + assert (Hq : 0 <= n / 36 < 36 ^ Z.of_nat (S fuel)).
      { split; [apply Z.div_pos; lia|].
        apply Z.div_lt_upper_bound; [lia|].
        replace (Z.of_nat (S (S fuel))) with (Z.of_nat (S fuel) + 1) in Hn
          by lia.
        rewrite Z.pow_add_r, Z.pow_1_r in Hn by lia. lia. }
      assert (Hle : n / 36 <= maxUint64).
      { pose proof (Z.div_mod n 36). pose proof (Z.mod_pos_bound n 36). lia. }
      rewrite (IH (n / 36) _ Hq Hle).
      assert (Hn' : n / 36 * 36 + n mod 36 = n).
      { pose proof (Z.div_mod n 36). lia. }
      rewrite Hstep by lia. rewrite Hn'. reflexivity.
Qed.

Lemma format_digits_nonempty (fuel : nat) (n : Z) (acc : string) :
  format_digits fuel n acc <> EmptyString.
Proof.
  revert n acc. induction fuel as [|fuel IH]; intros n acc;
    cbn [format_digits]; cbv zeta; [discriminate|].
  destruct (n / 36 =? 0); [discriminate|apply IH].
Qed.

(** What [FormatUint] writes in base 36, [ParseUint] reads back. *)
Lemma ParseUint_FormatUint36 (n : Z) :
  0 <= n < 2 ^ 64 -> ParseUint (FormatUint36 n) 36 = Some n.
Proof.
  intros Hn. unfold ParseUint, FormatUint36.
  pose proof (format_digits_nonempty 12 n EmptyString) as Hne.
  destruct (format_digits 12 n EmptyString) as [|ch r] eqn:Hf; [congruence|].
  rewrite <- Hf. rewrite parse_format.
  - reflexivity.
  - change (36 ^ Z.of_nat 13) with 170581728179578208256.
    change (2 ^ 64) with 18446744073709551616 in Hn. lia.
  - unfold maxUint64. lia.
Qed.

Lemma FormatUint36_inj (n m : Z) :
  0 <= n < 2 ^ 64 -> 0 <= m < 2 ^ 64 ->
  FormatUint36 n = FormatUint36 m -> n = m.
Proof.
  intros Hn Hm H. apply ParseUint_FormatUint36 in Hn, Hm.
  rewrite H in Hn. congruence.
Qed.

(** What [ParseUint] returns fits 64 bits. *)
Lemma parse_digits_range (s : string) :
  forall acc n, 0 <= acc <= maxUint64 ->
                parse_digits 36 s acc = Some n -> 0 <= n <= maxUint64.
Proof.
  induction s as [|ch r IH]; intros acc n Ha; cbn [parse_digits].
  - intros [= <-]. exact Ha.
  - destruct (digit_val ch) as [d|] eqn:Hd; [|discriminate].
    destruct (Z.leb_spec 36 d); [discriminate|]. cbv zeta.
    destruct (Z.ltb_spec maxUint64 (acc * 36 + d)); [discriminate|].
    apply IH. split; [|assumption].
    assert (0 <= d).
    { unfold digit_val in Hd.
      repeat match type of Hd with
             | context [if ?b then _ else _] => destruct b eqn:?
             end; try discriminate; injection Hd as <-; lia. }
    lia.
Qed.

Lemma ParseUint_range (s : string) (n : Z) :
  ParseUint s 36 = Some n -> 0 <= n < 2 ^ 64.
Proof.
  unfold ParseUint. destruct s as [|ch r]; [discriminate|].
  intros H. apply parse_digits_range in H; unfold maxUint64 in *; lia.
Qed.

(** Letter case does not matter to [ParseUint]. *)
Lemma digit_val_lower (ch : ascii) :
  digit_val (GoStrings.lower_ascii ch) = digit_val ch.
Proof. destruct ch as [[] [] [] [] [] [] [] []]; reflexivity. Qed.

Lemma parse_digits_ToLower (base : Z) (s : string) :
  forall acc, parse_digits base (GoStrings.ToLower s) acc
              = parse_digits base s acc.
Proof.
  induction s as [|ch r IH]; intros acc; [reflexivity|].
  cbn [GoStrings.ToLower parse_digits]. rewrite digit_val_lower.
  destruct (digit_val ch) as [d|]; [|reflexivity].
  destruct (base <=? d); [reflexivity|]. cbv zeta.
  destruct (maxUint64 <? acc * base + d); [reflexivity|apply IH].
Qed.

Lemma ParseUint_ToLower (s : string) (base : Z) :
  ParseUint (GoStrings.ToLower s) base = ParseUint s base.
Proof.
  destruct s as [|ch r]; [reflexivity|].
  unfold ParseUint. cbn [GoStrings.ToLower].
  change (String (GoStrings.lower_ascii ch) (GoStrings.ToLower r))
    with (GoStrings.ToLower (String ch r)).
  apply parse_digits_ToLower.
Qed.

(** The digits [FormatUint] writes are lower-case and never a dot. *)
Lemma format_digits_plain (fuel : nat) :
  forall n acc, plain acc = true -> plain (format_digits fuel n acc) = true.
Proof.
  assert (Hd : forall n, plain_char (digit_char (n mod 36)) = true).
  { intros n. apply digit_plain, Z.mod_pos_bound. lia. }
  induction fuel as [|fuel IH]; intros n acc Ha; cbn [format_digits];
    cbv zeta.
  - cbn [plain]. rewrite Hd, Ha. reflexivity.
  - destruct (n / 36 =? 0).
    + cbn [plain]. rewrite Hd, Ha. reflexivity.
    + apply IH. cbn [plain]. rewrite Hd, Ha. reflexivity.
Qed.

Lemma FormatUint36_plain (n : Z) : plain (FormatUint36 n) = true.
Proof. apply format_digits_plain. reflexivity. Qed.

(** ** Decimal timestamps *)

Lemma digit_unsigned_all (d : Z) : 0 <= d < 36 -> digit_unsigned d = true.
Proof.
  intros Hd.
  assert (Hin : In d (List.map Z.of_nat (seq 0 36))).
  { apply in_map_iff. exists (Z.to_nat d). split; [lia|]. apply in_seq. lia. }
  clear Hd. revert d Hin. apply forallb_forall. vm_compute. reflexivity.
Qed.

Lemma parse_decimal (fuel : nat) :
  forall (n : Z) (acc : string),
    0 <= n < 10 ^ Z.of_nat (S fuel) -> n <= maxUint64 ->
    parse_digits 10 (format_decimal fuel n acc) 0 = parse_digits 10 acc n.
Proof.
  assert (Hstep : forall n acc a,
             0 <= n -> a * 10 + n mod 10 <= maxUint64 ->
             parse_digits 10 (String (digit_char (n mod 10)) acc) a
             = parse_digits 10 acc (a * 10 + n mod 10)).
  { intros n acc a Hn Hmax. cbn [parse_digits].
    pose proof (Z.mod_pos_bound n 10) as Hm.
    rewrite digit_roundtrip by lia.
    destruct (Z.leb_spec 10 (n mod 10)) as [Hge|_]; [lia|].
    cbv zeta. destruct (Z.ltb_spec maxUint64 (a * 10 + n mod 10)); [lia|].
    reflexivity. }
  induction fuel as [|fuel IH]; intros n acc Hn Hmax.
  - cbn [format_decimal]. rewrite Hstep by (rewrite ?Z.mod_small; lia).
    rewrite Z.mod_small by lia. reflexivity.
  - cbn [format_decimal]. cbv zeta.
    destruct (Z.eqb_spec (n / 10) 0) as [Hz|Hnz].
    + assert (n mod 10 = n) as Hm.
      { pose proof (Z.div_mod n 10). lia. }
      rewrite Hstep by lia. rewrite Hm. reflexivity.
    + assert (Hq : 0 <= n / 10 < 10 ^ Z.of_nat (S fuel)).
      { split; [apply Z.div_pos; lia|].
        apply Z.div_lt_upper_bound; [lia|].
        replace (Z.of_nat (S (S fuel))) with (Z.of_nat (S fuel) + 1) in Hn
          by lia.
        rewrite Z.pow_add_r, Z.pow_1_r in Hn by lia. lia. }
      assert (Hle : n / 10 <= maxUint64).
      { pose proof (Z.div_mod n 10). pose proof (Z.mod_pos_bound n 10). lia. }
      rewrite (IH (n / 10) _ Hq Hle).
      assert (Hn' : n / 10 * 10 + n mod 10 = n).
      { pose proof (Z.div_mod n 10). lia. }
      rewrite Hstep by lia. rewrite Hn'. reflexivity.
Qed.

(** A decimal numeral starts with a digit. *)
Lemma format_decimal_head (fuel : nat) :
  forall n acc,
    exists d r, 0 <= d < 10 /\
                format_decimal fuel n acc = String (digit_char d) r.
Proof.
  induction fuel as [|fuel IH]; intros n acc; cbn [format_decimal]; cbv zeta.
  - exists (n mod 10), acc. split; [apply Z.mod_pos_bound; lia|reflexivity].
  - destruct (n / 10 =? 0); [|apply IH].
    exists (n mod 10), acc. split; [apply Z.mod_pos_bound; lia|reflexivity].
Qed.

Lemma ParseUint_format_decimal (n : Z) :
  0 <= n <= 2 ^ 63 ->
  ParseUint (format_decimal 18 n EmptyString) 10 = Some n.
Proof.
  intros Hn. unfold ParseUint.
  destruct (format_decimal_head 18 n EmptyString) as (d & r & _ & Hf).
  rewrite Hf, <- Hf. rewrite parse_decimal.
  - reflexivity.
  - change (10 ^ Z.of_nat 19) with 10000000000000000000.
    change (2 ^ 63) with 9223372036854775808 in Hn. lia.
  - unfold maxUint64. lia.
Qed.

(** The timestamp the client prints is the timestamp the server parses. *)
Lemma ParseInt10_FormatInt10 (n : Z) :
  - 2 ^ 63 <= n < 2 ^ 63 -> ParseInt10 (FormatInt10 n) = Some n.
Proof.
  intros Hn. unfold FormatInt10.
  destruct (Z.ltb_spec n 0) as [Hneg|Hpos].
  - unfold ParseInt10. cbn [Ascii.eqb Bool.eqb andb].
    rewrite ParseUint_format_decimal by lia.
    destruct (Z.ltb_spec (2 ^ 63) (- n)); [lia|]. f_equal. lia.
  - destruct (format_decimal_head 18 n EmptyString) as (d & r & Hd & Hf).
    pose proof (ParseUint_format_decimal n ltac:(lia)) as Hparse.
    rewrite Hf in *. unfold ParseInt10.
    pose proof (digit_unsigned_all d ltac:(lia)) as Hu.
    unfold digit_unsigned in Hu. apply andb_prop in Hu as [Hplus Hminus].
    apply negb_true_iff in Hplus, Hminus. rewrite Hplus, Hminus, Hparse.
    destruct (Z.leb_spec (2 ^ 63) n); [lia|reflexivity].
Qed.

Lemma format_decimal_plain (fuel : nat) :
  forall n acc, plain acc = true -> plain (format_decimal fuel n acc) = true.
Proof.
  assert (Hd : forall n, plain_char (digit_char (n mod 10)) = true).
  { intros n. apply digit_plain. pose proof (Z.mod_pos_bound n 10). lia. }
  induction fuel as [|fuel IH]; intros n acc Ha; cbn [format_decimal];
    cbv zeta.
  - cbn [plain]. rewrite Hd, Ha. reflexivity.
  - destruct (n / 10 =? 0).
    + cbn [plain]. rewrite Hd, Ha. reflexivity.
    + apply IH. cbn [plain]. rewrite Hd, Ha. reflexivity.
Qed.

Lemma FormatInt10_plain (n : Z) : plain (FormatInt10 n) = true.
Proof.
  unfold FormatInt10. destruct (n <? 0).
  - cbn [plain]. rewrite format_decimal_plain by reflexivity. reflexivity.
  - apply format_decimal_plain. reflexivity.
Qed.

End StrconvFacts.

(* ===================================================================== *)
(** * Facts about the two-queue cache *)
(* ===================================================================== *)

Module LruFacts.
Import Lru.

Section WithValue.

Context {V : Type}.

Lemma lru_Contains_head (k : string) (v : V) (l : entries V) :
  lru_Contains k ((k, v) :: l) = true.
Proof.
  unfold lru_Contains, has_key. cbn. rewrite String.eqb_refl. reflexivity.
Qed.

Lemma lru_Add_Contains (n : Z) (k : string) (v : V) (l : entries V) :
  0 < n -> lru_Contains k (lru_Add n k v l) = true.
Proof.
  intros Hn. unfold lru_Add.
  destruct (lru_Contains k l); [apply lru_Contains_head|].
  destruct (n <? Z.of_nat (List.length ((k, v) :: l))) eqn:Hlen;
    [|apply lru_Contains_head].
  apply Z.ltb_lt in Hlen. cbn [List.length] in Hlen.
  destruct l as [|a l]; [cbn in Hlen; lia|].
  unfold lru_RemoveOldest. cbn [removelast]. apply lru_Contains_head.
Qed.

Lemma ensureSpace_size (g : bool) (q : TwoQueueCache V) :
  size (ensureSpace g q) = size q.
Proof.
  unfold ensureSpace.
  repeat match goal with
         | |- context [if ?b then _ else _] => destruct b
         | |- context [match ?o with Some _ => _ | None => _ end] =>
             destruct o
         end; reflexivity.
Qed.

(** A key just added is in the cache. *)
Lemma Contains_Add (k : string) (v : V) (q : TwoQueueCache V) :
  0 < size q -> Contains k (Add k v q) = true.
Proof.
  intros Hn. unfold Add, Contains.
  destruct (lru_Contains k (frequent q)) eqn:Hf.
  - cbn [frequent recent with_queues].
    rewrite lru_Add_Contains by exact Hn. reflexivity.
  - destruct (lru_Contains k (recent q)) eqn:Hr.
    + cbn [frequent recent with_queues].
      rewrite lru_Add_Contains by exact Hn. reflexivity.
    + destruct (lru_Contains k (recentEvict q)).
      * cbn [frequent recent with_queues].
        rewrite lru_Add_Contains by (rewrite ensureSpace_size; exact Hn).
        reflexivity.
      * cbn [frequent recent with_queues].
        rewrite lru_Add_Contains by (rewrite ensureSpace_size; exact Hn).
        apply orb_true_r.
Qed.

(** A miss leaves the cache as it was. *)
Lemma Get_miss (k : string) (q : TwoQueueCache V) :
  fst (Get k q) = None -> Get k q = (None, q).
Proof.
  unfold Get, lru_Get.
  destruct (lru_Peek k (frequent q)); [discriminate|].
  destruct (lru_Peek k (recent q)); [discriminate|]. reflexivity.
Qed.

Lemma lru_Peek_head (k : string) (v : V) (l : entries V) :
  lru_Peek k ((k, v) :: l) = Some v.
Proof.
  cbn [lru_Peek]. unfold has_key. cbn [fst snd].
  rewrite String.eqb_refl. reflexivity.
Qed.

Lemma lru_Add_Peek (n : Z) (k : string) (v : V) (l : entries V) :
  0 < n -> lru_Peek k (lru_Add n k v l) = Some v.
Proof.
  intros Hn. unfold lru_Add.
  destruct (lru_Contains k l); [apply lru_Peek_head|].
  destruct (n <? Z.of_nat (List.length ((k, v) :: l))) eqn:Hlen;
    [|apply lru_Peek_head].
  apply Z.ltb_lt in Hlen. cbn [List.length] in Hlen.
  destruct l as [|a l]; [cbn in Hlen; lia|].
  unfold lru_RemoveOldest. cbn [removelast]. apply lru_Peek_head.
Qed.

Lemma lru_Peek_absent (k : string) (l : entries V) :
  lru_Contains k l = false -> lru_Peek k l = None.
Proof.
  induction l as [|a l IH]; [reflexivity|].
  unfold lru_Contains. cbn [existsb lru_Peek].
  destruct (has_key k a); [discriminate|]. exact IH.
Qed.

Lemma lru_RemoveOldest_absent (k : string) (l : entries V) :
  lru_Contains k l = false -> lru_Contains k (lru_RemoveOldest l) = false.
Proof.
  unfold lru_RemoveOldest, lru_Contains.
  induction l as [|a l IH]; [reflexivity|].
  cbn [existsb]. destruct (has_key k a) eqn:Ha; [discriminate|].
  cbn [orb]. intros Hl. destruct l as [|a' l']; [reflexivity|].
  cbn [removelast existsb] in *. rewrite Ha. cbn [orb]. apply IH. exact Hl.
Qed.

Lemma ensureSpace_frequent_absent (g : bool) (k : string)
    (q : TwoQueueCache V) :
  lru_Contains k (frequent q) = false ->
  lru_Contains k (frequent (ensureSpace g q)) = false.
Proof.
  intros H. unfold ensureSpace.
  repeat match goal with
         | |- context [if ?b then _ else _] => destruct b
         | |- context [match ?o with Some _ => _ | None => _ end] =>
             destruct o
         end; cbn [frequent with_queues]; try exact H.
  apply lru_RemoveOldest_absent. exact H.
Qed.

(** What was just added is what a lookup returns. *)
Lemma Get_Add (k : string) (v : V) (q : TwoQueueCache V) :
  0 < size q -> fst (Get k (Add k v q)) = Some v.
Proof.
  intros Hn. unfold Add.
  destruct (lru_Contains k (frequent q)) eqn:Hf;
    [|destruct (lru_Contains k (recent q)) eqn:Hr;
      [|destruct (lru_Contains k (recentEvict q))]];
    unfold Get, lru_Get; cbn [frequent recent with_queues size].
  - rewrite lru_Add_Peek by exact Hn. reflexivity.
  - rewrite lru_Add_Peek by exact Hn. reflexivity.
  - rewrite lru_Add_Peek by (rewrite ensureSpace_size; exact Hn). reflexivity.
  - rewrite (lru_Peek_absent k (frequent (ensureSpace false q)))
      by (apply ensureSpace_frequent_absent; exact Hf).
    rewrite lru_Add_Peek by (rewrite ensureSpace_size; exact Hn). reflexivity.
Qed.

Lemma Add_size (k : string) (v : V) (q : TwoQueueCache V) :
  size (Add k v q) = size q.
Proof.
  unfold Add.
  repeat match goal with
         | |- context [if ?b then _ else _] => destruct b
         end; cbn [size with_queues]; rewrite ?ensureSpace_size; reflexivity.
Qed.

End WithValue.

End LruFacts.

(* ===================================================================== *)
(** * Facts about the session table and the handlers *)
(* ===================================================================== *)

Module ServerFacts.
Import Server Run.

Lemma emitted_app (s s' : state) (evs : list event) :
  trace s' = trace s ++ evs -> emitted s s' = evs.
Proof.
  intros H. unfold emitted. rewrite H. apply drop_app_length.
Qed.

Lemma trace_emit (ev : event) (s : state) :
  trace (emit ev s) = trace s ++ [ev].
Proof. reflexivity. Qed.

Lemma updateLast_found (id : string) (t : Z) (s : state) (x : conn) :
  conns s !! id = Some x ->
  updateLast id t s
  = emit (EvUpdateLast (c x) t) (set_conns (<[id := set_last t x]> (conns s)) s).
Proof. intros H. unfold updateLast. rewrite H. reflexivity. Qed.

Lemma deleteConn_found (id : string) (s : state) (x : conn) :
  conns s !! id = Some x ->
  deleteConn id s = emit (EvClose (c x)) (set_conns (delete id (conns s)) s).
Proof. intros H. unfold deleteConn. rewrite H. reflexivity. Qed.

(** Evaluate the state updates of a handler, innermost first. *)
Ltac srv_simpl :=
  repeat (progress
            (cbv beta iota zeta delta
                 [updateLast deleteConn getConn emit set_conns
                  set_connNextID set_seenTSCache set_ansCache
                  conns trace domainName connNextID seenTSCache ansCache
                  fst snd negb])
          || rewrite lookup_insert_eq).

(** The reverse handler on the path that reaches the upstream read. *)
Lemma handleReverse_reads (e : env) (ctr id : string) (s : state) (x : conn) :
  Strconv.ParseUint ctr 36 = Some (nextRev x) ->
  conns s !! id = Some x ->
  deadline_ok e = true ->
  handleReverse e ctr id s = (reverse_result e, after_reverse e id x s).
Proof.
  destruct s as [dn m nid seen ans tr]. cbn [conns]. intros Hp Hc Hd.
  unfold handleReverse, reverse_result, after_reverse, getConn. cbn [conns].
  rewrite Hp, Hc, Z.eqb_refl, Hd. srv_simpl.
  rewrite !insert_insert_eq, <- !app_assoc.
  destruct (List.length (take maxTXTLen (read_data e)) =? 0)%nat; [|reflexivity].
  destruct (read_err e); reflexivity.
Qed.

(** The reverse handler when the read deadline cannot be set. *)
Lemma handleReverse_deadline (e : env) (ctr id : string) (s : state) (x : conn) :
  Strconv.ParseUint ctr 36 = Some (nextRev x) ->
  conns s !! id = Some x ->
  deadline_ok e = false ->
  handleReverse e ctr id s
  = (Err "setting network read deadline", after_deadline_error e id x s).
Proof.
  destruct s as [dn m nid seen ans tr]. cbn [conns]. intros Hp Hc Hd.
  unfold handleReverse, after_deadline_error, getConn. cbn [conns].
  rewrite Hp, Hc, Z.eqb_refl, Hd. srv_simpl.
  rewrite delete_insert_eq, <- !app_assoc. reflexivity.
Qed.

(** The forward handler on the path that reaches the upstream write. *)
Lemma handleForward_writes (e : env) (ctr payload id : string) (s : state)
    (x : conn) (b : list byte) :
  Strconv.ParseUint ctr 36 = Some (nextFwd x) ->
  dec (GoStrings.ToUpper payload) = Some b ->
  conns s !! id = Some x ->
  handleForward e ctr payload id s
  = (if write_ok e then Reply [] else Err "sending to network",
     after_forward e id x b s).
Proof.
  destruct s as [dn m nid seen ans tr]. cbn [conns]. intros Hp Hb Hc.
  unfold handleForward, after_forward, getConn. cbn [conns].
  rewrite Hp, Hb, Hc, Z.eqb_refl. srv_simpl.
  destruct (write_ok e); srv_simpl.
  - rewrite !insert_insert_eq, <- !app_assoc. reflexivity.
  - rewrite !insert_insert_eq, delete_insert_eq, <- !app_assoc. reflexivity.
Qed.

(** Every way a forward request can go. *)
Lemma handleForward_cases (e : env) (ctr payload id : string) (s : state) :
  (snd (handleForward e ctr payload id s) = s /\
   fst (handleForward e ctr payload id s) <> Reply []) \/
  (exists x b,
     Strconv.ParseUint ctr 36 = Some (nextFwd x) /\
     dec (GoStrings.ToUpper payload) = Some b /\
     conns s !! id = Some x /\
     handleForward e ctr payload id s
     = (if write_ok e then Reply [] else Err "sending to network",
        after_forward e id x b s)).
Proof.
  destruct (Strconv.ParseUint ctr 36) as [cn|] eqn:Hp;
    [|left; unfold handleForward; rewrite Hp; split; [reflexivity|discriminate]].
  destruct (dec (GoStrings.ToUpper payload)) as [b|] eqn:Hb;
    [|left; unfold handleForward; rewrite Hp, Hb; split; [reflexivity|discriminate]].
  destruct (conns s !! id) as [x|] eqn:Hc;
    [|left; unfold handleForward, getConn; rewrite Hp, Hb, Hc; split;
      [reflexivity|discriminate]].
  destruct (Z.eqb_spec cn (nextFwd x)) as [->|Hne].
  - right. exists x, b. repeat split; try assumption.
    apply handleForward_writes; assumption.
  - left. unfold handleForward, getConn. rewrite Hp, Hb, Hc.
    apply Z.eqb_neq in Hne. rewrite Hne. split; [reflexivity|discriminate].
Qed.

(** Every way a reverse request can go. *)
Lemma handleReverse_cases (e : env) (ctr id : string) (s : state) :
  snd (handleReverse e ctr id s) = s \/
  (exists x,
     Strconv.ParseUint ctr 36 = Some (nextRev x) /\
     conns s !! id = Some x /\
     handleReverse e ctr id s
     = if deadline_ok e
       then (reverse_result e, after_reverse e id x s)
       else (Err "setting network read deadline",
             after_deadline_error e id x s)).
Proof.
  destruct (Strconv.ParseUint ctr 36) as [cn|] eqn:Hp;
    [|left; unfold handleReverse; rewrite Hp; reflexivity].
  destruct (conns s !! id) as [x|] eqn:Hc;
    [|left; unfold handleReverse, getConn; rewrite Hp, Hc; reflexivity].
  destruct (Z.eqb_spec cn (nextRev x)) as [->|Hne].
  - right. exists x. repeat split; try assumption.
    destruct (deadline_ok e) eqn:Hd.
    + apply handleReverse_reads; assumption.
    + apply handleReverse_deadline; assumption.
  - left. unfold handleReverse, getConn. rewrite Hp, Hc.
    apply Z.eqb_neq in Hne. rewrite Hne. reflexivity.
Qed.

(** Every way a handshake can go. *)
Lemma handleNewConn_cases (e : env) (l : string) (s : state) :
  snd (handleNewConn e l s) = s \/
  snd (handleNewConn e l s) = after_dial_error e l s \/
  (exists sock, dial e = Some sock /\
                snd (handleNewConn e l s) = after_newconn e l sock s).
Proof.
  destruct s as [dn m nid seen ans tr]. unfold handleNewConn.
  destruct (Strconv.ParseInt10 l) as [n|]; [|left; reflexivity]. cbv zeta.
  match goal with |- context [if ?b then _ else _] => destruct b end;
    [left; reflexivity|].
  destruct (Lru.Contains l
              (seenTSCache
                 {| domainName := dn; conns := m; connNextID := nid;
                    seenTSCache := seen; ansCache := ans; trace := tr |}));
    [left; reflexivity|].
  right. unfold newConn. srv_simpl. destruct (dial e) as [sock|].
  - right. exists sock. split; [reflexivity|].
    unfold after_newconn, fresh_conn. srv_simpl.
    rewrite <- !app_assoc. reflexivity.
  - left. reflexivity.
Qed.

(** ** The pruner *)

Lemma prune_one_conns (m : Z) (s : state) (kv : string * conn) :
  conns (prune_one m s kv)
  = if last (snd kv) <? m then delete (fst kv) (conns s) else conns s.
Proof. unfold prune_one. destruct (last (snd kv) <? m); reflexivity. Qed.

Lemma prune_one_trace (m : Z) (s : state) (kv : string * conn) :
  trace (prune_one m s kv) = trace s ++ prune_events m kv.
Proof.
  unfold prune_one, prune_events. destruct (last (snd kv) <? m).
  - cbn. rewrite <- app_assoc. reflexivity.
  - rewrite app_nil_r. reflexivity.
Qed.

Lemma prune_one_rest (m : Z) (s : state) (kv : string * conn) :
  domainName (prune_one m s kv) = domainName s /\
  connNextID (prune_one m s kv) = connNextID s /\
  seenTSCache (prune_one m s kv) = seenTSCache s /\
  ansCache (prune_one m s kv) = ansCache s.
Proof. unfold prune_one. destruct (last (snd kv) <? m); repeat split. Qed.

Lemma prune_fold_lookup (m : Z) (id : string) (l : list (string * conn))
    (s : state) :
  conns (fold_left (prune_one m) l s) !! id
  = if existsb (idle_at m id) l then None else conns s !! id.
Proof.
  revert s. induction l as [|kv l IH]; intros s; [reflexivity|].
  cbn [fold_left existsb]. rewrite IH, prune_one_conns.
  unfold idle_at at 2.
  destruct (String.eqb_spec (fst kv) id) as [Heq|Hne]; cbn [andb orb].
  - destruct (last (snd kv) <? m); cbn [orb]; [|reflexivity].
    rewrite Heq, lookup_delete_eq.
    destruct (existsb (idle_at m id) l); reflexivity.
  - destruct (last (snd kv) <? m); [|reflexivity].
    rewrite lookup_delete_ne by exact Hne. reflexivity.
Qed.

Lemma prune_fold_trace (m : Z) (l : list (string * conn)) (s : state) :
  trace (fold_left (prune_one m) l s)
  = trace s ++ flat_map (prune_events m) l.
Proof.
  revert s. induction l as [|kv l IH]; intros s.
  - cbn. rewrite app_nil_r. reflexivity.
  - cbn [fold_left flat_map]. rewrite IH, prune_one_trace, app_assoc.
    reflexivity.
Qed.

Lemma prune_fold_rest (m : Z) (l : list (string * conn)) (s : state) :
  domainName (fold_left (prune_one m) l s) = domainName s /\
  connNextID (fold_left (prune_one m) l s) = connNextID s /\
  seenTSCache (fold_left (prune_one m) l s) = seenTSCache s /\
  ansCache (fold_left (prune_one m) l s) = ansCache s.
Proof.
  revert s. induction l as [|kv l IH]; intros s; [repeat split|].
  cbn [fold_left]. destruct (IH (prune_one m s kv)) as (-> & -> & -> & ->).
  apply prune_one_rest.
Qed.

(** A sweep removes exactly the sessions whose [last] is before the
    marker. *)
Lemma pruneConnsSince_lookup (m : Z) (id : string) (s : state) :
  conns (pruneConnsSince m s) !! id
  = match conns s !! id with
    | Some x => if last x <? m then None else Some x
    | None => None
    end.
Proof.
  unfold pruneConnsSince. rewrite prune_fold_lookup.
  destruct (existsb (idle_at m id) (map_to_list (conns s))) eqn:He.
  - apply existsb_exists in He as ([k x] & Hin & Hidle).
    unfold idle_at in Hidle. cbn [fst snd] in Hidle.
    apply andb_prop in Hidle as [Hk Hl]. apply String.eqb_eq in Hk. subst k.
    apply list_elem_of_In, elem_of_map_to_list in Hin.
    rewrite Hin, Hl. reflexivity.
  - destruct (conns s !! id) as [x|] eqn:Hc; [|reflexivity].
    destruct (last x <? m) eqn:Hl; [|reflexivity].
    exfalso. apply not_true_iff_false in He. apply He.
    apply existsb_exists. exists (id, x). split.
    + apply list_elem_of_In, elem_of_map_to_list. exact Hc.
    + unfold idle_at. cbn [fst snd]. rewrite String.eqb_refl, Hl. reflexivity.
Qed.

Lemma pruneConnsSince_trace (m : Z) (s : state) :
  trace (pruneConnsSince m s)
  = trace s ++ flat_map (prune_events m) (map_to_list (conns s)).
Proof. apply prune_fold_trace. Qed.

(** A sweep closes the socket of every session it removes. *)
Lemma pruneConnsSince_closes (m : Z) (id : string) (s : state) (x : conn) :
  conns s !! id = Some x -> last x < m ->
  In (EvClose (c x)) (emitted s (pruneConnsSince m s)).
Proof.
  intros Hc Hl. rewrite (emitted_app _ _ _ (pruneConnsSince_trace m s)).
  apply in_flat_map. exists (id, x). split.
  - apply list_elem_of_In, elem_of_map_to_list. exact Hc.
  - unfold prune_events. cbn [snd]. apply Z.ltb_lt in Hl. rewrite Hl.
    right. left. reflexivity.
Qed.

(** ** One step of a run, seen from one session *)

Lemma emitted_same (s : state) : emitted s s = [].
Proof. unfold emitted. apply drop_all. Qed.

Lemma step_trace (o : op) (s : state) :
  trace (step o s) = trace s ++ emitted s (step o s).
Proof.
  assert (H : exists evs, trace (step o s) = trace s ++ evs).
  { destruct o as [e l|e ctr payload id|e ctr id|m]; cbn [step].
    - destruct (handleNewConn_cases e l s) as [->|[->|(sock & _ & ->)]].
      + exists []. rewrite app_nil_r. reflexivity.
      + eexists. reflexivity.
      + eexists. reflexivity.
    - destruct (handleForward_cases e ctr payload id s)
        as [[-> _]|(x & b & _ & _ & _ & ->)].
      + exists []. rewrite app_nil_r. reflexivity.
      + eexists. reflexivity.
    - destruct (handleReverse_cases e ctr id s) as [->|(x & _ & _ & ->)].
      + exists []. rewrite app_nil_r. reflexivity.
      + destruct (deadline_ok e); eexists; reflexivity.
    - eexists. apply pruneConnsSince_trace. }
  destruct H as [evs H]. rewrite (emitted_app _ _ _ H). exact H.
Qed.

Lemma step_fwd (id : string) (o : op) (s : state) :
  reissues id o s = false ->
  (fwd_written id o s = [] /\
   (fwd_of id (step o s) = fwd_of id s \/ fwd_of id (step o s) = None)) \/
  (exists cn,
     fwd_written id o s = [cn] /\ fwd_of id s = Some cn /\
     (fwd_of id (step o s) = Some (wrap64 (cn + 1)) \/
      fwd_of id (step o s) = None)).
Proof.
  intros Hre. destruct o as [e l|e ctr payload id'|e ctr id'|m].
  - left. split; [reflexivity|]. left. cbn [step reissues] in *.
    apply String.eqb_neq in Hre. unfold fwd_of.
    destruct (handleNewConn_cases e l s) as [->|[->|(sock & _ & ->)]];
      [reflexivity|reflexivity|].
    cbn [after_newconn conns]. rewrite lookup_insert_ne by exact Hre.
    reflexivity.
  - unfold fwd_written. cbn [step].
    destruct (handleForward_cases e ctr payload id' s)
      as [[Hs _]|(x & b & Hp & Hb & Hc & Heq)].
    + rewrite Hs, emitted_same. cbn [existsb]. rewrite andb_false_r.
      left. split; [reflexivity|left; reflexivity].
    + rewrite Heq. cbn [snd].
      rewrite (emitted_app s (after_forward e id' x b s) _ eq_refl).
      cbn [existsb is_write orb]. rewrite andb_true_r.
      destruct (String.eqb_spec id' id) as [->|Hne].
      * right. exists (nextFwd x). unfold counter_of. rewrite Hp.
        split; [reflexivity|]. unfold fwd_of. rewrite Hc.
        split; [reflexivity|]. cbn [after_forward conns].
        destruct (write_ok e).
        -- left. rewrite lookup_insert_eq. reflexivity.
        -- right. rewrite lookup_delete_eq. reflexivity.
      * left. split; [reflexivity|]. left. unfold fwd_of.
        cbn [after_forward conns]. destruct (write_ok e).
        -- rewrite lookup_insert_ne by exact Hne. reflexivity.
        -- rewrite lookup_delete_ne by exact Hne. reflexivity.
  - left. split; [reflexivity|]. cbn [step].
    destruct (handleReverse_cases e ctr id' s) as [->|(x & Hp & Hc & ->)];
      [left; reflexivity|].
    unfold fwd_of.
    destruct (deadline_ok e); cbn [snd after_reverse after_deadline_error conns];
      destruct (String.eqb_spec id' id) as [->|Hne].
    + left. rewrite lookup_insert_eq, Hc. reflexivity.
    + left. rewrite lookup_insert_ne by exact Hne. reflexivity.
    + right. rewrite lookup_delete_eq. reflexivity.
    + left. rewrite lookup_delete_ne by exact Hne. reflexivity.
  - left. split; [reflexivity|]. cbn [step]. unfold fwd_of.
    rewrite pruneConnsSince_lookup.
    destruct (conns s !! id) as [x|]; [|left; reflexivity].
    destruct (last x <? m); [right|left]; reflexivity.
Qed.

Lemma step_rev (id : string) (o : op) (s : state) :
  reissues id o s = false ->
  (rev_read id o s = [] /\
   (rev_of id (step o s) = rev_of id s \/ rev_of id (step o s) = None)) \/
  (exists cn,
     rev_read id o s = [cn] /\ rev_of id s = Some cn /\
     (rev_of id (step o s) = Some (wrap64 (cn + 1)) \/
      rev_of id (step o s) = None)).
Proof.
  intros Hre. destruct o as [e l|e ctr payload id'|e ctr id'|m].
  - left. split; [reflexivity|]. left. cbn [step reissues] in *.
    apply String.eqb_neq in Hre. unfold rev_of.
    destruct (handleNewConn_cases e l s) as [->|[->|(sock & _ & ->)]];
      [reflexivity|reflexivity|].
    cbn [after_newconn conns]. rewrite lookup_insert_ne by exact Hre.
    reflexivity.
  - left. split; [reflexivity|]. cbn [step].
    destruct (handleForward_cases e ctr payload id' s)
      as [[-> _]|(x & b & Hp & Hb & Hc & ->)]; [left; reflexivity|].
    unfold rev_of. cbn [snd after_forward conns].
    destruct (write_ok e); destruct (String.eqb_spec id' id) as [->|Hne].
    + left. rewrite lookup_insert_eq, Hc. reflexivity.
    + left. rewrite lookup_insert_ne by exact Hne. reflexivity.
    + right. rewrite lookup_delete_eq. reflexivity.
    + left. rewrite lookup_delete_ne by exact Hne. reflexivity.
  - unfold rev_read. cbn [step].
    destruct (handleReverse_cases e ctr id' s) as [Hs|(x & Hp & Hc & Heq)].
    + rewrite Hs, emitted_same. cbn [existsb]. rewrite andb_false_r.
      left. split; [reflexivity|left; reflexivity].
    + rewrite Heq. destruct (deadline_ok e); cbn [snd].
      * rewrite (emitted_app s (after_reverse e id' x s) _ eq_refl).
        cbn [existsb is_read orb]. rewrite andb_true_r.
        destruct (String.eqb_spec id' id) as [->|Hne].
        -- right. exists (nextRev x). unfold counter_of. rewrite Hp.
           split; [reflexivity|]. unfold rev_of. rewrite Hc.
           split; [reflexivity|]. left. cbn [after_reverse conns].
           rewrite lookup_insert_eq. reflexivity.
        -- left. split; [reflexivity|]. left. unfold rev_of.
           cbn [after_reverse conns].
           rewrite lookup_insert_ne by exact Hne. reflexivity.
      * rewrite (emitted_app s (after_deadline_error e id' x s) _ eq_refl).
        cbn [existsb is_read orb]. rewrite andb_false_r.
        left. split; [reflexivity|]. unfold rev_of.
        cbn [after_deadline_error conns].
        destruct (String.eqb_spec id' id) as [->|Hne].
        -- right. rewrite lookup_delete_eq. reflexivity.
        -- left. rewrite lookup_delete_ne by exact Hne. reflexivity.
  - left. split; [reflexivity|]. cbn [step]. unfold rev_of.
    rewrite pruneConnsSince_lookup.
    destruct (conns s !! id) as [x|]; [|left; reflexivity].
    destruct (last x <? m); [right|left]; reflexivity.
Qed.

Lemma wrap64_succ (n : Z) : wrap64 (wrap64 n + 1) = wrap64 (n + 1).
Proof. unfold wrap64. rewrite Zplus_mod_idemp_l. reflexivity. Qed.

Lemma counting_from_cons (n : Z) (k : nat) :
  wrap64 n :: List.map (fun i => wrap64 (n + 1 + Z.of_nat i)) (seq 0 k)
  = List.map (fun i => wrap64 (n + Z.of_nat i)) (seq 0 (S k)).
Proof.
  cbn [seq List.map]. rewrite Z.add_0_r. f_equal.
  rewrite <- seq_shift, List.map_map. apply List.map_ext.
  intros i. f_equal. lia.
Qed.

(** The counters that caused forward writes count up from the session's
    counter. *)
Lemma fwd_counters_count (id : string) (ops : list op) :
  forall (s : state) (n : Z),
    never_reissued id ops s = true ->
    fwd_of id s = Some (wrap64 n) \/ fwd_of id s = None ->
    exists k,
      fwd_counters id ops s
      = List.map (fun i => wrap64 (n + Z.of_nat i)) (seq 0 k).
Proof.
  induction ops as [|o ops IH]; intros s n Hnr Hs;
    [exists 0%nat; reflexivity|].
  cbn [fwd_counters never_reissued] in *.
  apply andb_prop in Hnr as [Hre Hnr]. apply negb_true_iff in Hre.
  destruct (step_fwd id o s Hre) as [[-> Hn]|(cn & -> & Hcn & Hn)].
  - apply (IH (step o s) n Hnr).
    destruct Hn as [->| ->]; [exact Hs|right; reflexivity].
  - destruct Hs as [Hs|Hs]; [|congruence].
    assert (cn = wrap64 n) by congruence. subst cn.
    destruct (IH (step o s) (n + 1) Hnr) as [k Hk].
    { rewrite wrap64_succ in Hn. exact Hn. }
    exists (S k). cbn [app]. rewrite Hk. apply counting_from_cons.
Qed.

Lemma rev_counters_count (id : string) (ops : list op) :
  forall (s : state) (n : Z),
    never_reissued id ops s = true ->
    rev_of id s = Some (wrap64 n) \/ rev_of id s = None ->
    exists k,
      rev_counters id ops s
      = List.map (fun i => wrap64 (n + Z.of_nat i)) (seq 0 k).
Proof.
  induction ops as [|o ops IH]; intros s n Hnr Hs;
    [exists 0%nat; reflexivity|].
  cbn [rev_counters never_reissued] in *.
  apply andb_prop in Hnr as [Hre Hnr]. apply negb_true_iff in Hre.
  destruct (step_rev id o s Hre) as [[-> Hn]|(cn & -> & Hcn & Hn)].
  - apply (IH (step o s) n Hnr).
    destruct Hn as [->| ->]; [exact Hs|right; reflexivity].
  - destruct Hs as [Hs|Hs]; [|congruence].
    assert (cn = wrap64 n) by congruence. subst cn.
    destruct (IH (step o s) (n + 1) Hnr) as [k Hk].
    { rewrite wrap64_succ in Hn. exact Hn. }
    exists (S k). cbn [app]. rewrite Hk. apply counting_from_cons.
Qed.

Lemma counting_length (l : list Z) (k : nat) :
  l = List.map (fun i => wrap64 (0 + Z.of_nat i)) (seq 0 k) ->
  l = counting (List.length l).
Proof.
  intros ->. rewrite length_map, length_seq. reflexivity.
Qed.

(** A step that does not address a session leaves it alone. *)
Lemma step_elsewhere (id : string) (o : op) (s : state) :
  elsewhere id o s = true -> conns (step o s) !! id = conns s !! id.
Proof.
  destruct o as [e l|e ctr payload id'|e ctr id'|m]; cbn [elsewhere step];
    intros H; [| | |discriminate];
    apply negb_true_iff, String.eqb_neq in H.
  - destruct (handleNewConn_cases e l s) as [->|[->|(sock & _ & ->)]];
      [reflexivity|reflexivity|].
    cbn [after_newconn conns]. apply lookup_insert_ne. exact H.
  - destruct (handleForward_cases e ctr payload id' s)
      as [[-> _]|(x & b & _ & _ & _ & ->)]; [reflexivity|].
    cbn [snd after_forward conns]. destruct (write_ok e).
    + apply lookup_insert_ne. exact H.
    + apply lookup_delete_ne. exact H.
  - destruct (handleReverse_cases e ctr id' s) as [->|(x & _ & _ & ->)];
      [reflexivity|].
    destruct (deadline_ok e); cbn [snd after_reverse after_deadline_error conns].
    + apply lookup_insert_ne. exact H.
    + apply lookup_delete_ne. exact H.
Qed.

Lemma run_elsewhere (id : string) (ops : list op) :
  forall s, all_elsewhere id ops s = true ->
            conns (run ops s) !! id = conns s !! id.
Proof.
  induction ops as [|o ops IH]; intros s H; [reflexivity|].
  cbn [all_elsewhere] in H. apply andb_prop in H as [Ho Hr].
  unfold run in *. cbn [fold_left]. rewrite (IH _ Hr).
  apply step_elsewhere. exact Ho.
Qed.

End ServerFacts.

(* ===================================================================== *)
(** * Facts about the handshake handler and the dispatcher *)
(* ===================================================================== *)

Module DispatchFacts.
Import Server Run ServerFacts.

(** A timestamp within the window passes the check of [handleNewConn]. *)
Lemma window_check (n now : Z) :
  in_window n now ->
  (maxTSOff <?
     (if time_Sub n now <? 0 then wrap_int64 (time_Sub n now * -1)
      else time_Sub n now)) = false.
Proof.
  unfold in_window, maxTSOff, time_Hour. intros Hw.
  assert (Hd : time_Sub n now = n - now).
  { unfold time_Sub, minDuration, maxDuration.
    destruct (Z.ltb_spec (n - now) (- 2 ^ 63)); [lia|].
    destruct (Z.ltb_spec (2 ^ 63 - 1) (n - now)); [lia|reflexivity]. }
  rewrite Hd. apply Z.ltb_ge.
  destruct (Z.ltb_spec (n - now) 0); [|lia].
  unfold wrap_int64. rewrite Z.mod_small by lia. lia.
Qed.

(** The window check of [handleNewConn], as a function of the true
    difference between timestamp and clock. *)
Lemma window_check_rejects (n now : Z) :
  maxTSOff < Z.abs (n - now) -> - 2 ^ 63 < n - now ->
  (maxTSOff <?
     (if time_Sub n now <? 0 then wrap_int64 (time_Sub n now * -1)
      else time_Sub n now)) = true.
Proof.
  unfold maxTSOff, time_Hour. intros Hw Hlo. apply Z.ltb_lt.
  unfold time_Sub, minDuration, maxDuration.
  destruct (Z.ltb_spec (n - now) (- 2 ^ 63)); [lia|].
  destruct (Z.ltb_spec (2 ^ 63 - 1) (n - now)).
  - destruct (Z.ltb_spec (2 ^ 63 - 1) 0); lia.
  - destruct (Z.ltb_spec (n - now) 0); [|lia].
    unfold wrap_int64. rewrite Z.mod_small by lia. lia.
Qed.

Lemma window_check_saturated (n now : Z) :
  n - now <= - 2 ^ 63 ->
  (maxTSOff <?
     (if time_Sub n now <? 0 then wrap_int64 (time_Sub n now * -1)
      else time_Sub n now)) = false.
Proof.
  intros Hlo.
  assert (Hs : time_Sub n now = - 2 ^ 63).
  { unfold time_Sub, minDuration, maxDuration.
    destruct (Z.ltb_spec (n - now) (- 2 ^ 63)); [reflexivity|].
    destruct (Z.ltb_spec (2 ^ 63 - 1) (n - now)); lia. }
  rewrite Hs. reflexivity.
Qed.

(** A handshake whose timestamp string is in the seen-timestamp cache
    changes nothing, whatever the handler returns: it does not get past
    the replay check. *)
Lemma handleNewConn_seen_any (e : env) (l : string) (s : state) :
  Lru.Contains l (seenTSCache s) = true ->
  snd (handleNewConn e l s) = s /\
  (fst (handleNewConn e l s) = NoReply \/
   fst (handleNewConn e l s) = Err "parsing timestamp" \/
   fst (handleNewConn e l s) = Err "timestamp difference is too big").
Proof.
  intros Hc. unfold handleNewConn.
  destruct (Strconv.ParseInt10 l) as [n|]; [|split; auto].
  cbv zeta.
  destruct (maxTSOff <? _); [split; auto|].
  rewrite Hc. split; auto.
Qed.

(** A replayed timestamp inside the window: nothing happens. *)
Lemma handleNewConn_seen (e : env) (l : string) (s : state) (n : Z) :
  Strconv.ParseInt10 l = Some n ->
  in_window n (now0 e) ->
  Lru.Contains l (seenTSCache s) = true ->
  handleNewConn e l s = (NoReply, s).
Proof.
  intros Hp Hw Hc. unfold handleNewConn. rewrite Hp.
  cbv zeta. rewrite (window_check _ _ Hw), Hc. reflexivity.
Qed.

(** A new timestamp inside the window, and the dial works. *)
Lemma handleNewConn_fresh (e : env) (l : string) (s : state) (n : Z)
    (sock : nat) :
  Strconv.ParseInt10 l = Some n ->
  in_window n (now0 e) ->
  Lru.Contains l (seenTSCache s) = false ->
  dial e = Some sock ->
  handleNewConn e l s
  = (Reply (bytes_of (Strconv.FormatUint36 (connNextID s))),
     after_newconn e l sock s).
Proof.
  destruct s as [dn m nid seen ans tr]. cbn [seenTSCache connNextID].
  intros Hp Hw Hc Hd. unfold handleNewConn. rewrite Hp.
  cbv zeta. rewrite (window_check _ _ Hw). cbn [seenTSCache]. rewrite Hc.
  unfold newConn. rewrite Hd. unfold after_newconn, fresh_conn. srv_simpl.
  rewrite <- !app_assoc. reflexivity.
Qed.

Lemma newConn_ok (e : env) (s : state) (sock : nat) :
  dial e = Some sock ->
  fst (newConn e s) = Some (Strconv.FormatUint36 (connNextID s)) /\
  conns (snd (newConn e s))
  = <[Strconv.FormatUint36 (connNextID s) := fresh_conn e sock]> (conns s).
Proof.
  intros Hd. unfold newConn. rewrite Hd. split; reflexivity.
Qed.

(** No handler touches the answer cache. *)
Lemma newConn_ansCache (e : env) (s : state) :
  ansCache (snd (newConn e s)) = ansCache s.
Proof. unfold newConn. destruct (dial e); reflexivity. Qed.

Lemma handleNewConn_ansCache (e : env) (l : string) (s : state) :
  ansCache (snd (handleNewConn e l s)) = ansCache s.
Proof.
  unfold handleNewConn.
  destruct (Strconv.ParseInt10 l); [|reflexivity]. cbv zeta.
  match goal with |- context [if ?b then _ else _] => destruct b end;
    [reflexivity|].
  destruct (Lru.Contains l (seenTSCache s)); [reflexivity|].
  pose proof (newConn_ansCache e
                (set_seenTSCache (Lru.Add l tt (seenTSCache s)) s)) as H.
  destruct (newConn e (set_seenTSCache (Lru.Add l tt (seenTSCache s)) s))
    as [[id|] s2]; exact H.
Qed.

Lemma handleForward_ansCache (e : env) (ctr payload id : string) (s : state) :
  ansCache (snd (handleForward e ctr payload id s)) = ansCache s.
Proof.
  destruct (handleForward_cases e ctr payload id s)
    as [[-> _]|(x & b & _ & _ & _ & ->)]; reflexivity.
Qed.

Lemma handleReverse_ansCache (e : env) (ctr id : string) (s : state) :
  ansCache (snd (handleReverse e ctr id s)) = ansCache s.
Proof.
  destruct (handleReverse_cases e ctr id s) as [->|(x & _ & _ & ->)];
    [reflexivity|]. destruct (deadline_ok e); reflexivity.
Qed.

Lemma dispatch_ansCache (e : env) (labels : list string) (s : state) :
  ansCache (snd (dispatch e labels s)) = ansCache s.
Proof.
  destruct labels as [|l0 [|l1 [|l2 [|l3 r]]]]; cbn [dispatch snd];
    auto using handleNewConn_ansCache, handleForward_ansCache,
               handleReverse_ansCache.
Qed.

(** [strings.Split] never returns an empty slice. *)
Lemma SplitDot_nonempty (s : string) : GoStrings.SplitDot s <> [].
Proof.
  destruct s as [|ch r]; cbn [GoStrings.SplitDot]; [discriminate|].
  destruct (Ascii.eqb ch "."); [discriminate|].
  destruct (GoStrings.SplitDot r); discriminate.
Qed.

(** A TXT query inside the parent domain is answered when it has up to
    three labels and logged and dropped when it has more. *)
Lemma handlePacket_in_domain (e : env) (msg : Message) (q : Question)
    (s : state) :
  Questions msg = [q] -> Type_ q = TypeTXT -> Response msg = false ->
  GoStrings.HasSuffix (Name q) (domainName s) = true ->
  handlePacket e (Some msg) s
  = if (List.length (labels_of s q) <=? 3)%nat
    then answer e msg q (qname_of s q) (labels_of s q) s
    else (None, emit (EvLog "Too many labels") s).
Proof.
  intros Hq Ht Hr Hs. unfold handlePacket. rewrite Hq, Ht, Z.eqb_refl, Hr, Hs.
  cbn [negb]. unfold labels_of, qname_of.
  pose proof (SplitDot_nonempty
                (GoStrings.ToLower
                   (GoStrings.TrimSuffix (Name q) (domainName s)))) as Hne.
  destruct (GoStrings.SplitDot
              (GoStrings.ToLower
                 (GoStrings.TrimSuffix (Name q) (domainName s))))
    as [|l0 [|l1 [|l2 [|l3 r]]]]; [congruence|reflexivity..].
Qed.

(** A name outside the parent domain is dropped without a trace. *)
Lemma handlePacket_outside (e : env) (msg : Message) (q : Question)
    (s : state) :
  Questions msg = [q] -> Type_ q = TypeTXT -> Response msg = false ->
  GoStrings.HasSuffix (Name q) (domainName s) = false ->
  handlePacket e (Some msg) s = (None, s).
Proof.
  intros Hq Ht Hr Hs. unfold handlePacket.
  rewrite Hq, Ht, Z.eqb_refl, Hr, Hs. reflexivity.
Qed.

(** The dispatcher always answers once it got as far as the cache. *)
Lemma answer_replies (e : env) (msg : Message) (q : Question) (qn : string)
    (labels : list string) (s : state) :
  exists r, fst (answer e msg q qn labels s) = Some r /\
            Response r = true /\ Authoritative r = true /\ ID r = ID msg.
Proof.
  unfold answer.
  destruct (List.length labels =? 2)%nat.
  - destruct (Lru.Get qn (ansCache s)) as [[ca|] q'].
    + eexists. split; [reflexivity|]. repeat split.
    + destruct (dispatch e labels (set_ansCache q' s)) as [[rb| |err] s1];
        eexists; (split; [reflexivity|]); repeat split.
  - destruct (dispatch e labels s) as [[rb| |err] s1];
      eexists; (split; [reflexivity|]); repeat split.
Qed.

Lemma set_ansCache_same (s : state) : set_ansCache (ansCache s) s = s.
Proof. destruct s; reflexivity. Qed.

(** Outside two-label queries the dispatcher leaves the answer cache
    alone. *)
Lemma answer_not2 (e : env) (msg : Message) (q : Question) (qn : string)
    (labels : list string) (s : state) :
  (List.length labels =? 2)%nat = false ->
  ansCache (snd (answer e msg q qn labels s)) = ansCache s.
Proof.
  intros H. unfold answer. rewrite H.
  pose proof (dispatch_ansCache e labels s) as Hd.
  destruct (dispatch e labels s) as [[rb| |err] s1]; exact Hd.
Qed.

(** A two-label query that hits. *)
Lemma answer_hit (e : env) (msg : Message) (q : Question) (qn l0 l1 : string)
    (s : state) (ca : string) (cache' : Lru.TwoQueueCache string) :
  Lru.Get qn (ansCache s) = (Some ca, cache') ->
  answer e msg q qn [l0; l1] s
  = (Some (respond msg q (Some ca)), set_ansCache cache' s).
Proof. intros H. unfold answer. cbn [List.length Nat.eqb]. rewrite H. reflexivity. Qed.

(** A two-label query that misses: the reverse handler runs on the state
    as it was. *)
Lemma answer_miss (e : env) (msg : Message) (q : Question) (qn l0 l1 : string)
    (s : state) :
  fst (Lru.Get qn (ansCache s)) = None ->
  answer e msg q qn [l0; l1] s
  = match handleReverse e l0 l1 s with
    | (Err _, s1) => (Some (respond msg q None), emit (EvLog "Error") s1)
    | (NoReply, s1) => (Some (respond msg q None), s1)
    | (Reply rb, s1) =>
        (Some (respond msg q (Some (Codec.b64_encode rb))),
         set_ansCache (Lru.Add qn (Codec.b64_encode rb) (ansCache s1)) s1)
    end.
Proof.
  intros H. unfold answer. cbn [List.length Nat.eqb].
  rewrite (LruFacts.Get_miss _ _ H), set_ansCache_same. reflexivity.
Qed.

(** No handler reads the answer cache: with another cache in the state a
    handler returns the same and changes the rest of the state alike. *)
Lemma handleNewConn_ignores_ansCache (e : env) (l : string)
    (q' : Lru.TwoQueueCache string) (s : state) :
  handleNewConn e l (set_ansCache q' s)
  = (fst (handleNewConn e l s), set_ansCache q' (snd (handleNewConn e l s))).
Proof.
  destruct s as [dn m nid seen ans tr]. unfold handleNewConn.
  destruct (Strconv.ParseInt10 l) as [n|]; [|reflexivity]. cbv zeta.
  match goal with |- context [if ?b then _ else _] => destruct b end;
    [reflexivity|].
  cbn [set_ansCache seenTSCache]. destruct (Lru.Contains l seen);
    [reflexivity|].
  unfold newConn. destruct (dial e); reflexivity.
Qed.

Lemma handleForward_ignores_ansCache (e : env) (ctr payload id : string)
    (q' : Lru.TwoQueueCache string) (s : state) :
  handleForward e ctr payload id (set_ansCache q' s)
  = (fst (handleForward e ctr payload id s),
     set_ansCache q' (snd (handleForward e ctr payload id s))).
Proof.
  destruct s as [dn m nid seen ans tr]. unfold handleForward, getConn.
  destruct (Strconv.ParseUint ctr 36) as [cn|]; [|reflexivity].
  destruct (dec (GoStrings.ToUpper payload)) as [b|]; [|reflexivity].
  cbn [set_ansCache conns]. destruct (m !! id) as [x|]; [|reflexivity].
  destruct (cn =? nextFwd x); [|reflexivity]. srv_simpl.
  destruct (write_ok e); srv_simpl; reflexivity.
Qed.

Lemma handleReverse_ignores_ansCache (e : env) (ctr id : string)
    (q' : Lru.TwoQueueCache string) (s : state) :
  handleReverse e ctr id (set_ansCache q' s)
  = (fst (handleReverse e ctr id s),
     set_ansCache q' (snd (handleReverse e ctr id s))).
Proof.
  destruct s as [dn m nid seen ans tr]. unfold handleReverse, getConn.
  destruct (Strconv.ParseUint ctr 36) as [cn|]; [|reflexivity].
  cbn [set_ansCache conns]. destruct (m !! id) as [x|]; [|reflexivity].
  destruct (cn =? nextRev x); [|reflexivity]. srv_simpl.
  destruct (deadline_ok e); srv_simpl; [|reflexivity].
  destruct (List.length (take maxTXTLen (read_data e)) =? 0)%nat;
    [|reflexivity].
  destruct (read_err e); reflexivity.
Qed.

Lemma dispatch_ignores_ansCache (e : env) (labels : list string)
    (q' : Lru.TwoQueueCache string) (s : state) :
  dispatch e labels (set_ansCache q' s)
  = (fst (dispatch e labels s), set_ansCache q' (snd (dispatch e labels s))).
Proof.
  destruct labels as [|l0 [|l1 [|l2 [|l3 r]]]]; cbn [dispatch fst snd];
    auto using handleNewConn_ignores_ansCache,
               handleForward_ignores_ansCache,
               handleReverse_ignores_ansCache.
Qed.

(** Outside two-label queries the reply does not depend on what the answer
    cache holds. *)
Lemma answer_not2_any_cache (e : env) (msg : Message) (q : Question)
    (qn : string) (labels : list string) (q' : Lru.TwoQueueCache string)
    (s : state) :
  (List.length labels =? 2)%nat = false ->
  fst (answer e msg q qn labels (set_ansCache q' s))
  = fst (answer e msg q qn labels s).
Proof.
  intros H. unfold answer. rewrite H, dispatch_ignores_ansCache.
  destruct (dispatch e labels s) as [[rb| |err] s1]; reflexivity.
Qed.

End DispatchFacts.

(* ===================================================================== *)
(** * Facts about the client pumps *)
(* ===================================================================== *)

Module ClientFacts.
Import Client ClientRun.

(** [rand.Int63n] returns a value below its argument. *)
Lemma Int63n_range (n r st : Z) : Int63n n r = Some st -> 0 <= st < n.
Proof.
  unfold Int63n. destruct (Z.leb_spec n 0); [discriminate|].
  intros [= <-]. apply Z.mod_pos_bound. lia.
Qed.

(** Where the computed interval is positive, an empty reply does what the
    spec's [next_interval] says. *)
Lemma proxyBack_turn_empty (c : client) (ok : bool) (r : Z) :
  0 < next_interval (pollCur c) (pollMax c) ->
  exists st,
    proxyBack_turn c [] ok r
    = BackSleep (set_poll (next_interval (pollCur c) (pollMax c)) c) st /\
    0 <= st < next_interval (pollCur c) (pollMax c).
Proof.
  intros Hpos. unfold proxyBack_turn. cbn [List.length Nat.eqb negb].
  assert (Hcur : (if pollMax c <? scale_poll (pollCur c) then pollMax c
                  else scale_poll (pollCur c))
                 = next_interval (pollCur c) (pollMax c)).
  { unfold next_interval.
    destruct (Z.ltb_spec (pollMax c) (scale_poll (pollCur c))); lia. }
  rewrite Hcur.
  destruct (Int63n (next_interval (pollCur c) (pollMax c)) r) as [st|] eqn:Hr.
  - exists st. split; [reflexivity|]. apply (Int63n_range _ _ _ Hr).
  - unfold Int63n in Hr.
    destruct (Z.leb_spec (next_interval (pollCur c) (pollMax c)) 0);
      [lia|discriminate].
Qed.

(** Data resets the interval to [pollMin]. *)
Lemma proxyBack_turn_data (c : client) (ch : byte) (b : list byte) (r : Z) :
  exists c',
    proxyBack_turn c (ch :: b) true r = BackContinue c' /\
    pollCur c' = pollMin /\ pollMax c' = pollMax c.
Proof. eexists. split; [reflexivity|]. split; reflexivity. Qed.

(** The interval is never more than a nanosecond: it starts at zero, data
    sets it to [pollMin], and one and a half nanoseconds truncate to
    one. *)
Lemma reaches_pollCur (c0 c : client) :
  pollCur c0 = 0 -> reaches c0 c -> pollCur c = 0 \/ pollCur c = pollMin.
Proof.
  intros H0. induction 1 as [|c1 c2 b r _ IH Ht|c1 c2 b ok r st _ IH Ht].
  - left. exact H0.
  - right. unfold proxyBack_turn in Ht.
    destruct (negb (List.length b =? 0)%nat).
    + cbn [negb] in Ht. injection Ht as <-. reflexivity.
    + destruct (Int63n _ r); discriminate.
  - unfold proxyBack_turn in Ht.
    destruct (negb (List.length b =? 0)%nat).
    + destruct (negb ok); discriminate.
    + unfold Int63n in Ht.
      destruct IH as [IH|IH]; rewrite IH in Ht; unfold pollMin in *;
        change (scale_poll 0) with 0 in Ht;
        change (scale_poll 1) with 1 in Ht;
        repeat match type of Ht with
               | context [if ?b then _ else _] => destruct b eqn:?
               end;
        try discriminate; injection Ht as <- _; cbn [set_poll pollCur];
        lia.
Qed.

End ClientFacts.

(* ===================================================================== *)
(** * Facts about names on the wire *)
(* ===================================================================== *)

Module WireFacts.
Import Server Run Client Wire ServerFacts DispatchFacts.
Import StringFacts StrconvFacts CodecFacts.

Lemma payload_char_ok32 (i : N) :
  (i < 32)%N -> LabelCheck.payload_char_ok i = true.
Proof. apply (all_below 32). vm_compute. reflexivity. Qed.

Lemma chars32_dotless (l : list N) :
  Forall (fun i => (i < 32)%N) l ->
  LabelCheck.dotless (GoStrings.ToLower (Codec.chars_of Codec.encodeStd32 l))
  = true.
Proof.
  induction 1 as [|i l Hi _ IH]; [reflexivity|].
  unfold Codec.chars_of in *.
  cbn [List.map string_of_list_ascii GoStrings.ToLower LabelCheck.dotless].
  apply payload_char_ok32 in Hi. unfold LabelCheck.payload_char_ok in Hi.
  rewrite Hi, IH. reflexivity.
Qed.

(** The payload label has no dot of its own. *)
Lemma enc_dotless (p : list byte) :
  LabelCheck.dotless (GoStrings.ToLower (enc p)) = true.
Proof. apply chars32_dotless, b32_groups_lt. Qed.

(** A name made of a prefix and the parent domain passes the suffix
    check, and the dispatcher works on the lower-cased prefix. *)
Lemma name_in_domain (s : state) (q : Question) (p : string) :
  Name q = String.append p (domainName s) ->
  GoStrings.HasSuffix (Name q) (domainName s) = true /\
  qname_of s q = GoStrings.ToLower p /\
  labels_of s q = GoStrings.SplitDot (GoStrings.ToLower p).
Proof.
  intros H. unfold labels_of, qname_of. rewrite H.
  rewrite HasSuffix_app. rewrite TrimSuffix_app. repeat split.
Qed.

(** With one label or three there is no answer cache in the way. *)
Lemma answer_other (e : env) (msg : Message) (q : Question) (qn : string)
    (labels : list string) (s : state) :
  (List.length labels =? 2)%nat = false ->
  answer e msg q qn labels s
  = match dispatch e labels s with
    | (Err _, s1) => (Some (respond msg q None), emit (EvLog "Error") s1)
    | (NoReply, s1) => (Some (respond msg q None), s1)
    | (Reply rb, s1) => (Some (respond msg q (Some (Codec.b64_encode rb))), s1)
    end.
Proof.
  intros H. unfold answer. rewrite H.
  destruct (dispatch e labels s) as [[rb| |msg'] s1]; reflexivity.
Qed.

(** What the resolver hands the client for either kind of response. *)
Lemma txts_of_respond (msg : Message) (q : Question) (reply : option string) :
  Answers msg = [] ->
  txts_of (Some (respond msg q reply))
  = match reply with Some r => Some [r] | None => None end.
Proof.
  intros Ha. destruct reply as [r|]; unfold txts_of, respond;
    cbn [RCode Answers]; [|reflexivity].
  rewrite Ha. reflexivity.
Qed.

Lemma b64_encode_empty (rb : list byte) :
  String.length (Codec.b64_encode rb) = 0%nat -> rb = [].
Proof.
  intros H. pose proof (b64_encode_length rb) as Hl. rewrite H in Hl.
  unfold Codec.b64_EncodedLen in Hl.
  destruct rb as [|b rb]; [reflexivity|]. exfalso.
  cbn [List.length] in Hl.
  assert (1 <= (Z.of_nat (S (List.length rb)) * 8 + 5) / 6).
  { apply Z.div_le_lower_bound; lia. }
  lia.
Qed.

(** The client reads back the bytes the server encoded. *)
Lemma query_decodes (lookup : resolver) (c : client) (sd : string)
    (rb : list byte) :
  lookup (String.append sd (domain c)) = Some [Codec.b64_encode rb] ->
  query lookup c sd = Reply rb.
Proof.
  intros H. unfold query. rewrite H.
  destruct (Nat.eqb_spec (String.length (Codec.b64_encode rb)) 0) as [Hz|_].
  - rewrite (b64_encode_empty rb Hz). reflexivity.
  - unfold dec. rewrite b64_roundtrip. reflexivity.
Qed.

Lemma query_refused (lookup : resolver) (c : client) (sd : string) :
  lookup (String.append sd (domain c)) = None ->
  query lookup c sd = Err "querying".
Proof. intros H. unfold query. rewrite H. reflexivity. Qed.

Lemma dot_append (r : string) : String.append "." r = String "."%char r.
Proof. reflexivity. Qed.

Lemma ToLower_dot (r : string) :
  GoStrings.ToLower (String "."%char r) = String "."%char (GoStrings.ToLower r).
Proof. reflexivity. Qed.

Lemma bytes_of_nonempty (a : string) :
  a <> EmptyString -> (List.length (bytes_of a) =? 0)%nat = false.
Proof.
  destruct a as [|ch a]; [congruence|]. reflexivity.
Qed.

(** The name of a data query, cut where the dispatcher cuts it. *)
Lemma session_name (q : Question) (a id dom dn : string) :
  Name q = String.append (String.append a dom) "." ->
  String.append dom "." = String.append "." (String.append id dn) ->
  Name q = String.append (String.append a (String "."%char id)) dn.
Proof.
  intros Hn Hd.
  rewrite Hn, append_assoc, Hd, dot_append.
  rewrite append_assoc. rewrite append_cons.
  reflexivity.
Qed.

(** What the server makes of the query the forward pump builds for the
    chunk [chunk] under the counter [qn], when the session expects that
    counter. *)
Lemma forward_packet (e : env) (s : state) (dom id : string) (x : conn)
    (qn : Z) (chunk : list byte) (msg : Message) (q : Question) :
  Questions msg = [q] -> Type_ q = TypeTXT -> Response msg = false ->
  Name q
  = String.append
      (String.append
         (String.append (Strconv.FormatUint36 qn)
            (String.append "." (enc chunk))) dom) "." ->
  String.append dom "." = String.append "." (String.append id (domainName s)) ->
  LabelCheck.plain id = true ->
  conns s !! id = Some x ->
  nextFwd x = qn -> 0 <= qn < 2 ^ 64 ->
  handlePacket e (Some msg) s
  = if write_ok e
    then (Some (respond msg q (Some (Codec.b64_encode []))),
          after_forward e id x chunk s)
    else (Some (respond msg q None),
          emit (EvLog "Error") (after_forward e id x chunk s)).
Proof.
  intros Hq Ht Hr Hn Hd Hid Hx Hctr Hrange.
  pose proof (session_name q _ id _ _ Hn Hd) as Hname.
  destruct (name_in_domain s q _ Hname) as (Hsuf & Hqn & Hlab).
  pose proof (FormatUint36_plain qn) as Hplain.
  assert (Hlabels : labels_of s q
                    = [Strconv.FormatUint36 qn;
                       GoStrings.ToLower (enc chunk); id]).
  { rewrite Hlab.
    rewrite dot_append, append_assoc.
    rewrite append_cons.
    rewrite ToLower_app, ToLower_dot.
    rewrite ToLower_app, ToLower_dot.
    rewrite (plain_ToLower _ Hplain).
    rewrite (plain_ToLower _ Hid).
    rewrite (SplitDot_app_dot _ _ (plain_dotless _ Hplain)).
    rewrite (SplitDot_app_dot _ _ (enc_dotless chunk)).
    rewrite (SplitDot_dotless _ (plain_dotless _ Hid)).
    reflexivity. }
  rewrite (handlePacket_in_domain e msg q s Hq Ht Hr Hsuf), Hlabels.
  cbn [List.length Nat.leb].
  rewrite answer_other by reflexivity. cbn [dispatch].
  rewrite (handleForward_writes e _ _ id s x chunk);
    [destruct (write_ok e); reflexivity| |
     apply (proj2 (b32_roundtrip chunk))|exact Hx].
  rewrite Hctr. apply ParseUint_FormatUint36. exact Hrange.
Qed.

End WireFacts.

(* ===================================================================== *)
(** * The properties of the specification *)
(* ===================================================================== *)

Import Server Run ServerFacts DispatchFacts.

Example sample_id1 : Sample.id1 = "cit8nfnj3h9i"%string.
Proof. vm_compute. reflexivity. Qed.

Example sample_s1_lookup : conns Sample.s1 !! Sample.id1 = Some Sample.x1.
Proof. vm_compute. reflexivity. Qed.

Example sample_handshake :
  handleNewConn Sample.env_ok Sample.ts Sample.s0
  = (Reply (bytes_of Sample.id1), Sample.s1).
Proof. vm_compute. reflexivity. Qed.

(** C1 (the code departs from the claim).  A reverse request that reaches
    the read and gets zero bytes with an error that is not a timeout
    returns an error, so the dispatcher answers NXDOMAIN; but the handler
    does not call [deleteConn]: the session is still in the table and no
    close of its socket is emitted. *)
Theorem C1_reverse_read_error_keeps_session
    (e : env) (ctr id : string) (s : state) (x : conn) :
  Strconv.ParseUint ctr 36 = Some (nextRev x) ->
  conns s !! id = Some x ->
  deadline_ok e = true ->
  read_data e = [] ->
  read_err e = ErrOther ->
  fst (handleReverse e ctr id s) = Err "reading from network" /\
  is_Some (conns (snd (handleReverse e ctr id s)) !! id) /\
  existsb is_close (emitted s (snd (handleReverse e ctr id s))) = false.
Proof.
  intros Hp Hc Hd Hdata Herr.
  rewrite (handleReverse_reads e ctr id s x Hp Hc Hd). cbn [fst snd].
  split; [|split].
  - unfold reverse_result. rewrite Hdata, Herr. reflexivity.
  - cbn [after_reverse conns]. rewrite lookup_insert_eq. eexists; reflexivity.
  - rewrite (emitted_app s (after_reverse e id x s) _ eq_refl). reflexivity.
Qed.

Lemma C1_witness :
  fst (handleReverse Sample.env_broken "0" Sample.id1 Sample.s1)
  = Err "reading from network" /\
  is_Some (conns (snd (handleReverse Sample.env_broken "0" Sample.id1
                         Sample.s1)) !! Sample.id1) /\
  existsb is_close
    (emitted Sample.s1
       (snd (handleReverse Sample.env_broken "0" Sample.id1 Sample.s1)))
  = false.
Proof.
  apply (C1_reverse_read_error_keeps_session
           Sample.env_broken "0" Sample.id1 Sample.s1 Sample.x1);
    vm_compute; reflexivity.
Defined.

(** A forward request whose counter is not the session's [nextFwd] changes
    nothing: no write, no counter advance. *)
Lemma forward_mismatch (e : env) (ctr payload id : string) (s : state)
    (x : conn) (cn : Z) :
  conns s !! id = Some x -> Strconv.ParseUint ctr 36 = Some cn ->
  cn <> nextFwd x ->
  snd (handleForward e ctr payload id s) = s /\
  fst (handleForward e ctr payload id s) <> Reply [].
Proof.
  intros Hc Hp Hne.
  destruct (handleForward_cases e ctr payload id s)
    as [H|(y & b & Hp' & _ & Hc' & _)]; [exact H|].
  congruence.
Qed.

Lemma reverse_mismatch (e : env) (ctr id : string) (s : state)
    (x : conn) (cn : Z) :
  conns s !! id = Some x -> Strconv.ParseUint ctr 36 = Some cn ->
  cn <> nextRev x ->
  handleReverse e ctr id s = (NoReply, s).
Proof.
  intros Hc Hp Hne. unfold handleReverse, getConn. rewrite Hp, Hc.
  apply Z.eqb_neq in Hne. rewrite Hne. reflexivity.
Qed.

(** A forward request writes only when its counter is the session's
    [nextFwd], and then the counter has advanced by one (or the session is
    gone, after a failed write). *)
Lemma forward_write_in_order (e : env) (ctr payload id : string) (s : state) :
  existsb is_write (emitted s (snd (handleForward e ctr payload id s))) = true ->
  exists x,
    conns s !! id = Some x /\
    Strconv.ParseUint ctr 36 = Some (nextFwd x) /\
    fwd_of id (snd (handleForward e ctr payload id s))
    = if write_ok e then Some (wrap64 (nextFwd x + 1)) else None.
Proof.
  destruct (handleForward_cases e ctr payload id s)
    as [[-> _]|(x & b & Hp & _ & Hc & ->)].
  - rewrite emitted_same. discriminate.
  - intros _. exists x. split; [exact Hc|]. split; [exact Hp|].
    unfold fwd_of. cbn [snd after_forward conns]. destruct (write_ok e).
    + rewrite lookup_insert_eq. reflexivity.
    + rewrite lookup_delete_eq. reflexivity.
Qed.

Lemma reverse_read_in_order (e : env) (ctr id : string) (s : state) :
  existsb is_read (emitted s (snd (handleReverse e ctr id s))) = true ->
  exists x,
    conns s !! id = Some x /\
    Strconv.ParseUint ctr 36 = Some (nextRev x) /\
    rev_of id (snd (handleReverse e ctr id s)) = Some (wrap64 (nextRev x + 1)).
Proof.
  destruct (handleReverse_cases e ctr id s) as [->|(x & Hp & Hc & ->)].
  - rewrite emitted_same. discriminate.
  - destruct (deadline_ok e); cbn [snd].
    + intros _. exists x. split; [exact Hc|]. split; [exact Hp|].
      unfold rev_of. cbn [after_reverse conns].
      rewrite lookup_insert_eq. reflexivity.
    + rewrite (emitted_app s (after_deadline_error e id x s) _ eq_refl).
      discriminate.
Qed.

(** A forward request whose counter is the session's [nextFwd] and whose
    payload decodes is accepted: the bytes are written to the session's
    socket, once, and the counter advances by one (after a failed write
    the session is gone). *)
Lemma forward_accepted (e : env) (ctr payload id : string) (s : state)
    (x : conn) (b : list byte) :
  conns s !! id = Some x ->
  Strconv.ParseUint ctr 36 = Some (nextFwd x) ->
  dec (GoStrings.ToUpper payload) = Some b ->
  handleForward e ctr payload id s
  = (if write_ok e then Reply [] else Err "sending to network",
     after_forward e id x b s) /\
  List.filter is_write (emitted s (snd (handleForward e ctr payload id s)))
  = [EvWrite (c x) b (write_ok e)] /\
  fwd_of id (snd (handleForward e ctr payload id s))
  = (if write_ok e then Some (wrap64 (nextFwd x + 1)) else None) /\
  rev_of id (snd (handleForward e ctr payload id s))
  = (if write_ok e then Some (nextRev x) else None) /\
  fwd_written id (OpForward e ctr payload id) s = [nextFwd x].
Proof.
  intros Hc Hp Hb.
  pose proof (handleForward_writes e ctr payload id s x b Hp Hb Hc) as Hw.
  assert (Hem : emitted s (snd (handleForward e ctr payload id s))
                = [EvUpdateLast (c x) (now0 e);
                   EvWrite (c x) b (write_ok e);
                   if write_ok e then EvUpdateLast (c x) (now1 e)
                   else EvClose (c x)]).
  { rewrite Hw. apply emitted_app. reflexivity. }
  split; [exact Hw|]. split; [|split; [|split]].
  - rewrite Hem. destruct (write_ok e); reflexivity.
  - rewrite Hw. unfold fwd_of. cbn [snd after_forward conns].
    destruct (write_ok e).
    + rewrite lookup_insert_eq. reflexivity.
    + rewrite lookup_delete_eq. reflexivity.
  - rewrite Hw. unfold rev_of. cbn [snd after_forward conns].
    destruct (write_ok e).
    + rewrite lookup_insert_eq. reflexivity.
    + rewrite lookup_delete_eq. reflexivity.
  - unfold fwd_written. cbn [step]. rewrite Hem, String.eqb_refl.
    unfold counter_of. rewrite Hp.
    destruct (write_ok e); reflexivity.
Qed.

(** A reverse request whose counter is the session's [nextRev] is
    accepted: when the read deadline can be set, the session's socket is
    read, once, and the counter advances by one. *)
Lemma reverse_accepted (e : env) (ctr id : string) (s : state) (x : conn) :
  conns s !! id = Some x ->
  Strconv.ParseUint ctr 36 = Some (nextRev x) ->
  deadline_ok e = true ->
  handleReverse e ctr id s = (reverse_result e, after_reverse e id x s) /\
  List.filter is_read (emitted s (snd (handleReverse e ctr id s)))
  = [EvRead (c x) (List.length (take maxTXTLen (read_data e))) (read_err e)] /\
  rev_of id (snd (handleReverse e ctr id s)) = Some (wrap64 (nextRev x + 1)) /\
  fwd_of id (snd (handleReverse e ctr id s)) = Some (nextFwd x) /\
  rev_read id (OpReverse e ctr id) s = [nextRev x].
Proof.
  intros Hc Hp Hd.
  pose proof (handleReverse_reads e ctr id s x Hp Hc Hd) as Hr.
  assert (Hem : emitted s (snd (handleReverse e ctr id s))
                = [EvSetReadDeadline (c x) (now0 e + readWait) true;
                   EvUpdateLast (c x) (now1 e);
                   EvRead (c x) (List.length (take maxTXTLen (read_data e)))
                          (read_err e);
                   EvUpdateLast (c x) (now2 e)]).
  { rewrite Hr. apply emitted_app. reflexivity. }
  split; [exact Hr|]. split; [|split; [|split]].
  - rewrite Hem. reflexivity.
  - rewrite Hr. unfold rev_of. cbn [snd after_reverse conns].
    rewrite lookup_insert_eq. reflexivity.
  - rewrite Hr. unfold fwd_of. cbn [snd after_reverse conns].
    rewrite lookup_insert_eq. reflexivity.
  - unfold rev_read. cbn [step]. rewrite Hem, String.eqb_refl.
    unfold counter_of. rewrite Hp. reflexivity.
Qed.

(** C2.  Take a session whose counters are zero, as [newConn] makes it, and
    any run of handshakes, forward requests, reverse requests and pruner
    sweeps in which the session's id is not handed out again.  The
    counters of the forward requests for the session that wrote to the
    upstream are 0, 1, 2, ... in order (as [uint64] values), and so are
    the counters of the reverse requests that read; the two directions do
    not interfere.  In any state, a forward request writes only if its
    counter is the session's [nextFwd], which then advances by one, and a
    request whose counter differs from the session's next counter leaves
    the whole state as it was: no upstream I/O, no counter advance.  The
    same holds for reverse requests, reads and [nextRev].  And the request
    whose counter is the session's next one is served: a forward request
    with a payload that decodes writes exactly the decoded bytes to the
    session's socket, once, and [nextFwd] advances by one while [nextRev]
    stays (a failed write deletes the session instead); a reverse request
    for which the read deadline can be set reads the socket, once, and
    [nextRev] advances by one while [nextFwd] stays. *)
Theorem C2_counters_in_order
    (id : string) (s : state) (x : conn) (ops : list op) :
  conns s !! id = Some x -> nextFwd x = 0 -> nextRev x = 0 ->
  never_reissued id ops s = true ->
  fwd_counters id ops s = counting (List.length (fwd_counters id ops s)) /\
  rev_counters id ops s = counting (List.length (rev_counters id ops s)) /\
  (forall e ctr payload t,
      existsb is_write (emitted t (snd (handleForward e ctr payload id t)))
      = true ->
      exists y,
        conns t !! id = Some y /\
        Strconv.ParseUint ctr 36 = Some (nextFwd y) /\
        fwd_of id (snd (handleForward e ctr payload id t))
        = if write_ok e then Some (wrap64 (nextFwd y + 1)) else None) /\
  (forall e ctr t,
      existsb is_read (emitted t (snd (handleReverse e ctr id t))) = true ->
      exists y,
        conns t !! id = Some y /\
        Strconv.ParseUint ctr 36 = Some (nextRev y) /\
        rev_of id (snd (handleReverse e ctr id t))
        = Some (wrap64 (nextRev y + 1))) /\
  (forall e ctr payload t y cn,
      conns t !! id = Some y -> Strconv.ParseUint ctr 36 = Some cn ->
      cn <> nextFwd y ->
      snd (handleForward e ctr payload id t) = t) /\
  (forall e ctr t y cn,
      conns t !! id = Some y -> Strconv.ParseUint ctr 36 = Some cn ->
      cn <> nextRev y ->
      snd (handleReverse e ctr id t) = t) /\
  (forall e ctr payload t y b,
      conns t !! id = Some y ->
      Strconv.ParseUint ctr 36 = Some (nextFwd y) ->
      dec (GoStrings.ToUpper payload) = Some b ->
      handleForward e ctr payload id t
      = (if write_ok e then Reply [] else Err "sending to network",
         after_forward e id y b t) /\
      List.filter is_write
        (emitted t (snd (handleForward e ctr payload id t)))
      = [EvWrite (c y) b (write_ok e)] /\
      fwd_of id (snd (handleForward e ctr payload id t))
      = (if write_ok e then Some (wrap64 (nextFwd y + 1)) else None) /\
      rev_of id (snd (handleForward e ctr payload id t))
      = (if write_ok e then Some (nextRev y) else None) /\
      fwd_written id (OpForward e ctr payload id) t = [nextFwd y]) /\
  (forall e ctr t y,
      conns t !! id = Some y ->
      Strconv.ParseUint ctr 36 = Some (nextRev y) ->
      deadline_ok e = true ->
      handleReverse e ctr id t = (reverse_result e, after_reverse e id y t) /\
      List.filter is_read (emitted t (snd (handleReverse e ctr id t)))
      = [EvRead (c y) (List.length (take maxTXTLen (read_data e)))
                (read_err e)] /\
      rev_of id (snd (handleReverse e ctr id t))
      = Some (wrap64 (nextRev y + 1)) /\
      fwd_of id (snd (handleReverse e ctr id t)) = Some (nextFwd y) /\
      rev_read id (OpReverse e ctr id) t = [nextRev y]).
Proof.
  intros Hc Hf Hr Hnr.
  split; [|split; [|split; [|split; [|split; [|split; [|split]]]]]].
  - destruct (fwd_counters_count id ops s 0 Hnr) as [k Hk].
    { left. unfold fwd_of. rewrite Hc, Hf. reflexivity. }
    exact (counting_length _ _ Hk).
  - destruct (rev_counters_count id ops s 0 Hnr) as [k Hk].
    { left. unfold rev_of. rewrite Hc, Hr. reflexivity. }
    exact (counting_length _ _ Hk).
  - intros e ctr payload t. apply forward_write_in_order.
  - intros e ctr t. apply reverse_read_in_order.
  - intros e ctr payload t y cn Hy Hp Hne.
    apply (forward_mismatch e ctr payload id t y cn Hy Hp Hne).
  - intros e ctr t y cn Hy Hp Hne.
    rewrite (reverse_mismatch e ctr id t y cn Hy Hp Hne). reflexivity.
  - intros e ctr payload t y b. apply forward_accepted.
  - intros e ctr t y. apply reverse_accepted.
Qed.

Example sample_run_counters :
  fwd_counters Sample.id1 Sample.ops1 Sample.s1 = [0; 1] /\
  rev_counters Sample.id1 Sample.ops1 Sample.s1 = [0; 1].
Proof. vm_compute. split; reflexivity. Qed.

Lemma C2_witness :
  fwd_counters Sample.id1 Sample.ops1 Sample.s1
  = counting (List.length (fwd_counters Sample.id1 Sample.ops1 Sample.s1)) /\
  rev_counters Sample.id1 Sample.ops1 Sample.s1
  = counting (List.length (rev_counters Sample.id1 Sample.ops1 Sample.s1)) /\
  List.filter is_write
    (emitted Sample.s1
       (snd (handleForward Sample.env_ok "0" "nbswy3dp" Sample.id1
               Sample.s1)))
  = [EvWrite 7 (bytes_of "hello") true] /\
  fwd_of Sample.id1
    (snd (handleForward Sample.env_ok "0" "nbswy3dp" Sample.id1 Sample.s1))
  = Some 1 /\
  List.filter is_read
    (emitted Sample.s1
       (snd (handleReverse Sample.env_ok "0" Sample.id1 Sample.s1)))
  = [EvRead 7 5 ErrNone] /\
  rev_of Sample.id1
    (snd (handleReverse Sample.env_ok "0" Sample.id1 Sample.s1))
  = Some 1.
Proof.
  destruct (C2_counters_in_order Sample.id1 Sample.s1 Sample.x1 Sample.ops1)
    as (H1 & H2 & _ & _ & _ & _ & HF & HR); try (vm_compute; reflexivity).
  destruct (HF Sample.env_ok "0"%string "nbswy3dp"%string Sample.s1 Sample.x1
              (bytes_of "hello"))
    as (_ & Hw & Hf & _); try (vm_compute; reflexivity).
  destruct (HR Sample.env_ok "0"%string Sample.s1 Sample.x1)
    as (_ & Hr & Hn & _); try (vm_compute; reflexivity).
  repeat split; assumption.
Defined.

(** C3 (the code departs from the claim).  For a message with one TXT
    question that is not a response: the suffix test is
    [strings.HasSuffix] on the name as it came, the byte-for-byte "ends
    with", so letter case matters in the parent domain; the very next
    statement lower-cases what is left of the name.  A name that fails
    the test is dropped without a reply, without a log line and without
    any change of state, and that includes every name that ends with the
    parent domain only up to letter case.  A name that passes is handed
    on whatever its label count (answered with up to three labels,
    logged and dropped with more), and only the part before the suffix
    is lower-cased: there, letter case makes no difference to the
    labels. *)
Theorem C3_suffix_is_case_sensitive
    (e : env) (msg : Message) (q : Question) (s : state) :
  Questions msg = [q] -> Type_ q = TypeTXT -> Response msg = false ->
  (GoStrings.HasSuffix (Name q) (domainName s) = true <->
   exists p, Name q = String.append p (domainName s)) /\
  (GoStrings.HasSuffix (Name q) (domainName s) = false ->
   handlePacket e (Some msg) s = (None, s)) /\
  (GoStrings.HasSuffix (GoStrings.ToLower (Name q))
     (GoStrings.ToLower (domainName s)) = true ->
   GoStrings.HasSuffix (Name q) (domainName s) = false ->
   handlePacket e (Some msg) s = (None, s)) /\
  (GoStrings.HasSuffix (Name q) (domainName s) = true ->
   handlePacket e (Some msg) s
   = if (List.length (labels_of s q) <=? 3)%nat
     then answer e msg q (qname_of s q) (labels_of s q) s
     else (None, emit (EvLog "Too many labels") s)) /\
  (GoStrings.HasSuffix (Name q) (domainName s) = true ->
   (List.length (labels_of s q) <= 3)%nat ->
   exists r, fst (handlePacket e (Some msg) s) = Some r /\
             Response r = true /\ ID r = ID msg) /\
  (forall p,
      Name q = String.append p (domainName s) ->
      qname_of s q = GoStrings.ToLower p /\
      labels_of s q = GoStrings.SplitDot (GoStrings.ToLower p) /\
      forall q',
        Name q' = String.append (GoStrings.ToLower p) (domainName s) ->
        qname_of s q' = qname_of s q /\ labels_of s q' = labels_of s q).
Proof.
  intros Hq Ht Hr. split; [apply StringFacts.HasSuffix_spec|].
  split; [apply handlePacket_outside; assumption|].
  split; [intros _; apply handlePacket_outside; assumption|].
  split; [apply handlePacket_in_domain; assumption|]. split.
  - intros Hs Hl. rewrite (handlePacket_in_domain e msg q s Hq Ht Hr Hs).
    apply Nat.leb_le in Hl. rewrite Hl.
    destruct (answer_replies e msg q (qname_of s q) (labels_of s q) s)
      as (r & H1 & H2 & _ & H3).
    exists r. auto.
  - intros p Hn. unfold labels_of, qname_of.
    rewrite Hn, StringFacts.TrimSuffix_app. repeat split.
    + rewrite H, StringFacts.TrimSuffix_app. apply StringFacts.ToLower_idem.
    + rewrite H, StringFacts.TrimSuffix_app, StringFacts.ToLower_idem.
      reflexivity.
Qed.

Lemma C3_witness :
  handlePacket Sample.env_ok
    (Some (Sample.query "1700000000000000000.EXAMPLE.COM.")) Sample.s0
  = (None, Sample.s0) /\
  exists r,
    fst (handlePacket Sample.env_ok
           (Some (Sample.query "1700000000000000000.example.com."))
           Sample.s0) = Some r /\
    Response r = true /\ ID r = 4242.
Proof.
  destruct (C3_suffix_is_case_sensitive Sample.env_ok
              (Sample.query "1700000000000000000.EXAMPLE.COM.")
              (Sample.question "1700000000000000000.EXAMPLE.COM.")
              Sample.s0 eq_refl eq_refl eq_refl) as (_ & _ & Hdrop & _).
  destruct (C3_suffix_is_case_sensitive Sample.env_ok
              (Sample.query "1700000000000000000.example.com.")
              (Sample.question "1700000000000000000.example.com.")
              Sample.s0 eq_refl eq_refl eq_refl) as (_ & _ & _ & _ & H & _).
  split.
  - apply Hdrop; vm_compute; reflexivity.
  - apply H.
    + vm_compute. reflexivity.
    + vm_compute. lia.
Defined.

(** The failing input of C3, evaluated: the name below ends with the
    parent domain up to letter case, and the dispatcher drops it; the same
    name in lower case is answered with the new session id. *)
Example suffix_case_sample :
  GoStrings.HasSuffix
    (GoStrings.ToLower "1700000000000000000.EXAMPLE.COM.")
    (GoStrings.ToLower (domainName Sample.s0)) = true /\
  handlePacket Sample.env_ok
    (Some (Sample.query "1700000000000000000.EXAMPLE.COM.")) Sample.s0
  = (None, Sample.s0) /\
  handlePacket Sample.env_ok
    (Some (Sample.query "1700000000000000000.example.com.")) Sample.s0
  = (Some (respond (Sample.query "1700000000000000000.example.com.")
                   (Sample.question "1700000000000000000.example.com.")
                   (Some (Codec.b64_encode (bytes_of Sample.id1)))),
     Sample.s1).
Proof. vm_compute. repeat split; reflexivity. Qed.

(** C4, as the code has it.  A forward or reverse request that reaches the
    upstream I/O updates [last] right before the attempt.  The reverse
    handler updates it again right after the read, whatever the read
    returned; the forward handler updates it again only after a write that
    succeeded: after a failed write it deletes the session (closing the
    socket) and [last] is not touched again. *)
Theorem C4_last_activity_around_io
    (e : env) (ctrF ctrR payload id : string) (s : state) (x : conn)
    (b : list byte) :
  Strconv.ParseUint ctrF 36 = Some (nextFwd x) ->
  Strconv.ParseUint ctrR 36 = Some (nextRev x) ->
  dec (GoStrings.ToUpper payload) = Some b ->
  conns s !! id = Some x ->
  deadline_ok e = true ->
  emitted s (snd (handleForward e ctrF payload id s))
  = [EvUpdateLast (c x) (now0 e);
     EvWrite (c x) b (write_ok e);
     if write_ok e then EvUpdateLast (c x) (now1 e) else EvClose (c x)] /\
  around_io None (emitted s (snd (handleForward e ctrF payload id s)))
  = write_ok e /\
  (last <$> conns (snd (handleForward e ctrF payload id s)) !! id)
  = (if write_ok e then Some (now1 e) else None) /\
  emitted s (snd (handleReverse e ctrR id s))
  = [EvSetReadDeadline (c x) (now0 e + readWait) true;
     EvUpdateLast (c x) (now1 e);
     EvRead (c x) (List.length (take maxTXTLen (read_data e))) (read_err e);
     EvUpdateLast (c x) (now2 e)] /\
  around_io None (emitted s (snd (handleReverse e ctrR id s))) = true /\
  (last <$> conns (snd (handleReverse e ctrR id s)) !! id) = Some (now2 e).
Proof.
  intros HpF HpR Hb Hc Hd.
  rewrite (handleForward_writes e ctrF payload id s x b HpF Hb Hc).
  rewrite (handleReverse_reads e ctrR id s x HpR Hc Hd). cbn [snd].
  rewrite (emitted_app s (after_forward e id x b s) _ eq_refl).
  rewrite (emitted_app s (after_reverse e id x s) _ eq_refl).
  cbn [around_io io_sock is_update andb after_forward after_reverse conns].
  rewrite !Nat.eqb_refl. cbn [andb].
  repeat apply conj; try reflexivity.
  - destruct (write_ok e); cbn [is_update]; rewrite ?Nat.eqb_refl; reflexivity.
  - destruct (write_ok e).
    + rewrite lookup_insert_eq. reflexivity.
    + rewrite lookup_delete_eq. reflexivity.
  - rewrite lookup_insert_eq. reflexivity.
Qed.

Lemma C4_witness :
  around_io None
    (emitted Sample.s1
       (snd (handleForward Sample.env_ok "0" "nbswy3dp" Sample.id1 Sample.s1)))
  = true /\
  around_io None
    (emitted Sample.s1
       (snd (handleReverse Sample.env_ok "0" Sample.id1 Sample.s1)))
  = true.
Proof.
  destruct (C4_last_activity_around_io Sample.env_ok "0" "0" "nbswy3dp"
              Sample.id1 Sample.s1 Sample.x1 (bytes_of "hello")
              eq_refl eq_refl eq_refl eq_refl eq_refl)
    as (_ & H1 & _ & _ & H2 & _).
  split; [exact H1|exact H2].
Defined.

(** C4 as stated fails: a forward request whose write returns an error.
    [last] is updated before the write; what follows the write is the
    close of the socket, not an update. *)
Lemma C4_counterexample :
  emitted Sample.s1
    (snd (handleForward Sample.env_broken "0" "nbswy3dp" Sample.id1
            Sample.s1))
  = [EvUpdateLast 7 1700000000000000010;
     EvWrite 7 (bytes_of "hello") false;
     EvClose 7] /\
  around_io None
    (emitted Sample.s1
       (snd (handleForward Sample.env_broken "0" "nbswy3dp" Sample.id1
               Sample.s1)))
  = false.
Proof. vm_compute. split; reflexivity. Qed.

(** The dispatcher turns "no reply, no error" from the handshake handler
    into NXDOMAIN and changes nothing. *)
Lemma answer_newconn_noreply (e : env) (msg : Message) (q : Question)
    (l : string) (s : state) :
  handleNewConn e l s = (NoReply, s) ->
  answer e msg q l [l] s = (Some (respond msg q None), s).
Proof. intros H. unfold answer. cbn. rewrite H. reflexivity. Qed.

(** The dispatcher turns an error from the handshake handler into
    NXDOMAIN and a log line. *)
Lemma answer_newconn_error (e : env) (msg : Message) (q : Question)
    (l why : string) (s : state) :
  handleNewConn e l s = (Err why, s) ->
  answer e msg q l [l] s
  = (Some (respond msg q None), emit (EvLog "Error") s).
Proof. intros H. unfold answer. cbn. rewrite H. reflexivity. Qed.

(** C5, as the code has it.  The replay check comes after the parse and
    the window check.  A handshake whose timestamp is within 24 hours of
    the clock and whose string is in the seen-timestamp cache returns no
    reply and no error and leaves the state untouched (nothing dialed, no
    session created); the dispatcher answers NXDOMAIN.  In particular, of
    two identical handshakes with an in-window timestamp that was not seen
    before, the first, when the dial works, returns the id taken from
    [connNextID] and stores the session, and the second changes nothing.
    A handshake whose string is in the cache and whose timestamp is more
    than 24 hours off the clock (and less than 2^63 nanoseconds before it)
    returns the window error.  Whatever the timestamp, a handshake whose
    string is in the cache leaves the handler's state as it was, and the
    dispatcher answers NXDOMAIN with the session table and the id counter
    unchanged and nothing but, after an error, a log line added to the
    trace: nothing is dialed. *)
Theorem C5_replay_in_window
    (e1 e2 : env) (l : string) (n : Z) (sock : nat) (s : state)
    (msg : Message) (q : Question) :
  Strconv.ParseInt10 l = Some n ->
  in_window n (now0 e1) -> in_window n (now0 e2) ->
  0 < Lru.size (seenTSCache s) ->
  Lru.Contains l (seenTSCache s) = false ->
  dial e1 = Some sock ->
  (forall e' s',
      in_window n (now0 e') -> Lru.Contains l (seenTSCache s') = true ->
      handleNewConn e' l s' = (NoReply, s') /\
      answer e' msg q l [l] s' = (Some (respond msg q None), s')) /\
  RCode (respond msg q None) = RCodeNameError /\
  Answers (respond msg q None) = Answers msg /\
  handleNewConn e1 l s
  = (Reply (bytes_of (Strconv.FormatUint36 (connNextID s))),
     after_newconn e1 l sock s) /\
  conns (after_newconn e1 l sock s) !! Strconv.FormatUint36 (connNextID s)
  = Some (fresh_conn e1 sock) /\
  handleNewConn e2 l (after_newconn e1 l sock s)
  = (NoReply, after_newconn e1 l sock s) /\
  answer e2 msg q l [l] (after_newconn e1 l sock s)
  = (Some (respond msg q None), after_newconn e1 l sock s) /\
  (forall e' s',
      Lru.Contains l (seenTSCache s') = true ->
      maxTSOff < Z.abs (n - now0 e') -> - 2 ^ 63 < n - now0 e' ->
      handleNewConn e' l s' = (Err "timestamp difference is too big", s') /\
      answer e' msg q l [l] s'
      = (Some (respond msg q None), emit (EvLog "Error") s')) /\
  (forall e' s' l',
      Lru.Contains l' (seenTSCache s') = true ->
      snd (handleNewConn e' l' s') = s' /\
      (fst (handleNewConn e' l' s') = NoReply \/
       fst (handleNewConn e' l' s') = Err "parsing timestamp" \/
       fst (handleNewConn e' l' s') = Err "timestamp difference is too big") /\
      fst (answer e' msg q l' [l'] s') = Some (respond msg q None) /\
      conns (snd (answer e' msg q l' [l'] s')) = conns s' /\
      connNextID (snd (answer e' msg q l' [l'] s')) = connNextID s' /\
      (emitted s' (snd (answer e' msg q l' [l'] s')) = [] \/
       emitted s' (snd (answer e' msg q l' [l'] s')) = [EvLog "Error"])).
Proof.
  intros Hp Hw1 Hw2 Hsize Hnew Hd.
  assert (Hseen : forall e' s',
             in_window n (now0 e') -> Lru.Contains l (seenTSCache s') = true ->
             handleNewConn e' l s' = (NoReply, s')).
  { intros e' s' Hw Hc. apply (handleNewConn_seen e' l s' n Hp Hw Hc). }
  assert (Hin : Lru.Contains l (seenTSCache (after_newconn e1 l sock s)) = true).
  { cbn [after_newconn seenTSCache]. apply LruFacts.Contains_Add. exact Hsize. }
  split; [|split; [|split; [|split; [|split; [|split; [|split; [|split]]]]]]];
    try reflexivity.
  - intros e' s' Hw Hc. split; [apply Hseen; assumption|].
    apply answer_newconn_noreply, Hseen; assumption.
  - apply (handleNewConn_fresh e1 l s n sock Hp Hw1 Hnew Hd).
  - cbn [after_newconn conns]. apply lookup_insert_eq.
  - apply Hseen; assumption.
  - apply answer_newconn_noreply, Hseen; assumption.
  - intros e' s' Hc Hout Hlo.
    assert (He : handleNewConn e' l s'
                 = (Err "timestamp difference is too big", s')).
    { unfold handleNewConn. rewrite Hp. cbv zeta.
      rewrite (window_check_rejects _ _ Hout Hlo). reflexivity. }
    split; [exact He|]. apply (answer_newconn_error _ _ _ _ _ _ He).
  - intros e' s' l' Hc.
    destruct (handleNewConn_seen_any e' l' s' Hc) as [Hs Hres].
    split; [exact Hs|]. split; [exact Hres|].
    destruct (handleNewConn e' l' s') as [res t] eqn:Hh.
    cbn [fst snd] in Hs, Hres. subst t.
    destruct Hres as [-> | [-> | ->]].
    + rewrite (answer_newconn_noreply _ _ _ _ _ Hh). cbn [fst snd].
      rewrite emitted_same. auto.
    + rewrite (answer_newconn_error _ _ _ _ _ _ Hh). cbn [fst snd].
      rewrite (emitted_app s' _ [EvLog "Error"]) by reflexivity. auto.
    + rewrite (answer_newconn_error _ _ _ _ _ _ Hh). cbn [fst snd].
      rewrite (emitted_app s' _ [EvLog "Error"]) by reflexivity. auto.
Qed.

Lemma C5_witness :
  handleNewConn Sample.env_ok Sample.ts Sample.s0
  = (Reply (bytes_of Sample.id1), Sample.s1) /\
  handleNewConn Sample.env_broken Sample.ts Sample.s1 = (NoReply, Sample.s1) /\
  handleNewConn Sample.env_late Sample.ts Sample.s1
  = (Err "timestamp difference is too big", Sample.s1).
Proof.
  destruct (C5_replay_in_window Sample.env_ok Sample.env_broken Sample.ts
              1700000000000000000 7 Sample.s0
              (Sample.query "1700000000000000000.example.com.")
              (Sample.question "1700000000000000000.example.com."))
    as (_ & _ & _ & H1 & _ & H2 & _ & H3 & _).
  - vm_compute. reflexivity.
  - unfold in_window. vm_compute. discriminate.
  - unfold in_window. vm_compute. discriminate.
  - vm_compute. reflexivity.
  - vm_compute. reflexivity.
  - reflexivity.
  - split; [exact H1|]. split; [exact H2|].
    apply (H3 Sample.env_late Sample.s1); vm_compute; reflexivity.
Defined.

(** C5 as stated fails: the timestamp below is in the seen-timestamp cache
    (the first handshake put it there), and the same handshake twenty-five
    hours later returns an error, not "no reply, no error".  The state is
    unchanged all the same. *)
Lemma C5_counterexample :
  handleNewConn Sample.env_ok Sample.ts Sample.s0
  = (Reply (bytes_of Sample.id1), Sample.s1) /\
  Lru.Contains Sample.ts (seenTSCache Sample.s1) = true /\
  handleNewConn Sample.env_late Sample.ts Sample.s1
  = (Err "timestamp difference is too big", Sample.s1).
Proof. vm_compute. repeat split; reflexivity. Qed.

(** C6.  For a TXT query inside the parent domain: with two labels, a hit
    in the answer cache is sent back as it is and nothing else changes (no
    handler runs); on a miss the reverse handler runs on the unchanged
    state and, when it produces a reply, the base64 text is stored under
    the stripped, lower-cased name; when it produces none, the cache stays
    as it was.  With any other number of labels the answer cache after the
    packet is the answer cache before it (nothing is inserted, no entry is
    refreshed), and the reply is the same whatever the cache holds (nothing
    is looked up). *)
Theorem C6_answer_cache_two_labels_only
    (e : env) (msg : Message) (q : Question) (s : state) :
  Questions msg = [q] -> Type_ q = TypeTXT -> Response msg = false ->
  GoStrings.HasSuffix (Name q) (domainName s) = true ->
  match labels_of s q with
  | [l0; l1] =>
      match Lru.Get (qname_of s q) (ansCache s) with
      | (Some ca, cache') =>
          handlePacket e (Some msg) s
          = (Some (respond msg q (Some ca)), set_ansCache cache' s)
      | (None, _) =>
          match handleReverse e l0 l1 s with
          | (Reply rb, s1) =>
              ansCache s1 = ansCache s /\
              handlePacket e (Some msg) s
              = (Some (respond msg q (Some (Codec.b64_encode rb))),
                 set_ansCache
                   (Lru.Add (qname_of s q) (Codec.b64_encode rb) (ansCache s))
                   s1)
          | (_, s1) =>
              ansCache (snd (handlePacket e (Some msg) s)) = ansCache s
          end
      end
  | _ =>
      ansCache (snd (handlePacket e (Some msg) s)) = ansCache s /\
      forall cache' : Lru.TwoQueueCache string,
        fst (handlePacket e (Some msg) (set_ansCache cache' s))
        = fst (handlePacket e (Some msg) s)
  end.
Proof.
  intros Hq Ht Hr Hs.
  assert (Hany : forall cache' : Lru.TwoQueueCache string,
             handlePacket e (Some msg) (set_ansCache cache' s)
             = if (List.length (labels_of s q) <=? 3)%nat
               then answer e msg q (qname_of s q) (labels_of s q)
                           (set_ansCache cache' s)
               else (None, emit (EvLog "Too many labels")
                                (set_ansCache cache' s))).
  { intros cache'.
    apply (handlePacket_in_domain e msg q (set_ansCache cache' s) Hq Ht Hr Hs). }
  rewrite (handlePacket_in_domain e msg q s Hq Ht Hr Hs).
  destruct (labels_of s q) as [|l0 [|l1 [|l2 [|l3 r]]]];
    cbn [List.length Nat.leb] in *;
    try (split;
         [apply answer_not2; reflexivity
         |intros cache'; rewrite Hany;
          apply answer_not2_any_cache; reflexivity]);
    [|split; [reflexivity|intros cache'; rewrite Hany; reflexivity]].
  destruct (Lru.Get (qname_of s q) (ansCache s)) as [[ca|] cache'] eqn:Hg.
  - apply answer_hit. exact Hg.
  - rewrite answer_miss by (rewrite Hg; reflexivity).
    pose proof (handleReverse_ansCache e l0 l1 s) as Hc.
    destruct (handleReverse e l0 l1 s) as [[rb| |err] s1]; cbn [snd] in *.
    + split; [exact Hc|]. rewrite Hc. reflexivity.
    + exact Hc.
    + exact Hc.
Qed.

Lemma C6_witness :
  (ansCache (snd (handleReverse Sample.env_ok "0" Sample.id1 Sample.s1))
   = ansCache Sample.s1 /\
   handlePacket Sample.env_ok (Some (Sample.query Sample.poll_name)) Sample.s1
   = (Some (respond (Sample.query Sample.poll_name)
                    (Sample.question Sample.poll_name) (Some "d29ybGQ")),
      set_ansCache
        (Lru.Add "0.cit8nfnj3h9i" "d29ybGQ" (ansCache Sample.s1))
        (snd (handleReverse Sample.env_ok "0" Sample.id1 Sample.s1)))) /\
  handlePacket Sample.env_broken (Some (Sample.query Sample.poll_name))
    Sample.s2
  = (Some (respond (Sample.query Sample.poll_name)
                   (Sample.question Sample.poll_name) (Some "d29ybGQ")),
     set_ansCache (snd (Lru.Get "0.cit8nfnj3h9i" (ansCache Sample.s2)))
                  Sample.s2) /\
  ansCache (snd (handlePacket Sample.env_ok
                   (Some (Sample.query Sample.data_name)) Sample.s2))
  = ansCache Sample.s2.
Proof.
  split; [|split].
  - pose proof (C6_answer_cache_two_labels_only Sample.env_ok
                  (Sample.query Sample.poll_name)
                  (Sample.question Sample.poll_name) Sample.s1
                  eq_refl eq_refl eq_refl eq_refl) as H.
    vm_compute in H. vm_compute. exact H.
  - pose proof (C6_answer_cache_two_labels_only Sample.env_broken
                  (Sample.query Sample.poll_name)
                  (Sample.question Sample.poll_name) Sample.s2
                  eq_refl eq_refl eq_refl eq_refl) as H.
    vm_compute in H. vm_compute. exact H.
  - pose proof (C6_answer_cache_two_labels_only Sample.env_ok
                  (Sample.query Sample.data_name)
                  (Sample.question Sample.data_name) Sample.s2
                  eq_refl eq_refl eq_refl eq_refl) as H.
    vm_compute in H. vm_compute. exact (proj1 H).
Defined.

(** C7.  The encoded length of [n] bytes is the ceiling of [8n/5]; it is at
    most 63, the longest DNS label, exactly when [n] is at most 39, the
    length of the client's read buffer.  So every chunk the forward pump
    reads has at most 39 bytes and its base32 text fits one label. *)
Theorem C7_forward_window :
  (forall n : nat,
      5 * (Codec.b32_EncodedLen (Z.of_nat n) - 1) < 8 * Z.of_nat n
      <= 5 * Codec.b32_EncodedLen (Z.of_nat n)) /\
  (forall n : nat,
      Codec.b32_EncodedLen (Z.of_nat n) <= Z.of_nat Client.maxLabelLen <->
      (n <= Client.rBufLen)%nat) /\
  (forall (qn : Z) (avail : list byte),
      (List.length (fst (Client.proxyForward_query qn avail))
       <= Client.rBufLen)%nat /\
      Z.of_nat (String.length
                  (Client.enc (fst (Client.proxyForward_query qn avail))))
      = Codec.b32_EncodedLen
          (Z.of_nat (List.length (fst (Client.proxyForward_query qn avail)))) /\
      (String.length (Client.enc (fst (Client.proxyForward_query qn avail)))
       <= Client.maxLabelLen)%nat).
Proof.
  assert (Hceil : forall n : nat,
             5 * (Codec.b32_EncodedLen (Z.of_nat n) - 1) < 8 * Z.of_nat n
             <= 5 * Codec.b32_EncodedLen (Z.of_nat n)).
  { intros n. unfold Codec.b32_EncodedLen.
    generalize (Z.of_nat n). intros z. Z.div_mod_to_equations. lia. }
  assert (Hiff : forall n : nat,
             Codec.b32_EncodedLen (Z.of_nat n) <= Z.of_nat Client.maxLabelLen
             <-> (n <= Client.rBufLen)%nat).
  { intros n. specialize (Hceil n). unfold Client.maxLabelLen, Client.rBufLen.
    lia. }
  split; [exact Hceil|]. split; [exact Hiff|].
  intros qn avail.
  assert (Hlen : (List.length (fst (Client.proxyForward_query qn avail))
                  <= Client.rBufLen)%nat).
  { unfold Client.proxyForward_query, Client.stdin_Read.
    destruct (List.length (take Client.rBufLen avail) =? 0)%nat;
      cbn [fst]; rewrite length_take; lia. }
  split; [exact Hlen|].
  pose proof (CodecFacts.b32_encode_length
                (fst (Client.proxyForward_query qn avail))) as He.
  split; [exact He|].
  apply Hiff in Hlen. unfold Client.enc. lia.
Qed.

Example forward_query_hello :
  Client.proxyForward_query 0 (bytes_of "hello")
  = (bytes_of "hello", Some "0.NBSWY3DP"%string).
Proof. vm_compute. reflexivity. Qed.

(** C8 (the code departs from the claim).  Data resets the interval to
    [pollMin], as claimed.  But [Client] leaves [pollCur] at zero, so an
    empty reply before any data computes an interval of zero and
    [rand.Int63n] panics, whatever the maximum is; and from [pollMin], one
    nanosecond, the product with 1.5 truncates back to one nanosecond, so
    with the default maximum the pump sleeps zero nanoseconds and the
    interval never grows. *)
Theorem C8_poll_interval_stuck :
  (forall (dom : string) (pollmax r : Z) (ok : bool),
      Client.proxyBack_turn (Client.new_client dom pollmax) [] ok r
      = Client.BackPanic) /\
  (forall (c : Client.client) (ch : byte) (b : list byte) (r : Z),
      exists c',
        Client.proxyBack_turn c (ch :: b) true r = Client.BackContinue c' /\
        Client.pollCur c' = Client.pollMin /\
        Client.pollMax c' = Client.pollMax c) /\
  (forall (dom : string) (r : Z) (ok : bool),
      Client.proxyBack_turn
        (Client.set_poll Client.pollMin
           (Client.new_client dom ClientRun.default_pollMax)) [] ok r
      = Client.BackSleep
          (Client.set_poll Client.pollMin
             (Client.new_client dom ClientRun.default_pollMax)) 0).
Proof.
  split; [|split].
  - intros dom pollmax r ok. unfold Client.proxyBack_turn, Client.Int63n.
    cbn [List.length Nat.eqb negb Client.new_client Client.pollCur
         Client.pollMax].
    change (Client.scale_poll 0) with 0.
    destruct (Z.ltb_spec pollmax 0).
    + destruct (Z.leb_spec pollmax 0); [reflexivity|lia].
    + reflexivity.
  - intros c ch b r. apply ClientFacts.proxyBack_turn_data.
  - intros dom r ok. unfold Client.proxyBack_turn, Client.Int63n.
    cbn [List.length Nat.eqb negb Client.new_client Client.set_poll
         Client.pollCur Client.pollMax].
    change (Client.scale_poll Client.pollMin) with 1.
    change (ClientRun.default_pollMax <? 1) with false.
    cbn [Z.leb Z.compare]. rewrite Z.mod_1_r. reflexivity.
Qed.

(** C9.  A payload of at most 39 bytes survives the client's base32
    encoder and the server's decoder, which upper-cases the label first
    (also after the dispatcher lower-cased the whole name), and its text
    fits one DNS label; a reply of at most 189 bytes survives the server's
    base64 encoder and the client's decoder, and its text fits one TXT
    string. *)
Theorem C9_payload_roundtrip (p q : list byte) :
  (List.length p <= Client.rBufLen)%nat ->
  (List.length q <= Server.maxTXTLen)%nat ->
  Server.dec (GoStrings.ToUpper (Client.enc p)) = Some p /\
  Server.dec (GoStrings.ToUpper (GoStrings.ToLower (Client.enc p))) = Some p /\
  (String.length (Client.enc p) <= Client.maxLabelLen)%nat /\
  Client.dec (Codec.b64_encode q) = Some q /\
  (String.length (Codec.b64_encode q) <= 255)%nat.
Proof.
  intros Hp Hq. destruct (CodecFacts.b32_roundtrip p) as [H1 H2].
  split; [exact H1|]. split; [exact H2|]. split; [|split].
  - pose proof (CodecFacts.b32_encode_length p) as He.
    unfold Client.enc, Client.maxLabelLen, Client.rBufLen,
      Codec.b32_EncodedLen in *.
    assert ((Z.of_nat (List.length p) * 8 + 4) / 5 <= 63)
      by (Z.div_mod_to_equations; lia).
    lia.
  - apply CodecFacts.b64_roundtrip.
  - pose proof (CodecFacts.b64_encode_length q) as He.
    unfold Server.maxTXTLen, Codec.b64_EncodedLen in *.
    assert ((Z.of_nat (List.length q) * 8 + 5) / 6 <= 252)
      by (Z.div_mod_to_equations; lia).
    lia.
Qed.

Lemma C9_witness :
  Server.dec (GoStrings.ToUpper (Client.enc (bytes_of "hello")))
  = Some (bytes_of "hello") /\
  Server.dec (GoStrings.ToUpper
                (GoStrings.ToLower (Client.enc (bytes_of "hello"))))
  = Some (bytes_of "hello") /\
  (String.length (Client.enc (bytes_of "hello")) <= Client.maxLabelLen)%nat /\
  Client.dec (Codec.b64_encode (bytes_of "world")) = Some (bytes_of "world") /\
  (String.length (Codec.b64_encode (bytes_of "world")) <= 255)%nat.
Proof.
  apply (C9_payload_roundtrip (bytes_of "hello") (bytes_of "world"));
    vm_compute; lia.
Defined.

(** C10.  [newConn] stores the session with [last] at the zero time.  As
    long as no forward or reverse request addresses the session (other
    sessions may be created and used meanwhile), the first
    sweep of the pruner, whose marker is a clock reading and so after the
    zero time, removes it from the table and closes its socket, whenever
    the session was created. *)
Theorem C10_untouched_session_pruned
    (e : env) (s : state) (sock : nat) (ops : list op) (marker : Z) :
  dial e = Some sock ->
  all_elsewhere (Strconv.FormatUint36 (connNextID s)) ops (snd (newConn e s))
  = true ->
  zeroTime < marker ->
  fst (newConn e s) = Some (Strconv.FormatUint36 (connNextID s)) /\
  (last <$> conns (snd (newConn e s))
            !! Strconv.FormatUint36 (connNextID s)) = Some zeroTime /\
  conns (run ops (snd (newConn e s))) !! Strconv.FormatUint36 (connNextID s)
  = Some (fresh_conn e sock) /\
  conns (pruneConnsSince marker (run ops (snd (newConn e s))))
    !! Strconv.FormatUint36 (connNextID s) = None /\
  In (EvClose sock)
     (emitted (run ops (snd (newConn e s)))
              (pruneConnsSince marker (run ops (snd (newConn e s))))).
Proof.
  intros Hd Hops Hm.
  destruct (newConn_ok e s sock Hd) as [Hid Hconns].
  assert (H1 : conns (snd (newConn e s)) !! Strconv.FormatUint36 (connNextID s)
               = Some (fresh_conn e sock)).
  { rewrite Hconns. apply lookup_insert_eq. }
  assert (H2 : conns (run ops (snd (newConn e s)))
                 !! Strconv.FormatUint36 (connNextID s)
               = Some (fresh_conn e sock)).
  { rewrite (run_elsewhere _ ops _ Hops). exact H1. }
  split; [exact Hid|]. split; [rewrite H1; reflexivity|].
  split; [exact H2|]. split.
  - rewrite pruneConnsSince_lookup, H2. cbn [fresh_conn last].
    apply Z.ltb_lt in Hm. rewrite Hm. reflexivity.
  - apply (pruneConnsSince_closes marker _ _ _ H2). exact Hm.
Qed.

Lemma C10_witness :
  conns (pruneConnsSince 1700000000000000000
           (run Sample.ops1 (snd (newConn Sample.env_late Sample.s1))))
    !! Strconv.FormatUint36 (connNextID Sample.s1) = None /\
  In (EvClose 8)
     (emitted (run Sample.ops1 (snd (newConn Sample.env_late Sample.s1)))
        (pruneConnsSince 1700000000000000000
           (run Sample.ops1 (snd (newConn Sample.env_late Sample.s1))))).
Proof.
  destruct (C10_untouched_session_pruned Sample.env_late Sample.s1 8
              Sample.ops1 1700000000000000000)
    as (_ & _ & _ & H1 & H2).
  - reflexivity.
  - vm_compute. reflexivity.
  - vm_compute. reflexivity.
  - split; [exact H1|exact H2].
Defined.

(** In the same run the session that was polled survives the sweep. *)
Example sample_polled_session_survives :
  is_Some (conns (pruneConnsSince 1700000000000000000
                    (run Sample.ops1 (snd (newConn Sample.env_late Sample.s1))))
             !! Sample.id1).
Proof. vm_compute. eexists. reflexivity. Qed.

(* ===================================================================== *)
(** * Further properties of the session table and the handlers *)
(* ===================================================================== *)

(** X1.  [deleteConn] takes the session out of the table and closes its
    socket once; for an id that is not in the table (already deleted, for
    one) it does nothing at all; no other session is touched. *)
Theorem deleteConn_removes_once (id : string) (s : state) :
  getConn id (deleteConn id s) = None /\
  (forall id', id' <> id ->
               getConn id' (deleteConn id s) = getConn id' s) /\
  emitted s (deleteConn id s)
  = match getConn id s with
    | Some x => [EvClose (c x)]
    | None => []
    end /\
  (getConn id s = None -> deleteConn id s = s) /\
  deleteConn id (deleteConn id s) = deleteConn id s.
Proof.
  unfold getConn.
  assert (Hgone : conns (deleteConn id s) !! id = None).
  { unfold deleteConn. destruct (conns s !! id) as [x|] eqn:Hc; [|exact Hc].
    cbn [emit set_conns conns]. apply lookup_delete_eq. }
  repeat apply conj.
  - exact Hgone.
  - intros id' Hne. unfold deleteConn.
    destruct (conns s !! id) as [x|]; [|reflexivity].
    cbn [emit set_conns conns]. apply lookup_delete_ne. congruence.
  - unfold deleteConn. destruct (conns s !! id) as [x|].
    + apply emitted_app. reflexivity.
    + apply emitted_same.
  - intros Hc. unfold deleteConn. rewrite Hc. reflexivity.
  - unfold deleteConn at 1. rewrite Hgone. reflexivity.
Qed.

(** X2.  One sweep of the pruner keeps exactly the sessions whose [last] is
    not before the marker, keeps them as they are, and closes the sockets
    of exactly the sessions it removes; the id counter and the caches are
    not touched. *)
Theorem pruneConnsSince_sweep (marker : Z) (s : state) :
  (forall id,
      getConn id (pruneConnsSince marker s)
      = match getConn id s with
        | Some x => if last x <? marker then None else Some x
        | None => None
        end) /\
  (forall id x,
      getConn id (pruneConnsSince marker s) = Some x -> marker <= last x) /\
  (forall sock,
      In (EvClose sock) (emitted s (pruneConnsSince marker s)) <->
      exists id x, getConn id s = Some x /\ last x < marker /\ c x = sock) /\
  connNextID (pruneConnsSince marker s) = connNextID s /\
  seenTSCache (pruneConnsSince marker s) = seenTSCache s /\
  ansCache (pruneConnsSince marker s) = ansCache s.
Proof.
  unfold getConn.
  destruct (prune_fold_rest marker (map_to_list (conns s)) s)
    as (_ & Hn & Hseen & Hans).
  repeat apply conj; try assumption.
  - intros id. apply pruneConnsSince_lookup.
  - intros id x. rewrite pruneConnsSince_lookup.
    destruct (conns s !! id) as [y|]; [|discriminate].
    destruct (Z.ltb_spec (last y) marker); [discriminate|].
    intros [= <-]. assumption.
  - intros sock.
    rewrite (emitted_app _ _ _ (pruneConnsSince_trace marker s)).
    rewrite in_flat_map. split.
    + intros ([id x] & Hin & Hev).
      apply list_elem_of_In, elem_of_map_to_list in Hin.
      unfold prune_events in Hev. cbn [snd] in Hev.
      destruct (Z.ltb_spec (last x) marker) as [Hl|_]; [|destruct Hev].
      destruct Hev as [Hev|[Hev|[]]]; [discriminate|].
      injection Hev as Hsock. exists id, x. auto.
    + intros (id & x & Hc & Hl & Hsock).
      exists (id, x). split.
      * apply list_elem_of_In, elem_of_map_to_list. exact Hc.
      * unfold prune_events. cbn [snd]. apply Z.ltb_lt in Hl. rewrite Hl.
        right. left. rewrite Hsock. reflexivity.
Qed.

(** The id counter moves only with a handshake, and then by one. *)
Lemma step_connNextID (o : op) (s : state) :
  connNextID (step o s) = connNextID s \/
  (exists e l, o = OpNewConn e l) /\
  connNextID (step o s) = wrap64 (connNextID s + 1).
Proof.
  destruct o as [e l|e ctr payload id|e ctr id|m]; cbn [step].
  - destruct (handleNewConn_cases e l s) as [->|[->|(sock & _ & ->)]];
      [left; reflexivity|left; reflexivity|].
    right. split; [eauto|reflexivity].
  - left. destruct (handleForward_cases e ctr payload id s)
      as [[-> _]|(x & b & _ & _ & _ & ->)]; reflexivity.
  - left. destruct (handleReverse_cases e ctr id s) as [->|(x & _ & _ & ->)];
      [reflexivity|]. destruct (deadline_ok e); reflexivity.
  - left. apply (prune_fold_rest m (map_to_list (conns s)) s).
Qed.

(** X3.  Session ids are not reused: an id made from a counter value below
    the current one is not handed out again by any run that does not take
    the 64-bit counter past its end. *)
Theorem session_ids_not_reused (ops : list op) :
  forall (s : state) (k : Z),
    0 <= k < connNextID s ->
    connNextID s + Z.of_nat (List.length ops) <= 2 ^ 64 ->
    never_reissued (Strconv.FormatUint36 k) ops s = true.
Proof.
  induction ops as [|o ops IH]; intros s k Hk Hlen; [reflexivity|].
  cbn [never_reissued List.length] in *.
  apply andb_true_intro. split.
  - apply negb_true_iff. destruct o as [e l| | |]; try reflexivity.
    cbn [reissues]. apply String.eqb_neq. intros Heq.
    apply StrconvFacts.FormatUint36_inj in Heq; lia.
  - destruct ops as [|o' ops']; [reflexivity|].
    assert (Hlen' : connNextID s + 1 + Z.of_nat (List.length (o' :: ops'))
                    <= 2 ^ 64) by lia.
    assert (Hpos : 0 < Z.of_nat (List.length (o' :: ops')))
      by (cbn [List.length]; lia).
    generalize dependent (o' :: ops'). intros ops1 IH _ Hlen' Hpos.
    apply IH; destruct (step_connNextID o s) as [->|[_ ->]];
      unfold wrap64; rewrite ?Z.mod_small; lia.
Qed.

Lemma session_ids_not_reused_witness :
  never_reissued (Strconv.FormatUint36 (connNextID Sample.s0)) Sample.ops1
    Sample.s1 = true.
Proof.
  apply (session_ids_not_reused Sample.ops1 Sample.s1 (connNextID Sample.s0)).
  - vm_compute. split; [discriminate|reflexivity].
  - vm_compute. discriminate.
Defined.

(** A request for a session that is not in the table is an error and
    changes nothing. *)
Lemma unknown_session (e : env) (ctr payload id : string) (s : state) :
  getConn id s = None ->
  (exists msg, handleForward e ctr payload id s = (Err msg, s)) /\
  (exists msg, handleReverse e ctr id s = (Err msg, s)).
Proof.
  intros Hc. split.
  - unfold handleForward.
    destruct (Strconv.ParseUint ctr 36); [|eexists; reflexivity].
    destruct (dec (GoStrings.ToUpper payload)); [|eexists; reflexivity].
    rewrite Hc. eexists; reflexivity.
  - unfold handleReverse.
    destruct (Strconv.ParseUint ctr 36); [|eexists; reflexivity].
    rewrite Hc. eexists; reflexivity.
Qed.

(** X4.  A forward request is acknowledged with the empty reply exactly
    when its counter was the session's next one and its payload, decoded,
    was written to the session's socket without an error. *)
Theorem handleForward_ack_iff_written
    (e : env) (ctr payload id : string) (s : state) :
  fst (handleForward e ctr payload id s) = Reply [] <->
  exists x b,
    getConn id s = Some x /\
    Strconv.ParseUint ctr 36 = Some (nextFwd x) /\
    dec (GoStrings.ToUpper payload) = Some b /\
    In (EvWrite (c x) b true)
       (emitted s (snd (handleForward e ctr payload id s))).
Proof.
  split.
  - intros Hack.
    destruct (handleForward_cases e ctr payload id s)
      as [[_ Hne]|(x & b & Hp & Hb & Hc & Heq)]; [contradiction|].
    rewrite Heq in *. cbn [fst snd] in *.
    exists x, b. repeat split; try assumption.
    rewrite (emitted_app s (after_forward e id x b s) _ eq_refl).
    destruct (write_ok e); [|discriminate]. right. left. reflexivity.
  - intros (x & b & Hc & Hp & Hb & Hin).
    rewrite (handleForward_writes e ctr payload id s x b Hp Hb Hc) in *.
    cbn [fst snd] in *.
    rewrite (emitted_app s (after_forward e id x b s) _ eq_refl) in Hin.
    destruct (write_ok e); [reflexivity|].
    destruct Hin as [H|[H|[H|[]]]]; discriminate.
Qed.

(** The error a request for a session that is not in the table gets: the
    counter is parsed first, then (forward) the payload is decoded, then
    the session is looked up. *)
Lemma unknown_session_error (e : env) (ctr payload id : string) (s : state) :
  getConn id s = None ->
  handleForward e ctr payload id s
  = (Err match Strconv.ParseUint ctr 36 with
         | None => "unable to parse counter"
         | Some _ =>
             match dec (GoStrings.ToUpper payload) with
             | None => "decoding payload"
             | Some _ => "unknown ID"
             end
         end, s) /\
  handleReverse e ctr id s
  = (Err match Strconv.ParseUint ctr 36 with
         | None => "unable to parse counter"
         | Some _ => "unknown ID"
         end, s).
Proof.
  intros Hc. unfold handleForward, handleReverse.
  destruct (Strconv.ParseUint ctr 36); [|split; reflexivity].
  rewrite Hc. destruct (dec (GoStrings.ToUpper payload)); split; reflexivity.
Qed.

(** X5.  An upstream failure the handlers notice before or at the write (a
    failed [Write], a failed [SetReadDeadline]) deletes the session and
    closes its socket; from then on every forward or reverse request for
    that id is an error and changes nothing.  The error is "unknown ID"
    when the counter of the request parses and, for a forward request,
    its payload decodes; a counter that does not parse or a payload that
    does not decode is reported first. *)
Theorem io_failure_forgets_session
    (e : env) (ctrF ctrR payload id : string) (s : state) (x : conn)
    (b : list byte) :
  getConn id s = Some x ->
  Strconv.ParseUint ctrF 36 = Some (nextFwd x) ->
  Strconv.ParseUint ctrR 36 = Some (nextRev x) ->
  dec (GoStrings.ToUpper payload) = Some b ->
  (write_ok e = false ->
   fst (handleForward e ctrF payload id s) = Err "sending to network" /\
   getConn id (snd (handleForward e ctrF payload id s)) = None /\
   In (EvClose (c x)) (emitted s (snd (handleForward e ctrF payload id s))) /\
   forall e' ctr' payload',
     (exists msg,
         handleForward e' ctr' payload' id
           (snd (handleForward e ctrF payload id s))
         = (Err msg, snd (handleForward e ctrF payload id s))) /\
     (exists msg,
         handleReverse e' ctr' id (snd (handleForward e ctrF payload id s))
         = (Err msg, snd (handleForward e ctrF payload id s))) /\
     handleForward e' ctr' payload' id
       (snd (handleForward e ctrF payload id s))
     = (Err match Strconv.ParseUint ctr' 36 with
            | None => "unable to parse counter"
            | Some _ =>
                match dec (GoStrings.ToUpper payload') with
                | None => "decoding payload"
                | Some _ => "unknown ID"
                end
            end, snd (handleForward e ctrF payload id s)) /\
     handleReverse e' ctr' id (snd (handleForward e ctrF payload id s))
     = (Err match Strconv.ParseUint ctr' 36 with
            | None => "unable to parse counter"
            | Some _ => "unknown ID"
            end, snd (handleForward e ctrF payload id s))) /\
  (deadline_ok e = false ->
   fst (handleReverse e ctrR id s) = Err "setting network read deadline" /\
   getConn id (snd (handleReverse e ctrR id s)) = None /\
   In (EvClose (c x)) (emitted s (snd (handleReverse e ctrR id s))) /\
   forall e' ctr' payload',
     (exists msg,
         handleForward e' ctr' payload' id (snd (handleReverse e ctrR id s))
         = (Err msg, snd (handleReverse e ctrR id s))) /\
     (exists msg,
         handleReverse e' ctr' id (snd (handleReverse e ctrR id s))
         = (Err msg, snd (handleReverse e ctrR id s))) /\
     handleForward e' ctr' payload' id (snd (handleReverse e ctrR id s))
     = (Err match Strconv.ParseUint ctr' 36 with
            | None => "unable to parse counter"
            | Some _ =>
                match dec (GoStrings.ToUpper payload') with
                | None => "decoding payload"
                | Some _ => "unknown ID"
                end
            end, snd (handleReverse e ctrR id s)) /\
     handleReverse e' ctr' id (snd (handleReverse e ctrR id s))
     = (Err match Strconv.ParseUint ctr' 36 with
            | None => "unable to parse counter"
            | Some _ => "unknown ID"
            end, snd (handleReverse e ctrR id s))).
Proof.
  assert (Hlater : forall t e' ctr' payload',
             conns t !! id = None ->
             (exists msg, handleForward e' ctr' payload' id t = (Err msg, t)) /\
             (exists msg, handleReverse e' ctr' id t = (Err msg, t)) /\
             handleForward e' ctr' payload' id t
             = (Err match Strconv.ParseUint ctr' 36 with
                    | None => "unable to parse counter"
                    | Some _ =>
                        match dec (GoStrings.ToUpper payload') with
                        | None => "decoding payload"
                        | Some _ => "unknown ID"
                        end
                    end, t) /\
             handleReverse e' ctr' id t
             = (Err match Strconv.ParseUint ctr' 36 with
                    | None => "unable to parse counter"
                    | Some _ => "unknown ID"
                    end, t)).
  { intros t e' ctr' payload' Hgone.
    destruct (unknown_session e' ctr' payload' id t Hgone) as [H1 H2].
    destruct (unknown_session_error e' ctr' payload' id t Hgone) as [H3 H4].
    auto. }
  unfold getConn. intros Hc HpF HpR Hb. split.
  - intros Hw.
    rewrite (handleForward_writes e ctrF payload id s x b HpF Hb Hc).
    rewrite Hw. cbn [fst snd].
    assert (Hgone : conns (after_forward e id x b s) !! id = None).
    { cbn [after_forward conns]. rewrite Hw. apply lookup_delete_eq. }
    split; [reflexivity|]. split; [exact Hgone|]. split.
    + rewrite (emitted_app s (after_forward e id x b s) _ eq_refl).
      rewrite Hw. right. right. left. reflexivity.
    + intros e' ctr' payload'. apply Hlater. exact Hgone.
  - intros Hd.
    rewrite (handleReverse_deadline e ctrR id s x HpR Hc Hd). cbn [fst snd].
    assert (Hgone : conns (after_deadline_error e id x s) !! id = None).
    { cbn [after_deadline_error conns]. apply lookup_delete_eq. }
    split; [reflexivity|]. split; [exact Hgone|]. split.
    + rewrite (emitted_app s (after_deadline_error e id x s) _ eq_refl).
      right. left. reflexivity.
    + intros e' ctr' payload'. apply Hlater. exact Hgone.
Qed.

Lemma io_failure_forgets_session_witness :
  fst (handleForward Sample.env_broken "0" "nbswy3dp" Sample.id1 Sample.s1)
  = Err "sending to network" /\
  getConn Sample.id1
    (snd (handleForward Sample.env_broken "0" "nbswy3dp" Sample.id1 Sample.s1))
  = None /\
  fst (handleForward Sample.env_ok "1" "nbswy3dp" Sample.id1
         (snd (handleForward Sample.env_broken "0" "nbswy3dp" Sample.id1
                 Sample.s1)))
  = Err "unknown ID" /\
  fst (handleReverse Sample.env_ok "0" Sample.id1
         (snd (handleForward Sample.env_broken "0" "nbswy3dp" Sample.id1
                 Sample.s1)))
  = Err "unknown ID".
Proof.
  destruct (io_failure_forgets_session Sample.env_broken "0" "0" "nbswy3dp"
              Sample.id1 Sample.s1 Sample.x1 (bytes_of "hello")
              eq_refl eq_refl eq_refl eq_refl) as [H _].
  destruct (H eq_refl) as (H1 & H2 & _ & H3).
  split; [exact H1|]. split; [exact H2|].
  destruct (H3 Sample.env_ok "1"%string "nbswy3dp"%string)
    as (_ & _ & H4 & _).
  destruct (H3 Sample.env_ok "0"%string "nbswy3dp"%string)
    as (_ & _ & _ & H5).
  split; [rewrite H4|rewrite H5]; reflexivity.
Defined.

(** A reverse request that returns a reply went as far as the read. *)
Lemma handleReverse_replied (e : env) (ctr id : string) (s : state)
    (b : list byte) :
  fst (handleReverse e ctr id s) = Reply b ->
  exists x,
    getConn id s = Some x /\
    Strconv.ParseUint ctr 36 = Some (nextRev x) /\
    deadline_ok e = true /\
    reverse_result e = Reply b /\
    snd (handleReverse e ctr id s) = after_reverse e id x s.
Proof.
  unfold getConn.
  destruct (Strconv.ParseUint ctr 36) as [cn|] eqn:Hp;
    [|unfold handleReverse; rewrite Hp; discriminate].
  destruct (conns s !! id) as [x|] eqn:Hc;
    [|unfold handleReverse, getConn; rewrite Hp, Hc; discriminate].
  destruct (Z.eqb_spec cn (nextRev x)) as [->|Hne].
  - destruct (deadline_ok e) eqn:Hd.
    + rewrite (handleReverse_reads e ctr id s x Hp Hc Hd). cbn [fst snd].
      intros Hr. exists x. auto.
    + rewrite (handleReverse_deadline e ctr id s x Hp Hc Hd). discriminate.
  - unfold handleReverse, getConn. rewrite Hp, Hc.
    apply Z.eqb_neq in Hne. rewrite Hne. discriminate.
Qed.

(** X6.  Whatever a reverse request returns as a reply is the first bytes
    the upstream delivered, at most 189 of them, and its base64 text has at
    most 252 characters, so it fits the one TXT string of the answer.  And
    a request that gets as far as the read and finds bytes returns them,
    whatever error the read reported with them. *)
Theorem handleReverse_reply_bound (e : env) (ctr id : string) (s : state) :
  (forall b,
      fst (handleReverse e ctr id s) = Reply b ->
      b = take maxTXTLen (read_data e) /\
      (List.length b <= maxTXTLen)%nat /\
      (String.length (Codec.b64_encode b) <= 252)%nat) /\
  (forall x,
      getConn id s = Some x ->
      Strconv.ParseUint ctr 36 = Some (nextRev x) ->
      deadline_ok e = true ->
      read_data e <> [] ->
      fst (handleReverse e ctr id s) = Reply (take maxTXTLen (read_data e)) /\
      take maxTXTLen (read_data e) <> [] /\
      In (EvRead (c x) (List.length (take maxTXTLen (read_data e)))
                 (read_err e))
         (emitted s (snd (handleReverse e ctr id s)))).
Proof.
  split.
  2:{ intros x Hc Hp Hd Hdata. unfold getConn in Hc.
      rewrite (handleReverse_reads e ctr id s x Hp Hc Hd). cbn [fst snd].
      assert (Hne : take maxTXTLen (read_data e) <> []).
      { destruct (read_data e) as [|b0 r]; [congruence|]. discriminate. }
      split; [|split; [exact Hne|]].
      - unfold reverse_result.
        destruct (take maxTXTLen (read_data e)) as [|b0 r];
          [congruence|reflexivity].
      - rewrite (emitted_app s (after_reverse e id x s) _ eq_refl).
        right. right. left. reflexivity. }
  intros b Hr. destruct (handleReverse_replied e ctr id s b Hr)
    as (x & _ & _ & _ & Hres & _).
  assert (Hb : b = take maxTXTLen (read_data e)).
  { unfold reverse_result in Hres.
    destruct (List.length (take maxTXTLen (read_data e)) =? 0)%nat eqn:Hn;
      cbn [negb] in Hres.
    - apply Nat.eqb_eq in Hn.
      destruct (take maxTXTLen (read_data e)); [|discriminate].
      destruct (read_err e); congruence.
    - congruence. }
  assert (Hlen : (List.length b <= maxTXTLen)%nat).
  { rewrite Hb, length_take. lia. }
  repeat split; try assumption.
  pose proof (CodecFacts.b64_encode_length b) as He.
  unfold maxTXTLen, Codec.b64_EncodedLen in *.
  assert ((Z.of_nat (List.length b) * 8 + 5) / 6 <= 252)
    by (Z.div_mod_to_equations; lia).
  lia.
Qed.

Lemma handleReverse_reply_bound_witness :
  (bytes_of "world" = take maxTXTLen (read_data Sample.env_ok) /\
   (List.length (bytes_of "world") <= maxTXTLen)%nat /\
   (String.length (Codec.b64_encode (bytes_of "world")) <= 252)%nat) /\
  fst (handleReverse Sample.env_last "0" Sample.id1 Sample.s1)
  = Reply (bytes_of "bye").
Proof.
  split.
  - apply (proj1 (handleReverse_reply_bound Sample.env_ok "0" Sample.id1
                    Sample.s1)).
    vm_compute. reflexivity.
  - refine (proj1 (proj2 (handleReverse_reply_bound Sample.env_last "0"
                            Sample.id1 Sample.s1) Sample.x1 _ _ _ _)).
    + vm_compute. reflexivity.
    + vm_compute. reflexivity.
    + reflexivity.
    + vm_compute. discriminate.
Defined.

(** X7.  A poll that finds nothing (the read deadline elapsed, or the read
    returned nothing and no error) gets the empty reply; the session stays
    in the table, nothing is closed, and the counter is used up: the same
    counter once more is a duplicate that gets no reply and changes
    nothing. *)
Theorem handleReverse_no_data
    (e e' : env) (ctr id : string) (s : state) (x : conn) :
  getConn id s = Some x ->
  Strconv.ParseUint ctr 36 = Some (nextRev x) ->
  deadline_ok e = true ->
  read_data e = [] ->
  read_err e <> ErrOther ->
  fst (handleReverse e ctr id s) = Reply [] /\
  getConn id (snd (handleReverse e ctr id s))
  = Some (set_last (now2 e) (set_last (now1 e) (incr_nextRev x))) /\
  existsb is_close (emitted s (snd (handleReverse e ctr id s))) = false /\
  handleReverse e' ctr id (snd (handleReverse e ctr id s))
  = (NoReply, snd (handleReverse e ctr id s)).
Proof.
  unfold getConn. intros Hc Hp Hd Hdata Herr.
  rewrite (handleReverse_reads e ctr id s x Hp Hc Hd). cbn [fst snd].
  assert (Hin : conns (after_reverse e id x s) !! id
                = Some (set_last (now2 e) (set_last (now1 e) (incr_nextRev x)))).
  { cbn [after_reverse conns]. apply lookup_insert_eq. }
  repeat apply conj.
  - unfold reverse_result. rewrite Hdata. cbn.
    destruct (read_err e); congruence.
  - exact Hin.
  - rewrite (emitted_app s (after_reverse e id x s) _ eq_refl). reflexivity.
  - apply (reverse_mismatch e' ctr id _ _ (nextRev x) Hin Hp).
    cbn [set_last incr_nextRev nextRev]. unfold wrap64.
    pose proof (StrconvFacts.ParseUint_range ctr (nextRev x) Hp) as Hr.
    intros Heq.
    destruct (Z.eq_dec (nextRev x + 1) (2 ^ 64)) as [Hmax|Hmax].
    + rewrite Hmax, Z.mod_same in Heq by lia. lia.
    + rewrite Z.mod_small in Heq by lia. lia.
Qed.

Lemma handleReverse_no_data_witness :
  fst (handleReverse Sample.env_late "0" Sample.id1 Sample.s1) = Reply [] /\
  handleReverse Sample.env_ok "0" Sample.id1
    (snd (handleReverse Sample.env_late "0" Sample.id1 Sample.s1))
  = (NoReply, snd (handleReverse Sample.env_late "0" Sample.id1 Sample.s1)).
Proof.
  destruct (handleReverse_no_data Sample.env_late Sample.env_ok "0"
              Sample.id1 Sample.s1 Sample.x1)
    as (H1 & _ & _ & H2); try reflexivity.
  - discriminate.
  - split; [exact H1|exact H2].
Defined.

(** X8.  Counter and payload labels are read without regard to letter
    case: on ASCII labels (where the model of [ToLower] and [ToUpper] is
    the exact one) both handlers do the same on a label and on its
    lower-cased form, which is what the dispatcher hands them. *)
Theorem handlers_ignore_letter_case
    (e : env) (ctr payload id : string) (s : state) :
  LabelCheck.is_ascii ctr = true ->
  LabelCheck.is_ascii payload = true ->
  handleForward e (GoStrings.ToLower ctr) (GoStrings.ToLower payload) id s
  = handleForward e ctr payload id s /\
  handleReverse e (GoStrings.ToLower ctr) id s = handleReverse e ctr id s.
Proof.
  intros _ _. unfold handleForward, handleReverse.
  rewrite StrconvFacts.ParseUint_ToLower, StringFacts.ToUpper_ToLower.
  split; reflexivity.
Qed.

Lemma handlers_ignore_letter_case_witness :
  handleForward Sample.env_ok (GoStrings.ToLower "0")
    (GoStrings.ToLower "NBSWY3DP") Sample.id1 Sample.s1
  = handleForward Sample.env_ok "0" "NBSWY3DP" Sample.id1 Sample.s1 /\
  handleReverse Sample.env_ok (GoStrings.ToLower "0") Sample.id1 Sample.s1
  = handleReverse Sample.env_ok "0" Sample.id1 Sample.s1.
Proof.
  apply (handlers_ignore_letter_case Sample.env_ok "0" "NBSWY3DP" Sample.id1
           Sample.s1); reflexivity.
Defined.

(** X9.  A handshake whose timestamp is more than 24 hours off the clock
    (and less than 2^63 nanoseconds before it) is an error and leaves the
    state as it was: nothing is dialed and the timestamp is not
    remembered, so the same timestamp is still good once the clock is
    within 24 hours of it. *)
Theorem handleNewConn_out_of_window
    (e e' : env) (l : string) (n : Z) (sock : nat) (s : state) :
  Strconv.ParseInt10 l = Some n ->
  maxTSOff < Z.abs (n - now0 e) -> - 2 ^ 63 < n - now0 e ->
  in_window n (now0 e') ->
  Lru.Contains l (seenTSCache s) = false ->
  dial e' = Some sock ->
  handleNewConn e l s = (Err "timestamp difference is too big", s) /\
  handleNewConn e' l (snd (handleNewConn e l s))
  = (Reply (bytes_of (Strconv.FormatUint36 (connNextID s))),
     after_newconn e' l sock s).
Proof.
  intros Hp Hw Hlo Hw' Hnew Hd.
  assert (H1 : handleNewConn e l s = (Err "timestamp difference is too big", s)).
  { unfold handleNewConn. rewrite Hp. cbv zeta.
    rewrite (window_check_rejects _ _ Hw Hlo). reflexivity. }
  split; [exact H1|]. rewrite H1. cbn [snd].
  apply (handleNewConn_fresh e' l s n sock Hp Hw' Hnew Hd).
Qed.

Lemma handleNewConn_out_of_window_witness :
  handleNewConn Sample.env_late Sample.ts Sample.s0
  = (Err "timestamp difference is too big", Sample.s0) /\
  handleNewConn Sample.env_ok Sample.ts
    (snd (handleNewConn Sample.env_late Sample.ts Sample.s0))
  = (Reply (bytes_of (Strconv.FormatUint36 (connNextID Sample.s0))),
     after_newconn Sample.env_ok Sample.ts 7 Sample.s0).
Proof.
  apply (handleNewConn_out_of_window Sample.env_late Sample.env_ok Sample.ts
           1700000000000000000 7 Sample.s0).
  - vm_compute. reflexivity.
  - vm_compute. reflexivity.
  - vm_compute. reflexivity.
  - unfold in_window. vm_compute. discriminate.
  - vm_compute. reflexivity.
  - reflexivity.
Defined.

(** X10.  The window check does not hold back a timestamp that lies 2^63
    nanoseconds (some 292 years) or more before the clock: [time.Until]
    returns the smallest [Duration], whose negation is itself, and that is
    not greater than 24 hours.  Such a handshake, if not seen before, is
    served like one inside the window. *)
Theorem handleNewConn_far_past_accepted
    (e : env) (l : string) (n : Z) (sock : nat) (s : state) :
  Strconv.ParseInt10 l = Some n ->
  n - now0 e <= - 2 ^ 63 ->
  Lru.Contains l (seenTSCache s) = false ->
  dial e = Some sock ->
  handleNewConn e l s
  = (Reply (bytes_of (Strconv.FormatUint36 (connNextID s))),
     after_newconn e l sock s).
Proof.
  destruct s as [dn m nid seen ans tr]. cbn [seenTSCache connNextID].
  intros Hp Hlo Hc Hd. unfold handleNewConn. rewrite Hp.
  cbv zeta. rewrite (window_check_saturated _ _ Hlo). cbn [seenTSCache].
  rewrite Hc. unfold newConn. rewrite Hd.
  unfold after_newconn, fresh_conn. srv_simpl.
  rewrite <- !app_assoc. reflexivity.
Qed.

Lemma handleNewConn_far_past_accepted_witness :
  handleNewConn Sample.env_ok "-9000000000000000000" Sample.s0
  = (Reply (bytes_of (Strconv.FormatUint36 (connNextID Sample.s0))),
     after_newconn Sample.env_ok "-9000000000000000000" 7 Sample.s0).
Proof.
  apply (handleNewConn_far_past_accepted Sample.env_ok
           "-9000000000000000000" (-9000000000000000000) 7 Sample.s0).
  - vm_compute. reflexivity.
  - vm_compute. discriminate.
  - vm_compute. reflexivity.
  - reflexivity.
Defined.

(** X11.  The timestamp is remembered before the dial: when the dial
    fails, the handshake is an error, no session is stored and no id is
    used up, but the same timestamp is from then on taken for a replay,
    also when the upstream is reachable again. *)
Theorem handleNewConn_dial_failure_remembered
    (e e' : env) (l : string) (n : Z) (s : state) :
  Strconv.ParseInt10 l = Some n ->
  in_window n (now0 e) -> in_window n (now0 e') ->
  0 < Lru.size (seenTSCache s) ->
  Lru.Contains l (seenTSCache s) = false ->
  dial e = None ->
  handleNewConn e l s = (Err "connecting upstream", after_dial_error e l s) /\
  conns (after_dial_error e l s) = conns s /\
  connNextID (after_dial_error e l s) = connNextID s /\
  handleNewConn e' l (after_dial_error e l s)
  = (NoReply, after_dial_error e l s).
Proof.
  intros Hp Hw Hw' Hsize Hnew Hd.
  repeat apply conj; try reflexivity.
  - destruct s as [dn m nid seen ans tr]. cbn [seenTSCache] in *.
    unfold handleNewConn. rewrite Hp. cbv zeta.
    rewrite (window_check _ _ Hw). cbn [seenTSCache]. rewrite Hnew.
    unfold newConn. rewrite Hd. reflexivity.
  - apply (handleNewConn_seen e' l _ n Hp Hw').
    cbn [after_dial_error seenTSCache]. apply LruFacts.Contains_Add.
    exact Hsize.
Qed.

Lemma handleNewConn_dial_failure_remembered_witness :
  handleNewConn Sample.env_broken Sample.ts Sample.s0
  = (Err "connecting upstream",
     after_dial_error Sample.env_broken Sample.ts Sample.s0) /\
  handleNewConn Sample.env_ok Sample.ts
    (after_dial_error Sample.env_broken Sample.ts Sample.s0)
  = (NoReply, after_dial_error Sample.env_broken Sample.ts Sample.s0).
Proof.
  destruct (handleNewConn_dial_failure_remembered Sample.env_broken
              Sample.env_ok Sample.ts 1700000000000000000 Sample.s0)
    as (H1 & _ & _ & H2).
  - vm_compute. reflexivity.
  - unfold in_window. vm_compute. discriminate.
  - unfold in_window. vm_compute. discriminate.
  - vm_compute. reflexivity.
  - vm_compute. reflexivity.
  - reflexivity.
  - split; [exact H1|exact H2].
Defined.

(* ===================================================================== *)
(** * Further properties of the dispatcher *)
(* ===================================================================== *)

(** Where [handlePacket] sends nothing it touches nothing but the log. *)
Lemma emit_keeps (ev : event) (s : state) :
  conns (emit ev s) = conns s /\
  connNextID (emit ev s) = connNextID s /\
  seenTSCache (emit ev s) = seenTSCache s /\
  ansCache (emit ev s) = ansCache s.
Proof. repeat split. Qed.

(** [handlePacket] rolls a response exactly for a message that unpacked,
    has one question, of type TXT, is not itself a response, has a name
    inside the parent domain and at most three labels before it.  For
    everything else the session table, the id counter and both caches are
    as before. *)
Lemma handlePacket_rolls_iff (e : env) (m : option Message) (s : state) :
  (is_Some (fst (handlePacket e m s)) <->
   exists msg q,
     m = Some msg /\ Questions msg = [q] /\ Type_ q = TypeTXT /\
     Response msg = false /\
     GoStrings.HasSuffix (Name q) (domainName s) = true /\
     (List.length (labels_of s q) <= 3)%nat) /\
  (fst (handlePacket e m s) = None ->
   conns (snd (handlePacket e m s)) = conns s /\
   connNextID (snd (handlePacket e m s)) = connNextID s /\
   seenTSCache (snd (handlePacket e m s)) = seenTSCache s /\
   ansCache (snd (handlePacket e m s)) = ansCache s).
Proof.
  assert (Hno : forall P : Prop, is_Some (@None Message) <-> P -> ~ P).
  { intros P H HP. apply H in HP. destruct HP as [? HP]. discriminate. }
  destruct m as [msg|]; cbn [handlePacket].
  2:{ split; [|intros _; apply emit_keeps].
      split; [intros [? H]; discriminate|].
      intros (msg & q & H & _); discriminate. }
  destruct (Questions msg) as [|q [|q' qs]] eqn:Hq.
  1,3: split; [|intros _; apply emit_keeps];
       (split; [intros [? H]; discriminate|]);
       intros (msg' & q0 & [= <-] & Hq0 & _); congruence.
  destruct (Z.eqb_spec (Type_ q) TypeTXT) as [Ht|Ht]; cbn [negb].
  2:{ split; [|intros _; repeat split].
      split; [intros [? H]; discriminate|].
      intros (msg' & q0 & [= <-] & Hq0 & Ht0 & _). congruence. }
  destruct (Response msg) eqn:Hr.
  { split; [|intros _; apply emit_keeps].
    split; [intros [? H]; discriminate|].
    intros (msg' & q0 & [= <-] & _ & _ & Hr0 & _). congruence. }
  destruct (GoStrings.HasSuffix (Name q) (domainName s)) eqn:Hs; cbn [negb].
  2:{ split; [|intros _; repeat split].
      split; [intros [? H]; discriminate|].
      intros (msg' & q0 & [= <-] & Hq0 & _ & _ & Hs0 & _). congruence. }
  unfold labels_of.
  assert (Hans : forall qn labels,
             is_Some (fst (answer e msg q qn labels s))).
  { intros qn labels.
    destruct (answer_replies e msg q qn labels s) as (r & -> & _).
    eexists; reflexivity. }
  pose proof (SplitDot_nonempty
                (GoStrings.ToLower
                   (GoStrings.TrimSuffix (Name q) (domainName s)))) as Hne.
  destruct (GoStrings.SplitDot
              (GoStrings.ToLower
                 (GoStrings.TrimSuffix (Name q) (domainName s))))
    as [|l0 [|l1 [|l2 [|l3 r]]]] eqn:Hl; [congruence| | | |].
  1-3: split;
       [split; [intros _; exists msg, q; rewrite Hl; cbn [List.length];
                repeat split; try assumption; lia
               |intros _; apply Hans]
       |intros Hnone;
        match type of Hnone with
        | fst (answer ?e ?m ?q ?qn ?ls ?s) = None =>
            destruct (Hans qn ls) as [r Hr']; congruence
        end].
  split; [|intros _; apply emit_keeps].
  split; [intros [? H]; discriminate|].
  intros (msg' & q0 & [= <-] & Hq0 & _ & _ & _ & Hlen).
  assert (q0 = q) by congruence. subst q0. rewrite Hl in Hlen.
  cbn [List.length] in Hlen. lia.
Qed.

(** X12.  [handlePacket] gets a message to the client exactly when the
    packet unpacked, has one question, of type TXT, is not itself a
    response, has a name inside the parent domain and at most three labels
    before it, and [Pack] and [WriteTo] both work on the response.  The
    message is the response rolled.  When the checks fail nothing is
    rolled, nothing is packed or sent, and the session table, the id
    counter and both caches are as before; when [Pack] or [WriteTo] fails
    the response is lost and a log line is all that is added to what the
    handler did. *)
Theorem handlePacket_replies_iff
    (pack_ok send_ok : bool) (e : env) (m : option Message) (s : state) :
  (is_Some (fst (serve pack_ok send_ok e m s)) <->
   pack_ok = true /\ send_ok = true /\
   exists msg q,
     m = Some msg /\ Questions msg = [q] /\ Type_ q = TypeTXT /\
     Response msg = false /\
     GoStrings.HasSuffix (Name q) (domainName s) = true /\
     (List.length (labels_of s q) <= 3)%nat) /\
  (forall r,
      fst (serve pack_ok send_ok e m s) = Some r ->
      handlePacket e m s = (Some r, snd (serve pack_ok send_ok e m s))) /\
  (is_Some (fst (handlePacket e m s)) <->
   exists msg q,
     m = Some msg /\ Questions msg = [q] /\ Type_ q = TypeTXT /\
     Response msg = false /\
     GoStrings.HasSuffix (Name q) (domainName s) = true /\
     (List.length (labels_of s q) <= 3)%nat) /\
  (fst (handlePacket e m s) = None ->
   serve pack_ok send_ok e m s = (None, snd (handlePacket e m s)) /\
   conns (snd (handlePacket e m s)) = conns s /\
   connNextID (snd (handlePacket e m s)) = connNextID s /\
   seenTSCache (snd (handlePacket e m s)) = seenTSCache s /\
   ansCache (snd (handlePacket e m s)) = ansCache s) /\
  (is_Some (fst (handlePacket e m s)) -> pack_ok = false ->
   serve pack_ok send_ok e m s
   = (None, emit (EvLog "Packing response") (snd (handlePacket e m s)))) /\
  (is_Some (fst (handlePacket e m s)) -> pack_ok = true ->
   send_ok = false ->
   serve pack_ok send_ok e m s
   = (None, emit (EvLog "Sending response") (snd (handlePacket e m s)))).
Proof.
  destruct (handlePacket_rolls_iff e m s) as [Hiff Hnone].
  unfold serve, deliver.
  destruct (handlePacket e m s) as [[r|] t] eqn:Hh; cbn [fst snd] in *.
  - assert (Hsome : is_Some (Some r)) by (eexists; reflexivity).
    pose proof (proj1 Hiff Hsome) as Hcond.
    destruct pack_ok, send_ok; cbn [negb fst snd];
      (split; [split; [intros [? H]; try discriminate; auto
                      |intros (H1 & H2 & _); try discriminate; exact Hsome]|]);
      (split; [intros r' H; try discriminate; injection H as <-; reflexivity|]);
      (split; [exact Hiff|]);
      (split; [discriminate|]);
      (split; [intros _ H; try discriminate; reflexivity
              |intros _ H1 H2; try discriminate; reflexivity]).
  - split.
    { split; [intros [? H]; discriminate|].
      intros (_ & _ & Hc). apply Hiff in Hc. destruct Hc as [? Hc].
      discriminate. }
    split; [intros r' H; discriminate|].
    split; [exact Hiff|].
    split; [intros _; split; [reflexivity|apply Hnone; reflexivity]|].
    split; [intros [? H]; discriminate|intros [? H]; discriminate].
Qed.

(** Whatever [answer] sends is the query turned into a response. *)
Lemma answer_shape (e : env) (msg : Message) (q : Question) (qn : string)
    (labels : list string) (s : state) :
  exists reply, fst (answer e msg q qn labels s) = Some (respond msg q reply).
Proof.
  unfold answer.
  destruct (List.length labels =? 2)%nat.
  - destruct (Lru.Get qn (ansCache s)) as [[ca|] q'].
    + eexists. reflexivity.
    + destruct (dispatch e labels (set_ansCache q' s)) as [[rb| |err] s1];
        eexists; reflexivity.
  - destruct (dispatch e labels s) as [[rb| |err] s1]; eexists; reflexivity.
Qed.

(** X13.  Every message [handlePacket] writes back is the query with the
    same id and question, marked as an authoritative response, and either
    NXDOMAIN with no answer added or success with exactly one answer
    added: a TXT record for the question's name, type and class holding a
    single string. *)
Theorem handlePacket_reply_shape
    (e : env) (msg : Message) (s : state) (r : Message) :
  fst (handlePacket e (Some msg) s) = Some r ->
  ID r = ID msg /\ Response r = true /\ Authoritative r = true /\
  Questions r = Questions msg /\
  ((RCode r = RCodeNameError /\ Answers r = Answers msg) \/
   (exists q txt,
       Questions msg = [q] /\ RCode r = RCodeSuccess /\
       Answers r
       = Answers msg ++
         [{| rName := Name q; rType := Type_ q; rClass := Class q;
             TXT := [txt] |}])).
Proof.
  intros Hr.
  assert (Hshape : exists q reply, Questions msg = [q] /\ r = respond msg q reply).
  { cbn [handlePacket] in Hr.
    destruct (Questions msg) as [|q [|q' qs]] eqn:Hq; try discriminate.
    destruct (negb (Type_ q =? TypeTXT)); [discriminate|].
    destruct (Response msg); [discriminate|].
    destruct (negb (GoStrings.HasSuffix (Name q) (domainName s)));
      [discriminate|].
    exists q.
    destruct (GoStrings.SplitDot
                (GoStrings.ToLower
                   (GoStrings.TrimSuffix (Name q) (domainName s))))
      as [|l0 [|l1 [|l2 [|l3 ls]]]] eqn:Hl; try discriminate;
      try (match type of Hr with
           | fst (answer ?e ?m ?q ?qn ?ls ?s) = _ =>
               destruct (answer_shape e m q qn ls s) as [reply Ha];
               rewrite Ha in Hr; injection Hr as <-;
               exists reply; split; reflexivity
           end).
    cbn [fst] in Hr. injection Hr as <-. exists None. split; reflexivity. }
  destruct Hshape as (q & [txt|] & Hq & ->); cbn [respond ID Response
    Authoritative Questions RCode Answers]; repeat split.
  - right. exists q, txt. repeat split. exact Hq.
  - left. split; reflexivity.
Qed.

Lemma handlePacket_reply_shape_witness :
  RCode (respond (Sample.query Sample.poll_name)
                 (Sample.question Sample.poll_name) (Some "d29ybGQ"))
  = RCodeNameError /\
  Answers (respond (Sample.query Sample.poll_name)
                   (Sample.question Sample.poll_name) (Some "d29ybGQ"))
  = Answers (Sample.query Sample.poll_name) \/
  exists q txt,
    Questions (Sample.query Sample.poll_name) = [q] /\
    RCode (respond (Sample.query Sample.poll_name)
                   (Sample.question Sample.poll_name) (Some "d29ybGQ"))
    = RCodeSuccess /\
    Answers (respond (Sample.query Sample.poll_name)
                     (Sample.question Sample.poll_name) (Some "d29ybGQ"))
    = Answers (Sample.query Sample.poll_name) ++
      [{| rName := Name q; rType := Type_ q; rClass := Class q;
          TXT := [txt] |}].
Proof.
  apply (handlePacket_reply_shape Sample.env_ok
           (Sample.query Sample.poll_name) Sample.s1).
  vm_compute. reflexivity.
Defined.

(** X14.  A reverse poll that was answered with data is answered the same
    way when it comes again (a retransmission, say): the reply is taken
    from the answer cache, the upstream is not read again and neither the
    session table nor the trace of I/O changes. *)
Theorem repeated_poll_served_from_cache
    (e e' : env) (msg : Message) (q : Question) (s : state)
    (l0 l1 : string) (rb : list byte) :
  Questions msg = [q] -> Type_ q = TypeTXT -> Response msg = false ->
  GoStrings.HasSuffix (Name q) (domainName s) = true ->
  labels_of s q = [l0; l1] ->
  fst (Lru.Get (qname_of s q) (ansCache s)) = None ->
  fst (handleReverse e l0 l1 s) = Reply rb ->
  0 < Lru.size (ansCache s) ->
  fst (handlePacket e (Some msg) s)
  = Some (respond msg q (Some (Codec.b64_encode rb))) /\
  fst (handlePacket e' (Some msg) (snd (handlePacket e (Some msg) s)))
  = Some (respond msg q (Some (Codec.b64_encode rb))) /\
  conns (snd (handlePacket e' (Some msg) (snd (handlePacket e (Some msg) s))))
  = conns (snd (handlePacket e (Some msg) s)) /\
  trace (snd (handlePacket e' (Some msg) (snd (handlePacket e (Some msg) s))))
  = trace (snd (handlePacket e (Some msg) s)).
Proof.
  intros Hq Ht Hr Hs Hl Hmiss Hrev Hsize.
  destruct (handleReverse_replied e l0 l1 s rb Hrev)
    as (x & _ & _ & _ & _ & Hs1).
  assert (H1 : handlePacket e (Some msg) s
               = (Some (respond msg q (Some (Codec.b64_encode rb))),
                  set_ansCache
                    (Lru.Add (qname_of s q) (Codec.b64_encode rb) (ansCache s))
                    (after_reverse e l1 x s))).
  { rewrite (handlePacket_in_domain e msg q s Hq Ht Hr Hs), Hl.
    cbn [List.length Nat.leb]. rewrite (answer_miss _ _ _ _ _ _ _ Hmiss).
    destruct (handleReverse e l0 l1 s) as [res s1]. cbn [fst snd] in *.
    subst res s1. reflexivity. }
  rewrite H1. cbn [fst snd].
  set (s' := set_ansCache _ _).
  assert (Hs' : GoStrings.HasSuffix (Name q) (domainName s') = true) by exact Hs.
  assert (Hl' : labels_of s' q = [l0; l1]) by exact Hl.
  rewrite (handlePacket_in_domain e' msg q s' Hq Ht Hr Hs'), Hl'.
  cbn [List.length Nat.leb].
  destruct (Lru.Get (qname_of s' q) (ansCache s')) as [hit cache'] eqn:Hg.
  assert (Hhit : hit = Some (Codec.b64_encode rb)).
  { change hit with (fst (hit, cache')). rewrite <- Hg.
    apply LruFacts.Get_Add. exact Hsize. }
  subst hit. rewrite (answer_hit e' msg q _ l0 l1 s' _ cache' Hg).
  repeat split.
Qed.

Lemma repeated_poll_served_from_cache_witness :
  fst (handlePacket Sample.env_ok (Some (Sample.query Sample.poll_name))
         Sample.s1)
  = Some (respond (Sample.query Sample.poll_name)
                  (Sample.question Sample.poll_name)
                  (Some (Codec.b64_encode (bytes_of "world")))) /\
  fst (handlePacket Sample.env_broken (Some (Sample.query Sample.poll_name))
         (snd (handlePacket Sample.env_ok
                 (Some (Sample.query Sample.poll_name)) Sample.s1)))
  = Some (respond (Sample.query Sample.poll_name)
                  (Sample.question Sample.poll_name)
                  (Some (Codec.b64_encode (bytes_of "world")))).
Proof.
  destruct (repeated_poll_served_from_cache Sample.env_ok Sample.env_broken
              (Sample.query Sample.poll_name)
              (Sample.question Sample.poll_name) Sample.s1
              "0" Sample.id1 (bytes_of "world"))
    as (H1 & H2 & _); try (vm_compute; reflexivity).
  split; [exact H1|exact H2].
Defined.

(** The handlers add no panic to the trace. *)
Lemma dispatch_quiet (e : env) (labels : list string) (s : state) :
  exists evs,
    trace (snd (dispatch e labels s)) = trace s ++ evs /\
    forall why, ~ In (EvPanic why) evs.
Proof.
  assert (Hsame : exists evs, trace s = trace s ++ evs /\
                              forall why, ~ In (EvPanic why) evs).
  { exists []. split; [symmetry; apply app_nil_r|intros why []]. }
  destruct labels as [|l0 [|l1 [|l2 [|l3 r]]]]; cbn [dispatch snd];
    try exact Hsame.
  - destruct (handleNewConn_cases e l0 s) as [H|[H|(sock & _ & H)]];
      rewrite H; [exact Hsame| |]; eexists; (split; [reflexivity|]);
      intros why Hin; cbn in Hin; intuition discriminate.
  - destruct (handleReverse_cases e l0 l1 s) as [H|(x & _ & _ & H)];
      [rewrite H; exact Hsame|].
    rewrite H. destruct (deadline_ok e); eexists; (split; [reflexivity|]);
      intros why Hin; cbn in Hin; intuition discriminate.
  - destruct (handleForward_cases e l0 l1 l2 s) as [[H _]|(x & b & _ & _ & _ & H)];
      [rewrite H; exact Hsame|].
    rewrite H. eexists; (split; [reflexivity|]).
    intros why Hin. destruct (write_ok e); cbn in Hin; intuition discriminate.
Qed.

Lemma answer_quiet (e : env) (msg : Message) (q : Question) (qn : string)
    (labels : list string) (s : state) :
  exists evs,
    trace (snd (answer e msg q qn labels s)) = trace s ++ evs /\
    forall why, ~ In (EvPanic why) evs.
Proof.
  assert (Hmore : forall q' s1 evs,
             trace s1 = trace (set_ansCache q' s) ++ evs ->
             (forall why, ~ In (EvPanic why) evs) ->
             exists evs',
               trace (emit (EvLog "Error") s1) = trace s ++ evs' /\
               forall why, ~ In (EvPanic why) evs').
  { intros q' s1 evs Ht Hq. exists (evs ++ [EvLog "Error"]).
    split; [cbn [emit trace]; rewrite Ht, <- app_assoc; reflexivity|].
    intros why Hin. apply in_app_or in Hin as [Hin|Hin];
      [exact (Hq why Hin)|cbn in Hin; intuition discriminate]. }
  unfold answer.
  destruct (List.length labels =? 2)%nat.
  - destruct (Lru.Get qn (ansCache s)) as [[ca|] q'].
    + exists []. split; [symmetry; apply app_nil_r|intros why []].
    + destruct (dispatch_quiet e labels (set_ansCache q' s))
        as (evs & Ht & Hq).
      destruct (dispatch e labels (set_ansCache q' s)) as [[rb| |err] s1];
        cbn [snd] in Ht |- *;
        [exists evs; split; [exact Ht|exact Hq]
        |exists evs; split; [exact Ht|exact Hq]
        |exact (Hmore q' s1 evs Ht Hq)].
  - destruct (dispatch_quiet e labels s) as (evs & Ht & Hq).
    rewrite <- (set_ansCache_same s) in Ht at 2.
    destruct (dispatch e labels s) as [[rb| |err] s1];
      cbn [snd] in Ht |- *;
      [exists evs; split; [exact Ht|exact Hq]
      |exists evs; split; [exact Ht|exact Hq]
      |exact (Hmore (ansCache s) s1 evs Ht Hq)].
Qed.

Lemma handlePacket_quiet
    (e : env) (m : option Message) (s : state) (why : string) :
  ~ In (EvPanic why) (emitted s (snd (handlePacket e m s))).
Proof.
  assert (Hlog : forall text,
             ~ In (EvPanic why) (emitted s (emit (EvLog text) s))).
  { intros text. rewrite (emitted_app s _ [EvLog text]) by reflexivity.
    cbn. intuition discriminate. }
  assert (Hsame : ~ In (EvPanic why) (emitted s s)).
  { rewrite emitted_same. intros []. }
  destruct m as [msg|]; cbn [handlePacket snd]; [|apply Hlog].
  destruct (Questions msg) as [|q [|q' qs]]; cbn [snd]; try apply Hlog.
  destruct (negb (Type_ q =? TypeTXT)); [exact Hsame|].
  destruct (Response msg); [apply Hlog|].
  destruct (negb (GoStrings.HasSuffix (Name q) (domainName s)));
    [exact Hsame|].
  pose proof (SplitDot_nonempty
                (GoStrings.ToLower
                   (GoStrings.TrimSuffix (Name q) (domainName s)))) as Hne.
  destruct (GoStrings.SplitDot
              (GoStrings.ToLower
                 (GoStrings.TrimSuffix (Name q) (domainName s))))
    as [|l0 [|l1 [|l2 [|l3 r]]]] eqn:Hl; [congruence| | | |apply Hlog].
  all: match goal with
       | |- context [answer ?e ?m ?q ?qn ?ls ?s] =>
           destruct (answer_quiet e m q qn ls s) as (evs & Ht & Hq);
           rewrite (emitted_app _ _ _ Ht); apply Hq
       end.
Qed.

(** X15.  The panic for "no labels" that the second switch of
    [handlePacket] holds cannot happen: splitting a name at its dots never
    gives an empty list, so whatever the packet and the state, the trace
    of [handlePacket] holds no panic. *)
Theorem handlePacket_never_panics
    (e : env) (m : option Message) (s : state) :
  existsb is_panic (emitted s (snd (handlePacket e m s))) = false.
Proof.
  destruct (existsb is_panic (emitted s (snd (handlePacket e m s))))
    eqn:Hex; [|reflexivity].
  apply existsb_exists in Hex as (ev & Hin & Hp).
  destruct ev; try discriminate.
  exfalso. exact (handlePacket_quiet e m s _ Hin).
Qed.

(* ===================================================================== *)
(** * The client against the server *)
(* ===================================================================== *)

(** X16.  A handshake end to end.  The client asks for the decimal clock
    reading in front of its domain; when that reading is an [int64] within
    the server's window, was not seen before and the dial works, the
    server opens the session under its next id and the client, reading the
    TXT string back, puts exactly that id in front of its domain, so that
    its later names end in a dot, the id and the server's parent domain. *)
Theorem handshake_end_to_end
    (lookup : Client.resolver) (e : env) (s : state) (c : Client.client)
    (now : Z) (msg : Message) (q : Question) (sock : nat) :
  Questions msg = [q] -> Type_ q = TypeTXT -> Response msg = false ->
  Answers msg = [] ->
  Name q
  = String.append
      (String.append (Strconv.FormatInt10 now) (Client.domain c)) "." ->
  String.append (Client.domain c) "." = domainName s ->
  - 2 ^ 63 <= now < 2 ^ 63 ->
  in_window now (now0 e) ->
  Lru.Contains (Strconv.FormatInt10 now) (seenTSCache s) = false ->
  dial e = Some sock ->
  lookup (String.append (Strconv.FormatInt10 now) (Client.domain c))
  = Wire.txts_of (fst (handlePacket e (Some msg) s)) ->
  snd (handlePacket e (Some msg) s)
  = after_newconn e (Strconv.FormatInt10 now) sock s /\
  Client.handshake lookup now c
  = (None,
     Client.set_domain
       (String.append "."
          (String.append (Strconv.FormatUint36 (connNextID s))
             (Client.domain c))) c) /\
  String.append (Client.domain (snd (Client.handshake lookup now c))) "."
  = String.append "."
      (String.append (Strconv.FormatUint36 (connNextID s)) (domainName s)).
Proof.
  intros Hq Ht Hr Ha Hn Hd Hnow Hw Hseen Hdial Hl.
  assert (Hname : Name q
                  = String.append (Strconv.FormatInt10 now) (domainName s)).
  { rewrite Hn, StringFacts.append_assoc, Hd. reflexivity. }
  destruct (WireFacts.name_in_domain s q _ Hname) as (Hsuf & Hqn & Hlab).
  pose proof (StrconvFacts.FormatInt10_plain now) as Hplain.
  rewrite (StringFacts.plain_ToLower _ Hplain) in Hqn, Hlab.
  rewrite (StringFacts.SplitDot_dotless _
             (StringFacts.plain_dotless _ Hplain)) in Hlab.
  assert (Hp : handlePacket e (Some msg) s
               = (Some (respond msg q
                          (Some (Codec.b64_encode
                                   (bytes_of
                                      (Strconv.FormatUint36
                                         (connNextID s)))))),
                  after_newconn e (Strconv.FormatInt10 now) sock s)).
  { rewrite (handlePacket_in_domain e msg q s Hq Ht Hr Hsuf), Hlab, Hqn.
    cbn [List.length Nat.leb].
    rewrite WireFacts.answer_other by reflexivity. cbn [dispatch].
    rewrite (handleNewConn_fresh e _ s now sock
               (StrconvFacts.ParseInt10_FormatInt10 now Hnow)
               Hw Hseen Hdial).
    reflexivity. }
  rewrite Hp in Hl |- *. cbn [fst snd] in Hl |- *.
  rewrite (WireFacts.txts_of_respond _ _ _ Ha) in Hl.
  assert (Hh : Client.handshake lookup now c
               = (None,
                  Client.set_domain
                    (String.append "."
                       (String.append (Strconv.FormatUint36 (connNextID s))
                          (Client.domain c))) c)).
  { unfold Client.handshake. rewrite (WireFacts.query_decodes _ _ _ _ Hl).
    rewrite WireFacts.bytes_of_nonempty
      by apply StrconvFacts.format_digits_nonempty.
    unfold bytes_of. rewrite string_of_list_byte_of_string. reflexivity. }
  split; [reflexivity|]. split; [exact Hh|].
  rewrite Hh. cbn [snd Client.set_domain Client.domain].
  rewrite !StringFacts.append_assoc, Hd. reflexivity.
Qed.

Lemma handshake_end_to_end_witness :
  Client.handshake (Sample.resolver_at Sample.env_ok Sample.s0)
    1700000000000000000 Sample.c0
  = (None, Sample.c1).
Proof.
  refine (proj1 (proj2
    (handshake_end_to_end (Sample.resolver_at Sample.env_ok Sample.s0)
       Sample.env_ok Sample.s0 Sample.c0 1700000000000000000
       (Sample.query "1700000000000000000.example.com.")
       (Sample.question "1700000000000000000.example.com.") 7%nat
       eq_refl eq_refl eq_refl eq_refl eq_refl eq_refl _ _ _ eq_refl
       eq_refl))).
  - split; vm_compute; [discriminate|reflexivity].
  - unfold in_window. vm_compute. discriminate.
  - vm_compute. reflexivity.
Defined.

(** X17.  A chunk end to end.  The forward pump reads at most 39 bytes
    and asks for its counter, a dot and the base32 text of the chunk in
    front of the domain the handshake left.  When the counter is the one
    the session expects, the server writes exactly that chunk upstream;
    the client gets the empty answer when the write worked and an error
    when it did not. *)
Theorem forward_end_to_end
    (lookup : Client.resolver) (e : env) (s : state) (c : Client.client)
    (id : string) (x : conn) (qn : Z) (avail chunk : list byte)
    (sd : string) (msg : Message) (q : Question) :
  Questions msg = [q] -> Type_ q = TypeTXT -> Response msg = false ->
  Answers msg = [] ->
  Client.proxyForward_query qn avail = (chunk, Some sd) ->
  Name q = String.append (String.append sd (Client.domain c)) "." ->
  String.append (Client.domain c) "."
  = String.append "." (String.append id (domainName s)) ->
  LabelCheck.plain id = true ->
  conns s !! id = Some x ->
  nextFwd x = qn -> 0 <= qn < 2 ^ 64 ->
  lookup (String.append sd (Client.domain c))
  = Wire.txts_of (fst (handlePacket e (Some msg) s)) ->
  chunk = take Client.rBufLen avail /\
  snd (handlePacket e (Some msg) s)
  = (if write_ok e then after_forward e id x chunk s
     else emit (EvLog "Error") (after_forward e id x chunk s)) /\
  Client.query lookup c sd
  = if write_ok e then Reply [] else Err "querying".
Proof.
  intros Hq Ht Hr Ha Hpf Hn Hd Hid Hx Hctr Hrange Hl.
  unfold Client.proxyForward_query, Client.stdin_Read in Hpf.
  destruct (List.length (take Client.rBufLen avail) =? 0)%nat;
    [discriminate|].
  injection Hpf as Hchunk Hsd. split; [symmetry; exact Hchunk|].
  rewrite Hchunk in Hsd. clear Hchunk. rewrite <- Hsd in Hn.
  rewrite (WireFacts.forward_packet e s _ id x qn chunk msg q
             Hq Ht Hr Hn Hd Hid Hx Hctr Hrange) in Hl |- *.
  destruct (write_ok e); cbn [fst snd] in Hl |- *;
    rewrite (WireFacts.txts_of_respond _ _ _ Ha) in Hl;
    (split; [reflexivity|]).
  - apply WireFacts.query_decodes. exact Hl.
  - apply WireFacts.query_refused. exact Hl.
Qed.

Lemma forward_end_to_end_witness :
  snd (handlePacket Sample.env_ok
         (Some (Sample.query "0.NBSWY3DP.cit8nfnj3h9i.example.com."))
         Sample.s1)
  = after_forward Sample.env_ok Sample.id1 Sample.x1 (bytes_of "hello")
      Sample.s1 /\
  Client.query (Sample.resolver_at Sample.env_ok Sample.s1) Sample.c1
    "0.NBSWY3DP"
  = Reply [].
Proof.
  refine (proj2
    (forward_end_to_end (Sample.resolver_at Sample.env_ok Sample.s1)
       Sample.env_ok Sample.s1 Sample.c1 Sample.id1 Sample.x1 0
       (bytes_of "hello") (bytes_of "hello") "0.NBSWY3DP"
       (Sample.query "0.NBSWY3DP.cit8nfnj3h9i.example.com.")
       (Sample.question "0.NBSWY3DP.cit8nfnj3h9i.example.com.")
       eq_refl eq_refl eq_refl eq_refl _ eq_refl _ _
       _ eq_refl _ eq_refl)).
  - vm_compute. reflexivity.
  - vm_compute. reflexivity.
  - vm_compute. reflexivity.
  - vm_compute. reflexivity.
  - split; vm_compute; [discriminate|reflexivity].
Defined.

(** X18.  A poll end to end.  The reverse pump asks for its counter in
    front of the domain the handshake left.  When the counter is the one
    the session expects, the name is not in the answer cache and the read
    deadline can be set, the client gets exactly the first 189 bytes the
    upstream had whenever the read returned bytes or reported nothing
    worse than a timeout: the empty reply, then, when the read deadline
    elapsed or the read returned nothing and no error.  A read that
    returns no bytes and another error, the end of the stream ([io.EOF])
    included, reaches the client as an error.  Either way the session
    stays, with its counter advanced. *)
Theorem reverse_end_to_end
    (lookup : Client.resolver) (e : env) (s : state) (c : Client.client)
    (id : string) (x : conn) (qn : Z) (msg : Message) (q : Question) :
  Questions msg = [q] -> Type_ q = TypeTXT -> Response msg = false ->
  Answers msg = [] ->
  Name q
  = String.append
      (String.append (Strconv.FormatUint36 qn) (Client.domain c)) "." ->
  String.append (Client.domain c) "."
  = String.append "." (String.append id (domainName s)) ->
  LabelCheck.plain id = true ->
  conns s !! id = Some x ->
  nextRev x = qn -> 0 <= qn < 2 ^ 64 ->
  deadline_ok e = true ->
  fst (Lru.Get (String.append (Strconv.FormatUint36 qn) (String "."%char id))
         (ansCache s)) = None ->
  lookup (String.append (Strconv.FormatUint36 qn) (Client.domain c))
  = Wire.txts_of (fst (handlePacket e (Some msg) s)) ->
  (read_data e <> [] \/ read_err e <> ErrOther ->
   Client.poll lookup c qn = Reply (take maxTXTLen (read_data e))) /\
  (read_data e = [] -> read_err e = ErrOther ->
   Client.poll lookup c qn = Err "recv") /\
  conns (snd (handlePacket e (Some msg) s)) !! id
  = Some (set_last (now2 e) (set_last (now1 e) (incr_nextRev x))).
Proof.
  intros Hq Ht Hr Ha Hn Hd Hid Hx Hctr Hrange Hdl Hmiss Hl.
  pose proof (WireFacts.session_name q _ id _ _ Hn Hd) as Hname.
  destruct (WireFacts.name_in_domain s q _ Hname) as (Hsuf & Hqn & Hlab).
  pose proof (StrconvFacts.FormatUint36_plain qn) as Hplain.
  rewrite StringFacts.ToLower_app, WireFacts.ToLower_dot in Hqn, Hlab.
  rewrite (StringFacts.plain_ToLower _ Hplain) in Hqn, Hlab.
  rewrite (StringFacts.plain_ToLower _ Hid) in Hqn, Hlab.
  rewrite (StringFacts.SplitDot_app_dot _ _
             (StringFacts.plain_dotless _ Hplain)) in Hlab.
  rewrite (StringFacts.SplitDot_dotless _
             (StringFacts.plain_dotless _ Hid)) in Hlab.
  assert (Hrev : handleReverse e (Strconv.FormatUint36 qn) id s
                 = (reverse_result e, after_reverse e id x s)).
  { apply handleReverse_reads; [|exact Hx|exact Hdl].
    rewrite Hctr. apply StrconvFacts.ParseUint_FormatUint36. exact Hrange. }
  pose proof (handlePacket_in_domain e msg q s Hq Ht Hr Hsuf) as Hp.
  rewrite Hlab, Hqn in Hp. cbn [List.length Nat.leb] in Hp.
  rewrite (answer_miss e msg q _ _ _ s Hmiss), Hrev in Hp.
  assert (Hconns : forall s',
             conns s' = conns (after_reverse e id x s) ->
             conns s' !! id
             = Some (set_last (now2 e) (set_last (now1 e) (incr_nextRev x)))).
  { intros s' ->. cbn [after_reverse conns]. apply lookup_insert_eq. }
  unfold Client.poll.
  unfold reverse_result in Hp.
  destruct (List.length (take maxTXTLen (read_data e)) =? 0)%nat eqn:Hlen;
    cbn [negb] in Hp.
  - apply Nat.eqb_eq in Hlen.
    assert (Hnil : read_data e = []).
    { destruct (read_data e) as [|b r]; [reflexivity|].
      cbn in Hlen. discriminate. }
    rewrite Hnil in *. cbn [take].
    destruct (read_err e) eqn:Herr; rewrite Hp in Hl |- *;
      cbn [fst snd] in Hl |- *;
      rewrite (WireFacts.txts_of_respond _ _ _ Ha) in Hl.
    + rewrite (WireFacts.query_decodes _ _ _ _ Hl).
      split; [reflexivity|]. split; [discriminate|].
      apply Hconns. reflexivity.
    + rewrite (WireFacts.query_decodes _ _ _ _ Hl).
      split; [reflexivity|]. split; [discriminate|].
      apply Hconns. reflexivity.
    + rewrite (WireFacts.query_refused _ _ _ Hl).
      split; [intros [H|H]; congruence|]. split; [reflexivity|].
      apply Hconns. reflexivity.
  - rewrite Hp in Hl |- *. cbn [fst snd] in Hl |- *.
    rewrite (WireFacts.txts_of_respond _ _ _ Ha) in Hl.
    rewrite (WireFacts.query_decodes _ _ _ _ Hl).
    split; [reflexivity|]. split; [|apply Hconns; reflexivity].
    intros Hnil. rewrite Hnil in Hlen. discriminate.
Qed.

Lemma reverse_end_to_end_witness :
  Client.poll (Sample.resolver_at Sample.env_ok Sample.s1) Sample.c1 0
  = Reply (bytes_of "world").
Proof.
  refine (proj1
    (reverse_end_to_end (Sample.resolver_at Sample.env_ok Sample.s1)
       Sample.env_ok Sample.s1 Sample.c1 Sample.id1 Sample.x1 0
       (Sample.query Sample.poll_name) (Sample.question Sample.poll_name)
       eq_refl eq_refl eq_refl eq_refl eq_refl eq_refl eq_refl
       _ eq_refl _ eq_refl _ eq_refl) _).
  - vm_compute. reflexivity.
  - split; vm_compute; [discriminate|reflexivity].
  - vm_compute. reflexivity.
  - left. vm_compute. discriminate.
Defined.

(** X19.  The reverse pump counts what it wrote.  Over any sequence of
    polls that does not end in a panic, the [rev] total grows by the
    number of bytes the replies carried, modulo 2^64, whatever the sleeps
    in between; the domain and the maximum interval are left alone. *)
Theorem proxyBack_counts_bytes (turns : list (list byte * Z)) :
  forall c c' : Client.client,
    0 <= Client.rev c < 2 ^ 64 ->
    ClientRun.proxyBack_run c turns = Some c' ->
    Client.rev c'
    = wrap64 (Client.rev c
              + Z.of_nat (List.length (ClientRun.payload_of turns))) /\
    Client.domain c' = Client.domain c /\
    Client.pollMax c' = Client.pollMax c.
Proof.
  unfold ClientRun.payload_of.
  induction turns as [|[b r] rest IH]; intros c c' Hrange Hrun.
  - cbn in Hrun |- *. injection Hrun as <-. unfold wrap64.
    rewrite Z.add_0_r, Z.mod_small by lia. repeat split.
  - cbn [ClientRun.proxyBack_run] in Hrun.
    cbn [List.map List.concat fst]. rewrite length_app, Nat2Z.inj_add.
    unfold Client.proxyBack_turn in Hrun.
    destruct b as [|b0 b]; cbn [List.length Nat.eqb negb] in Hrun.
    + cbv zeta in Hrun.
      destruct (Client.Int63n _ r) as [st|]; [|discriminate].
      destruct (IH (Client.set_poll _ c) c' Hrange Hrun) as (H1 & H2 & H3).
      cbn [List.length]. rewrite Z.add_0_l. repeat split; assumption.
    + assert (Hrange' : 0 <= wrap64 (Client.rev c
                                      + Z.of_nat (S (List.length b)))
                        < 2 ^ 64)
        by (unfold wrap64; apply Z.mod_pos_bound; lia).
      destruct (IH (Client.set_poll Client.pollMin
                      (Client.add_rev (Z.of_nat (S (List.length b))) c))
                  c' Hrange' Hrun) as (H1 & H2 & H3).
      cbn [Client.set_poll Client.add_rev Client.rev Client.domain
           Client.pollMax] in H1, H2, H3.
      split; [|split; assumption].
      rewrite H1. unfold wrap64. rewrite Zplus_mod_idemp_l.
      cbn [List.length]. f_equal. lia.
Qed.

Lemma proxyBack_counts_bytes_witness :
  Client.rev (Client.add_rev 10 Sample.c2) = wrap64 (0 + 10).
Proof.
  refine (proj1
    (proxyBack_counts_bytes
       [(bytes_of "hello", 3); ([], 5); (bytes_of "world", 8)]
       Sample.c1 (Client.add_rev 10 Sample.c2) _ _)).
  - split; vm_compute; [discriminate|reflexivity].
  - vm_compute. reflexivity.
Defined.

(** X20.  Dots around the domain flag do not matter, on either side: the
    server and the client trim them before they add their own, what is
    left has no dot at either end (trimming it again changes nothing), and
    so a client started with a domain that differs from the server's only
    in leading or trailing dots asks for names that end in the server's
    parent domain. *)
Theorem domain_flag_dots_ignored (d : string) (t p : Z) :
  domainName (init (String "."%char d) t) = domainName (init d t) /\
  domainName (init (String.append d ".") t) = domainName (init d t) /\
  domainName (init (GoStrings.TrimDot d) t) = domainName (init d t) /\
  String.append (Client.domain (Client.new_client (String "."%char d) p)) "."
  = domainName (init d t) /\
  String.append (Client.domain (Client.new_client (String.append d ".") p)) "."
  = domainName (init d t).
Proof.
  assert (Hidem : GoStrings.TrimDot (GoStrings.TrimDot d) = GoStrings.TrimDot d).
  { destruct (StringFacts.TrimDot_trimmed d) as [Hl Hr].
    unfold GoStrings.TrimDot at 1. rewrite Hl. exact Hr. }
  unfold init, Client.new_client. cbn [domainName Client.domain].
  rewrite StringFacts.TrimDot_dot_l, StringFacts.TrimDot_dot_r, Hidem.
  rewrite !StringFacts.append_assoc. repeat split.
Qed.

(** The forward pump against the server, turn by turn. *)
Lemma proxyForward_run_trace (turns : list (env * nat)) :
  forall (cl : Client.client) (qn : Z) (input : list byte) (s : state)
         (id : string) (x : conn),
    String.append (Client.domain cl) "."
    = String.append "." (String.append id (domainName s)) ->
    LabelCheck.plain id = true ->
    conns s !! id = Some x ->
    nextFwd x = qn -> 0 <= qn < 2 ^ 64 ->
    0 <= Client.fwd cl < 2 ^ 64 ->
    Forall (fun t => write_ok (fst t) = true) turns ->
    exists c' qn' rest s' evs x',
      Wire.proxyForward_run turns cl qn input s = (c', qn', rest, s') /\
      trace s' = trace s ++ evs /\
      Wire.written (c x) evs ++ rest = input /\
      Client.fwd c'
      = wrap64 (Client.fwd cl
                + Z.of_nat (List.length (Wire.written (c x) evs))) /\
      conns s' !! id = Some x' /\ nextFwd x' = qn'.
Proof.
  induction turns as [|[e ready] turns IH];
    intros c0 qn input s id x Hd Hid Hx Hctr Hrange Hfwd Hok.
  - exists c0, qn, input, s, [], x. cbn [Wire.proxyForward_run].
    rewrite app_nil_r. cbn. unfold wrap64.
    rewrite Z.add_0_r, Z.mod_small by lia. repeat split; assumption.
  - apply Forall_cons in Hok as [Hw Hok]. cbn [fst] in Hw.
    cbn [Wire.proxyForward_run].
    unfold Client.proxyForward_query, Client.stdin_Read.
    set (chunk := take Client.rBufLen (take ready input)).
    destruct (List.length chunk =? 0)%nat eqn:Hlen.
    + exact (IH c0 qn input s id x Hd Hid Hx Hctr Hrange Hfwd Hok).
    + assert (Hprefix : chunk ++ drop (List.length chunk) input = input).
      { unfold chunk. rewrite take_take, length_take.
        generalize (Nat.min Client.rBufLen ready). intros n.
        destruct (Nat.le_gt_cases n (List.length input)) as [Hle|Hgt].
        - rewrite (Nat.min_l _ _ Hle). apply take_drop.
        - rewrite Nat.min_r by lia.
          rewrite (take_ge input) by lia. rewrite drop_all. apply app_nil_r. }
      set (name := String.append
                     (String.append (Strconv.FormatUint36 qn)
                        (String.append "." (Client.enc chunk)))
                     (Client.domain c0)).
      rewrite (WireFacts.forward_packet e s (Client.domain c0) id x qn chunk
                 (Wire.ask name)
                 {| Name := String.append name "."; Type_ := TypeTXT;
                    Class := 1 |}
                 eq_refl eq_refl eq_refl eq_refl Hd Hid Hx Hctr Hrange).
      rewrite Hw.
      rewrite (WireFacts.query_decodes _ c0 _ []) by reflexivity.
      assert (Hx' : conns (after_forward e id x chunk s) !! id
                    = Some (set_last (now1 e)
                              (set_last (now0 e) (incr_nextFwd x)))).
      { cbn [after_forward conns]. rewrite Hw. apply lookup_insert_eq. }
      destruct (IH (Client.add_fwd (Z.of_nat (List.length chunk)) c0)
                  (wrap64 (qn + 1)) (drop (List.length chunk) input)
                  (after_forward e id x chunk s) id _ Hd Hid Hx')
        as (c' & qn' & rest & s' & evs & x' & Hrun & Ht & Hin & Hf & Hc & Hn);
        [cbn [set_last incr_nextFwd nextFwd]; rewrite Hctr; reflexivity
        |unfold wrap64; apply Z.mod_pos_bound; lia
        |cbn [Client.add_fwd Client.fwd]; unfold wrap64;
         apply Z.mod_pos_bound; lia
        |exact Hok|].
      cbn [set_last incr_nextFwd c] in Hin, Hf.
      exists c', qn', rest, s',
        ([EvUpdateLast (c x) (now0 e); EvWrite (c x) chunk true;
          EvUpdateLast (c x) (now1 e)] ++ evs), x'.
      split; [exact Hrun|]. split.
      { rewrite Ht. cbn [after_forward trace]. rewrite Hw, <- app_assoc.
        reflexivity. }
      assert (Hwr : Wire.written (c x)
                      ([EvUpdateLast (c x) (now0 e); EvWrite (c x) chunk true;
                        EvUpdateLast (c x) (now1 e)] ++ evs)
                    = chunk ++ Wire.written (c x) evs).
      { unfold Wire.written. rewrite flat_map_app. cbn [flat_map].
        rewrite Nat.eqb_refl, app_nil_r. reflexivity. }
      rewrite Hwr. split.
      { rewrite <- app_assoc, Hin. exact Hprefix. }
      split; [|split; assumption].
      rewrite Hf. cbn [Client.add_fwd Client.fwd]. unfold wrap64.
      rewrite Zplus_mod_idemp_l, length_app, Nat2Z.inj_add. f_equal. lia.
Qed.

(** X21.  The forward stream arrives intact.  However standard input is
    cut into reads, and as long as the upstream takes the writes, the
    bytes written to the session's socket, followed by the input not yet
    read, are the input: nothing is lost, repeated or reordered.  The
    client's byte count is the number of bytes written (modulo 2^64), and
    the session ends up expecting the counter the client will send
    next. *)
Theorem forward_stream_intact
    (turns : list (env * nat)) (cl : Client.client) (input : list byte)
    (s : state) (id : string) (x : conn) :
  String.append (Client.domain cl) "."
  = String.append "." (String.append id (domainName s)) ->
  LabelCheck.plain id = true ->
  conns s !! id = Some x ->
  nextFwd x = 0 ->
  0 <= Client.fwd cl < 2 ^ 64 ->
  Forall (fun t => write_ok (fst t) = true) turns ->
  exists c' qn' rest s',
    Wire.proxyForward_run turns cl 0 input s = (c', qn', rest, s') /\
    Wire.written (c x) (emitted s s') ++ rest = input /\
    Client.fwd c'
    = wrap64 (Client.fwd cl
              + Z.of_nat (List.length (Wire.written (c x) (emitted s s')))) /\
    fwd_of id s' = Some qn'.
Proof.
  intros Hd Hid Hx Hctr Hfwd Hok.
  destruct (proxyForward_run_trace turns cl 0 input s id x Hd Hid Hx Hctr
              ltac:(lia) Hfwd Hok)
    as (c' & qn' & rest & s' & evs & x' & Hrun & Ht & Hin & Hf & Hc & Hn).
  exists c', qn', rest, s'. rewrite (emitted_app _ _ _ Ht).
  unfold fwd_of. rewrite Hc, Hn. repeat split; assumption.
Qed.

Lemma forward_stream_intact_witness :
  exists c' qn' rest s',
    Wire.proxyForward_run
      [(Sample.env_ok, 3%nat); (Sample.env_ok, 0%nat); (Sample.env_ok, 100%nat)]
      Sample.c1 0 (bytes_of "hello world") Sample.s1
    = (c', qn', rest, s') /\
    Wire.written (c Sample.x1) (emitted Sample.s1 s') ++ rest
    = bytes_of "hello world" /\
    Client.fwd c'
    = wrap64 (Client.fwd Sample.c1
              + Z.of_nat (List.length
                            (Wire.written (c Sample.x1)
                               (emitted Sample.s1 s')))) /\
    fwd_of Sample.id1 s' = Some qn'.
Proof.
  apply (forward_stream_intact
           [(Sample.env_ok, 3%nat); (Sample.env_ok, 0%nat);
            (Sample.env_ok, 100%nat)]
           Sample.c1 (bytes_of "hello world") Sample.s1 Sample.id1 Sample.x1).
  - reflexivity.
  - vm_compute. reflexivity.
  - vm_compute. reflexivity.
  - reflexivity.
  - split; vm_compute; [discriminate|reflexivity].
  - repeat constructor.
Defined.
Example ParseUint_z : Strconv.ParseUint "z" 36 = Some 35.
Proof. reflexivity. Qed.

Example ParseUint_empty : Strconv.ParseUint "" 36 = None.
Proof. reflexivity. Qed.

Example ParseUint_overflow :
  Strconv.ParseUint "3w5e11264sgsg" 36 = None /\
  Strconv.ParseUint "3w5e11264sgsf" 36 = Some (2 ^ 64 - 1).
Proof. split; vm_compute; reflexivity. Qed.

Example FormatUint36_max :
  Strconv.FormatUint36 (2 ^ 64 - 1) = "3w5e11264sgsf"%string.
Proof. vm_compute. reflexivity. Qed.

Example ParseInt10_neg : Strconv.ParseInt10 "-12" = Some (-12).
Proof. reflexivity. Qed.

Example SplitDot_three :
  GoStrings.SplitDot "0.nbswy3dp.abc" = ["0"; "nbswy3dp"; "abc"]%string.
Proof. reflexivity. Qed.

Example HasSuffix_case :
  GoStrings.HasSuffix "0.abc.example.com." ".example.com." = true /\
  GoStrings.HasSuffix "0.abc.EXAMPLE.COM." ".example.com." = false.
Proof. split; reflexivity. Qed.

Example b32_hello : Codec.b32_encode (bytes_of "hello") = "NBSWY3DP"%string.
Proof. reflexivity. Qed.

Example b32_readme :
  Codec.b32_decode "KNJUQLJSFYYC2T3QMVXFGU2IL44C4OANBI"
  = Some (bytes_of "SSH-2.0-OpenSSH_8.8" ++ ["013"; "010"]%byte).
Proof. vm_compute. reflexivity. Qed.

Example b64_world : Codec.b64_encode (bytes_of "world") = "d29ybGQ"%string.
Proof. reflexivity. Qed.

Example b64_readme :
  Codec.b64_decode "Y2l0OG16YXMxajU1" = Some (bytes_of "cit8mzas1j55").
Proof. vm_compute. reflexivity. Qed.

Example b32_bad_char : Codec.b32_decode "nbswy3dp" = None.
Proof. reflexivity. Qed.
